(** * TDS quiz solver: the orchestrator and its tool capabilities

    A shallow embedding of the Python sources

    - [agent.py]: [RateLimitedLLM], [should_continue], [call_model], the
      LangGraph wiring ([workflow]) and [run_agent];
    - [tools/send_request.py]: [post_request];
    - [tools/download_file.py]: [download_file];
    - [tools/code_generate_and_run.py]: [run_code];
    - [tools/add_dependencies.py]: [add_dependencies];
    - [tools/web_scraper.py]: [get_rendered_html];
    - [main.py]: the [/solve] endpoint;

    and the properties of the specification that are decided by them.

    Conventions.  Python [str] values are Rocq strings (the UTF-8 bytes of the
    text); wall-clock readings ([time.time()], a float in the source) are
    rationals, so interval arithmetic is exact, and the clock never runs
    backwards; a Python call that may raise returns a [PyResult]; everything
    outside the process (clock, reasoning service, tools, network, file
    system) is an explicit world that is passed along.

    The graph runtime ([StateGraph], [ToolNode], [ainvoke]) and
    [asyncio.gather] are library code.  They are embedded by what the program
    relies on: a node returns an update that is folded into the state, a
    conditional edge picks the next node, an execution runs a bounded number
    of super-steps, and gathered results come back in the order of the
    tasks.  Two things differ between the releases of the runtime and are
    parameters: which exceptions of a tool the tools node answers with a
    text instead of letting them through, and what the runtime appends to
    the text of its own errors. *)

From Stdlib Require Import String Ascii List Bool Arith ZArith QArith Lia Lqa.
From Stdlib Require Import Numbers.DecimalString.
From stdpp Require Import gmap strings.

(** ** Python values shared by all modules *)

(** A raised exception: its class name and [str(e)]. *)
Record PyExn := mkExn { exn_class : string; exn_msg : string }.

(** The outcome of a Python call: a returned value or a raised exception. *)
Inductive PyResult (A : Type) : Type :=
| Return (a : A)
| Raise (e : PyExn).
Arguments Return {A} a.
Arguments Raise {A} e.

Definition is_return {A} (r : PyResult A) : bool :=
  match r with Return _ => true | Raise _ => false end.

(** ** Strings: the [str] and [os.path] operations the sources use *)
Module PyStr.

Definition is_upper (c : ascii) : bool :=
  (65 <=? nat_of_ascii c) && (nat_of_ascii c <=? 90).

(** [c.lower()] on one ASCII letter; other bytes are left alone. *)
Definition lower_char (c : ascii) : ascii :=
  if is_upper c then ascii_of_nat (nat_of_ascii c + 32) else c.

(** [s.lower()]. *)
Fixpoint lower (s : string) : string :=
  match s with
  | EmptyString => EmptyString
  | String c s' => String (lower_char c) (lower s')
  end.

(** [s.startswith(p)]. *)
Fixpoint startswith (p s : string) : bool :=
  match p, s with
  | EmptyString, _ => true
  | String a p', String b s' => if Ascii.eqb a b then startswith p' s' else false
  | String _ _, EmptyString => false
  end.

(** [sub in s]: [sub] occurs in [s] at some offset. *)
Fixpoint str_in (sub s : string) : bool :=
  if startswith sub s then true
  else match s with
       | EmptyString => false
       | String _ s' => str_in sub s'
       end.

(** [s.endswith("/")]. *)
Fixpoint ends_with_sep (s : string) : bool :=
  match s with
  | EmptyString => false
  | String c EmptyString => Ascii.eqb c "/"
  | String _ s' => ends_with_sep s'
  end.

(** ['/' in s]. *)
Fixpoint has_sep (s : string) : bool :=
  match s with
  | EmptyString => false
  | String c s' => if Ascii.eqb c "/" then true else has_sep s'
  end.

(** [os.path.basename(p)] of posixpath: [p[p.rfind('/') + 1:]]. *)
Fixpoint basename (p : string) : string :=
  match p with
  | EmptyString => EmptyString
  | String c p' =>
      if has_sep p' then basename p'
      else if Ascii.eqb c "/" then p' else p
  end.

(** [os.path.join(a, b)] of posixpath, for two components. *)
Definition path_join (a b : string) : string :=
  if startswith "/" b then b
  else if String.eqb a EmptyString || ends_with_sep a then a +:+ b
  else a +:+ "/" +:+ b.

(** [str(n)] / [f"{n}"] for a non-negative [int]. *)
Definition str_of_nat (n : nat) : string :=
  NilEmpty.string_of_uint (Nat.to_uint n).

(** [str(z)] for an [int]. *)
Definition str_of_Z (z : Z) : string :=
  match z with
  | Z0 => "0"
  | Zpos p => NilEmpty.string_of_uint (Pos.to_uint p)
  | Zneg p => "-" +:+ NilEmpty.string_of_uint (Pos.to_uint p)
  end.

(** [f"{q:.1f}"]: one digit after the point, the exact value rounded to
    the nearest tenth (ties to even). *)
Definition format_1f (q : Q) : string :=
  let n := Qnum q in
  let d := Zpos (Qden q) in
  let a := (Z.abs n * 10)%Z in
  let t0 := (a / d)%Z in
  let r := (a mod d)%Z in
  let t := if (2 * r <? d)%Z then t0
           else if (d <? 2 * r)%Z then (t0 + 1)%Z
           else if Z.even t0 then t0 else (t0 + 1)%Z in
  let sign := if (n <? 0)%Z then "-" else EmptyString in
  sign +:+ str_of_Z (t / 10)%Z +:+ "." +:+ str_of_Z (t mod 10)%Z.

Example lower_mixed : lower "Quiz COMPLETE!" = "quiz complete!".
Proof. reflexivity. Qed.

Example str_in_inner : str_in "404" "Error: Failed to download: HTTP 404" = true.
Proof. reflexivity. Qed.

Example str_in_absent : str_in "finished" "finish" = false.
Proof. reflexivity. Qed.

Example basename_traversal : basename "../../etc/passwd" = "passwd".
Proof. reflexivity. Qed.

Example basename_trailing : basename "a/b/" = EmptyString.
Proof. reflexivity. Qed.

Example basename_dotdot : basename "x/.." = "..".
Proof. reflexivity. Qed.

Example path_join_plain : path_join "LLMFiles" "data.csv" = "LLMFiles/data.csv".
Proof. reflexivity. Qed.

Example path_join_absolute : path_join "LLMFiles" "/etc/passwd" = "/etc/passwd".
Proof. reflexivity. Qed.

Example format_1f_ex : format_1f (37 # 3) = "12.3".
Proof. reflexivity. Qed.

Example format_1f_neg : format_1f (- (5 # 4)) = "-1.2".
Proof. reflexivity. Qed.

(** *** Facts about substrings *)

Lemma startswith_app p s : startswith p (p +:+ s) = true.
Proof.
  induction p as [|a p IH]; simpl; [reflexivity|].
  rewrite Ascii.eqb_refl. exact IH.
Qed.

Lemma startswith_split p s :
  startswith p s = true -> exists post, s = p +:+ post.
Proof.
  revert s. induction p as [|a p IH]; intros s H; simpl in *.
  - exists s. reflexivity.
  - destruct s as [|b s]; [discriminate|].
    destruct (Ascii.eqb_spec a b) as [->|]; [|discriminate].
    destruct (IH _ H) as [post ->]. exists post. reflexivity.
Qed.

Lemma str_in_app pre sub post : str_in sub (pre +:+ sub +:+ post) = true.
Proof.
  induction pre as [|c pre IH]; simpl.
  - destruct (sub +:+ post) eqn:E.
    + simpl. rewrite <- E, startswith_app. reflexivity.
    + simpl. rewrite <- E, startswith_app. reflexivity.
  - destruct (startswith sub (String c (pre +:+ sub +:+ post))); [reflexivity|].
    exact IH.
Qed.

Lemma append_assoc a b c : (a +:+ b) +:+ c = a +:+ b +:+ c.
Proof.
  induction a as [|x a IH]; [reflexivity|].
  change (String x ((a +:+ b) +:+ c) = String x (a +:+ b +:+ c)).
  rewrite IH. reflexivity.
Qed.

Lemma str_in_prefix sub post : str_in sub (sub +:+ post) = true.
Proof. apply (str_in_app EmptyString). Qed.

Lemma str_in_skip sub pre s :
  str_in sub s = true -> str_in sub (pre +:+ s) = true.
Proof.
  intros H. induction pre as [|c pre IH]; [exact H|].
  change (str_in sub (String c (pre +:+ s)) = true).
  cbn [str_in].
  destruct (startswith sub (String c (pre +:+ s))); [reflexivity|exact IH].
Qed.

Lemma startswith_refl s : startswith s s = true.
Proof.
  induction s as [|c s IH]; [reflexivity|].
  cbn [startswith]. rewrite Ascii.eqb_refl. exact IH.
Qed.

Lemma str_in_refl s : str_in s s = true.
Proof. destruct s; cbn [str_in]; rewrite startswith_refl; reflexivity. Qed.

Lemma str_in_split sub s :
  str_in sub s = true -> exists pre post, s = pre +:+ sub +:+ post.
Proof.
  induction s as [|c s IH]; simpl.
  - destruct (startswith sub EmptyString) eqn:E; [|discriminate].
    intros _. destruct (startswith_split _ _ E) as [post ->].
    exists EmptyString, post. reflexivity.
  - destruct (startswith sub (String c s)) eqn:E.
    + intros _. destruct (startswith_split _ _ E) as [post ->].
      exists EmptyString, post. reflexivity.
    + intros H. destruct (IH H) as (pre & post & ->).
      exists (String c pre), post. reflexivity.
Qed.

(** *** Facts about [basename] and [path_join] *)

Lemma has_sep_app a b : has_sep (a +:+ b) = has_sep a || has_sep b.
Proof.
  induction a as [|c a IH]; simpl; [reflexivity|].
  destruct (Ascii.eqb c "/"); [reflexivity|exact IH].
Qed.

Lemma basename_no_sep p : has_sep (basename p) = false.
Proof.
  induction p as [|c p IH]; simpl; [reflexivity|].
  destruct (has_sep p) eqn:Hp; [exact IH|].
  destruct (Ascii.eqb c "/") eqn:Hc; [exact Hp|].
  simpl. rewrite Hc. exact Hp.
Qed.

Lemma basename_id p : has_sep p = false -> basename p = p.
Proof.
  destruct p as [|c p]; simpl; [reflexivity|].
  destruct (Ascii.eqb c "/"); [discriminate|].
  intros ->. reflexivity.
Qed.

Lemma basename_idem p : basename (basename p) = basename p.
Proof. apply basename_id, basename_no_sep. Qed.

(** The directory part: every path is its directory prefix, empty or
    ending in the separator, followed by its basename. *)
Lemma basename_suffix p :
  exists dir, p = dir +:+ basename p /\
              (dir = EmptyString \/ ends_with_sep dir = true).
Proof.
  induction p as [|c p (dir & Hp & Hdir)]; simpl.
  - exists EmptyString. split; [reflexivity|left; reflexivity].
  - destruct (has_sep p) eqn:Hs.
    + exists (String c dir). split.
      * change (String c p = String c (dir +:+ basename p)).
        f_equal. exact Hp.
      * right. destruct Hdir as [->|Hd].
        -- change (p = basename p) in Hp.
           rewrite Hp, basename_no_sep in Hs. discriminate.
        -- simpl. destruct dir; [discriminate|exact Hd].
    + destruct (Ascii.eqb_spec c "/") as [->|Hc].
      * exists "/". split; [reflexivity|right; reflexivity].
      * exists EmptyString. split; [reflexivity|left; reflexivity].
Qed.

Lemma basename_below dir b :
  has_sep b = false -> basename (dir +:+ "/" +:+ b) = b.
Proof.
  intros Hb. induction dir as [|c dir IH].
  - change (basename (String "/" b) = b). cbn [basename].
    rewrite Hb. reflexivity.
  - change (basename (String c (dir +:+ "/" +:+ b)) = b). cbn [basename].
    rewrite has_sep_app. replace (has_sep ("/" +:+ b)) with true by reflexivity.
    rewrite orb_true_r. exact IH.
Qed.

Lemma startswith_sep_has_sep b : startswith "/" b = true -> has_sep b = true.
Proof.
  destruct b as [|c b]; [discriminate|].
  cbn [startswith has_sep].
  destruct (Ascii.eqb_spec "/" c) as [<-|]; [reflexivity|discriminate].
Qed.

Lemma path_join_LLMFiles b :
  has_sep b = false -> path_join "LLMFiles" b = "LLMFiles/" +:+ b.
Proof.
  intros Hb. unfold path_join.
  destruct (startswith "/" b) eqn:E.
  - apply startswith_sep_has_sep in E. congruence.
  - reflexivity.
Qed.

End PyStr.

(** ** The conversation: messages and requested tool invocations *)

(** One requested tool invocation of a reasoner message
    ([AIMessage.tool_calls[i]]): tool name, argument mapping, call id. *)
Record ToolCall := mkToolCall {
  tc_name : string;
  tc_args : list (string * string);
  tc_id : string
}.

(** The content of a message ([str | list[str | dict]]): a text, or a
    list of content blocks.  The program builds messages with a text; the
    message the reasoning service answers with may carry either. *)
Inductive Content :=
| Text (s : string)
| Blocks (blocks : list string).

(** The four message classes of [langchain_core.messages] the program
    handles.  Only [AIMessage] has the attribute [tool_calls]. *)
Inductive Message :=
| SystemMessage (content : string)
| HumanMessage (content : string)
| AIMessage (content : Content) (tool_calls : list ToolCall)
| ToolMessage (content : string) (name : string) (tool_call_id : string).

Definition content_of (m : Message) : Content :=
  match m with
  | SystemMessage c | HumanMessage c | ToolMessage c _ _ => Text c
  | AIMessage c _ => c
  end.

(** ** The world outside the process

    The wall clock advances by itself: before every interaction the
    environment lets [delay_us k] microseconds pass, where [k] counts the
    interactions so far.  The reasoning service answers the [k]-th interaction
    with [reasoner k conversation], the content and the tool invocations of
    an [AIMessage], or an exception.  The log records what the process asked
    for. *)

Inductive Event :=
| EvSleep (requested : Q)
| EvLLMCall (issued returned : Q)
| EvToolCall (call : ToolCall).

Record World := mkWorld {
  now : Q;
  served : nat;
  log : list Event
}.

Definition seconds_of_us (n : N) : Q := inject_Z (Z.of_N n) / 1000000.

Lemma seconds_of_us_nonneg n : (0 <= seconds_of_us n)%Q.
Proof.
  unfold seconds_of_us. apply Qle_shift_div_l; [reflexivity|].
  rewrite Qmult_0_l. change 0%Q with (inject_Z 0).
  rewrite <- Zle_Qle. lia.
Qed.

Section Environment.

Variable delay_us : nat -> N.
Variable reasoner : nat -> list Message -> PyResult (Content * list ToolCall).

(** Time passing before the next interaction.  Clock values are kept in
    lowest terms. *)
Definition elapse (w : World) : World :=
  {| now := Qred (now w + seconds_of_us (delay_us (served w)));
     served := S (served w);
     log := log w |}.

(** [time.time()]. *)
Definition time_time (w : World) : Q * World :=
  let w := elapse w in (now w, w).

(** [time.sleep(d)]: the caller is suspended for at least [d] seconds. *)
Definition time_sleep (d : Q) (w : World) : World :=
  let w := elapse w in
  {| now := Qred (now w + d); served := served w; log := EvSleep d :: log w |}.

(** [self.llm.invoke(messages)] of the raw client: the call is issued,
    takes some time, and returns a message or raises. *)
Definition llm_invoke (messages : list Message) (w : World)
  : PyResult Message * World :=
  let issued := now w in
  let k := served w in
  let w := elapse w in
  (match reasoner k messages with
   | Return (content, tool_calls) => Return (AIMessage content tool_calls)
   | Raise e => Raise e
   end,
   {| now := now w; served := served w;
      log := EvLLMCall issued (now w) :: log w |}).

(** *** [class RateLimitedLLM] *)

Record RateLimitedLLM := mkGateway {
  last_call_time : Q;
  min_interval : Q
}.

(** [RateLimitedLLM.__init__]. *)
Definition RateLimitedLLM_init : RateLimitedLLM :=
  {| last_call_time := 0; min_interval := 60 / 9 |}.

(** [RateLimitedLLM.invoke]. *)
Definition invoke (self : RateLimitedLLM) (messages : list Message) (w : World)
  : PyResult Message * RateLimitedLLM * World :=
  let '(current_time, w) := time_time w in
  let time_since_last := (current_time - last_call_time self)%Q in
  let w :=
    if Qlt_le_dec time_since_last (min_interval self)
    then
      let wait_time := (min_interval self - time_since_last)%Q in
      time_sleep wait_time w
    else w in
  let '(t, w) := time_time w in
  let self := {| last_call_time := t; min_interval := min_interval self |} in
  let '(r, w) := llm_invoke messages w in
  (r, self, w).

(** The clock reading with which an invocation starts, the time since
    the recorded stamp, and the state of the world when the underlying
    call is issued. *)
Definition entry_time (w : World) : Q := fst (time_time w).

Definition elapsed_at_entry (self : RateLimitedLLM) (w : World) : Q :=
  (entry_time w - last_call_time self)%Q.

Definition world_at_issue (self : RateLimitedLLM) (w : World) : World :=
  let w1 := snd (time_time w) in
  let w2 :=
    if Qlt_le_dec (elapsed_at_entry self w) (min_interval self)
    then time_sleep (min_interval self - elapsed_at_entry self w) w1
    else w1 in
  snd (time_time w2).

Lemma invoke_unfold self messages w :
  invoke self messages w =
  (fst (llm_invoke messages (world_at_issue self w)),
   {| last_call_time := now (world_at_issue self w);
      min_interval := min_interval self |},
   snd (llm_invoke messages (world_at_issue self w))).
Proof.
  unfold invoke, world_at_issue, elapsed_at_entry, entry_time, time_time.
  cbn [fst snd].
  destruct (Qlt_le_dec _ _); reflexivity.
Qed.

Lemma elapse_mono w : (now w <= now (elapse w))%Q.
Proof.
  cbn [elapse now]. rewrite Qred_correct.
  pose proof (seconds_of_us_nonneg (delay_us (served w))).
  lra.
Qed.

Lemma time_sleep_now d w : (now (time_sleep d w) == now (elapse w) + d)%Q.
Proof. cbn [time_sleep now]. apply Qred_correct. Qed.

(** Sequential guarantee: the stamp an invocation records lies at least
    one minimum interval after the stamp it found. *)
Lemma invoke_spacing self messages w :
  (last_call_time self + min_interval self
     <= last_call_time (snd (fst (invoke self messages w))))%Q.
Proof.
  rewrite invoke_unfold. cbn [fst snd last_call_time].
  unfold world_at_issue, elapsed_at_entry, entry_time, time_time.
  cbn [fst snd].
  destruct (Qlt_le_dec _ _) as [Hlt|Hge].
  - pose proof (elapse_mono (time_sleep
      (min_interval self - (now (elapse w) - last_call_time self)) (elapse w))) as H1.
    pose proof (elapse_mono (elapse w)) as H2.
    pose proof (time_sleep_now
      (min_interval self - (now (elapse w) - last_call_time self)) (elapse w)) as H3.
    lra.
  - pose proof (elapse_mono (elapse w)) as H1. lra.
Qed.

Lemma invoke_min_interval self messages w :
  min_interval (snd (fst (invoke self messages w))) = min_interval self.
Proof. rewrite invoke_unfold. reflexivity. Qed.


(** *** The run state and the updates nodes return *)

(** [class AgentState(TypedDict)]. *)
Record AgentState := mkState {
  messages : list Message;
  email : string;
  secret : string;
  current_url : string;
  start_time : Q;
  quiz_count : Z;
  max_time : Q
}.

(** The dict a node returns: the keys it sets.  A key that is absent
    leaves its channel as it was. *)
Record StateUpdate := mkUpdate {
  set_messages : option (list Message);
  set_email : option string;
  set_secret : option string;
  set_current_url : option string;
  set_start_time : option Q;
  set_quiz_count : option Z;
  set_max_time : option Q
}.

Definition only_messages (ms : list Message) : StateUpdate :=
  {| set_messages := Some ms; set_email := None; set_secret := None;
     set_current_url := None; set_start_time := None;
     set_quiz_count := None; set_max_time := None |}.

(** How the graph runtime folds an update into the state: [messages] is
    annotated with the reducer [add_messages], which appends (message ids
    are fresh); every other key keeps the last value written. *)
Definition apply_update (state : AgentState) (u : StateUpdate) : AgentState :=
  {| messages := messages state ++ default [] (set_messages u);
     email := default (email state) (set_email u);
     secret := default (secret state) (set_secret u);
     current_url := default (current_url state) (set_current_url u);
     start_time := default (start_time state) (set_start_time u);
     quiz_count := default (quiz_count state) (set_quiz_count u);
     max_time := default (max_time state) (set_max_time u) |}.

(** The module-level objects of the process next to the world. *)
Record Process := mkProcess {
  llm : RateLimitedLLM;
  world : World
}.

(** *** [should_continue] *)

Definition IndexError : PyExn := mkExn "IndexError" "list index out of range".

(** [hasattr(m, "tool_calls") and m.tool_calls]. *)
Definition wants_tools (m : Message) : bool :=
  match m with
  | AIMessage _ (_ :: _) => true
  | _ => false
  end.

(** [content.lower()] where [content] is a list. *)
Definition AttributeError_lower : PyExn :=
  mkExn "AttributeError" "'list' object has no attribute 'lower'".

Definition should_continue (state : AgentState) : PyResult string :=
  match last (messages state) with
  | None => Raise IndexError
  | Some last_message =>
      if wants_tools last_message then Return "tools"
      else
        match content_of last_message with
        | Blocks _ => Raise AttributeError_lower
        | Text text =>
            let content := PyStr.lower text in
            if PyStr.str_in "quiz complete" content
               || PyStr.str_in "no new url" content
               || PyStr.str_in "finished" content
            then Return "end"
            else Return "end"
        end
  end.

(** *** [call_model] *)

Variable SYSTEM_PROMPT : string.

Definition nl : string := String (ascii_of_nat 10) EmptyString.

Definition is_system (m : Message) : bool :=
  match m with SystemMessage _ => true | _ => false end.

Definition context_msg (state : AgentState) (elapsed_time time_remaining : Q)
  : string :=
  nl +:+ "Current context:" +:+ nl +:+
  "- Email: " +:+ email state +:+ nl +:+
  "- Secret: " +:+ secret state +:+ nl +:+
  "- Current URL: " +:+ current_url state +:+ nl +:+
  "- Quiz number: " +:+ PyStr.str_of_Z (quiz_count state) +:+ nl +:+
  "- Time elapsed: " +:+ PyStr.format_1f elapsed_time +:+ "s" +:+ nl +:+
  "- Time remaining: " +:+ PyStr.format_1f time_remaining +:+ "s" +:+ nl +:+
  nl +:+ "Start by scraping the current URL to see the quiz question.".

(** The conversation handed to the gateway. *)
Definition prompt_of (state : AgentState) (elapsed_time time_remaining : Q)
  : list Message :=
  let messages :=
    if existsb is_system (messages state) then messages state
    else SystemMessage SYSTEM_PROMPT :: messages state in
  messages ++ [HumanMessage (context_msg state elapsed_time time_remaining)].

Definition call_model (state : AgentState) (p : Process)
  : PyResult StateUpdate * Process :=
  let '(t, w) := time_time (world p) in
  let elapsed_time := (t - start_time state)%Q in
  let time_remaining := (max_time state - elapsed_time)%Q in
  let messages := prompt_of state elapsed_time time_remaining in
  let '(response, gw, w) := invoke (llm p) messages w in
  let p := {| llm := gw; world := w |} in
  match response with
  | Raise e => (Raise e, p)
  | Return response => (Return (only_messages [response]), p)
  end.

(** *** The tools node, [ToolNode(tools)]

    The node runs every invocation of the latest reasoner message as a
    task of its own and gathers the results.  The environment decides in
    which order the tasks complete; the gathered results are in the order
    of the invocations.

    [ToolNode(tools)] is built without [handle_tool_errors], so what
    happens to an exception a tool raises is the default of the release of
    the runtime: [tool_error_text e] is the text that answers the
    invocation in place of a result, or [None] when the exception leaves
    the node.  (Releases before 1.0 answer every exception with a text;
    later ones only a rejected argument list, and let everything else
    through.) *)

Variable tool_output : nat -> ToolCall -> PyResult string.
Variable completion_order : nat -> list ToolCall -> list nat.
Variable tool_error_text : PyExn -> option string.

(** What the [k]-th interaction of the process gives for an invocation:
    the content of its tool result, or the exception that leaves the
    node. *)
Definition tool_answer (k : nat) (call : ToolCall) : PyResult string :=
  match tool_output k call with
  | Return out => Return out
  | Raise e =>
      match tool_error_text e with
      | Some text => Return text
      | None => Raise e
      end
  end.

Definition run_tool (call : ToolCall) (w : World) : PyResult string * World :=
  let k := served w in
  let w := elapse w in
  (tool_answer k call,
   {| now := now w; served := served w; log := EvToolCall call :: log w |}).

(** The tasks named in [order] complete one after the other; a task that
    has completed, or an index that names no task, is skipped.  The first
    exception ends the wait. *)
Fixpoint complete (order : list nat) (calls : list ToolCall)
    (slots : list (option string)) (w : World)
  : PyResult (list (option string)) * World :=
  match order with
  | [] => (Return slots, w)
  | i :: order' =>
      match calls !! i, slots !! i with
      | Some call, Some None =>
          match run_tool call w with
          | (Return out, w') =>
              complete order' calls (<[i := Some out]> slots) w'
          | (Raise e, w') => (Raise e, w')
          end
      | _, _ => complete order' calls slots w
      end
  end.

(** [asyncio.gather]: wait until every task has completed, or until the
    first of them raises. *)
Definition gather (calls : list ToolCall) (w : World)
  : PyResult (list string) * World :=
  let n := length calls in
  match complete (completion_order (served w) calls) calls (replicate n None) w with
  | (Raise e, w) => (Raise e, w)
  | (Return slots, w) =>
      match complete (seq 0 n) calls slots w with
      | (Raise e, w) => (Raise e, w)
      | (Return slots, w) => (Return (omap id slots), w)
      end
  end.

Definition tool_message (call : ToolCall) (out : string) : Message :=
  ToolMessage out (tc_name call) (tc_id call).

Definition ValueError_no_AIMessage : PyExn :=
  mkExn "ValueError" "Last message is not an AIMessage".

Definition tool_node (state : AgentState) (p : Process)
  : PyResult StateUpdate * Process :=
  match last (messages state) with
  | Some (AIMessage _ calls) =>
      match gather calls (world p) with
      | (Return outs, w) =>
          (Return (only_messages (zip_with tool_message calls outs)),
           {| llm := llm p; world := w |})
      | (Raise e, w) => (Raise e, {| llm := llm p; world := w |})
      end
  | _ => (Raise ValueError_no_AIMessage, p)
  end.

(** *** The graph [workflow] and its execution *)

Inductive Node := agent | tools.

Inductive Target := ToNode (n : Node) | END.

(** [add_conditional_edges("agent", should_continue, {...})]. *)
Definition conditional_edges (route : string) : option Target :=
  if String.eqb route "tools" then Some (ToNode tools)
  else if String.eqb route "end" then Some END
  else None.

Definition KeyError (k : string) : PyExn := mkExn "KeyError" k.

Inductive Step :=
| Goto (next : Node) (state : AgentState) (p : Process)
| Halt (state : AgentState) (p : Process)
| Abort (e : PyExn) (p : Process).

(** One super-step: the node runs, its update is applied, the outgoing
    edge is followed. *)
Definition graph_step (node : Node) (state : AgentState) (p : Process) : Step :=
  match node with
  | agent =>
      match call_model state p with
      | (Raise e, p') => Abort e p'
      | (Return update, p') =>
          let state' := apply_update state update in
          match should_continue state' with
          | Raise e => Abort e p'
          | Return route =>
              match conditional_edges route with
              | Some (ToNode n) => Goto n state' p'
              | Some END => Halt state' p'
              | None => Abort (KeyError route) p'
              end
          end
      end
  | tools =>
      match tool_node state p with
      | (Raise e, p') => Abort e p'
      | (Return update, p') => Goto agent (apply_update state update) p'
      end
  end.

(** [config={"recursion_limit": 200}] of [run_agent]. *)
Definition recursion_limit : nat := 200.

(** What the release of the runtime appends to the text of its errors (a
    reference to its documentation; nothing in older releases). *)
Variable troubleshooting : string.

(** The error of an execution that used up its super-steps; the text
    names the configured limit. *)
Definition GraphRecursionError : PyExn :=
  mkExn "GraphRecursionError"
        ("Recursion limit of " +:+ PyStr.str_of_nat recursion_limit +:+
         " reached without hitting a stop condition. You can increase the " +:+
         "limit by setting the `recursion_limit` config key." +:+
         troubleshooting).

(** What a graph execution leaves behind: the value [ainvoke] returns or
    the exception it raises, the nodes that ran, and the process. *)
Record Execution := mkExecution {
  outcome : PyResult AgentState;
  visited : list Node;
  process_after : Process
}.

(** [graph.ainvoke(state, config={"recursion_limit": limit})] from [node]
    on.  The runtime runs one node per super-step and raises
    [GraphRecursionError] when the limit is used up before [END] is reached.
    [limit] counts the super-steps that are left; [run_agent] starts every
    execution with [recursion_limit].  No more than [limit] nodes run;
    whether an execution that reaches [END] in its very last permitted
    super-step still returns depends on the release of the runtime, and
    nothing below depends on it. *)
Fixpoint graph_loop (limit : nat) (node : Node) (state : AgentState)
    (p : Process) : Execution :=
  match limit with
  | O => {| outcome := Raise GraphRecursionError; visited := [];
            process_after := p |}
  | S limit' =>
      match graph_step node state p with
      | Goto next state' p' =>
          let r := graph_loop limit' next state' p' in
          {| outcome := outcome r; visited := node :: visited r;
             process_after := process_after r |}
      | Halt state' p' =>
          {| outcome := Return state'; visited := [node];
             process_after := p' |}
      | Abort e p' =>
          {| outcome := Raise e; visited := [node]; process_after := p' |}
      end
  end.

(** [workflow.set_entry_point("agent")]. *)
Definition graph_ainvoke (limit : nat) (state : AgentState) (p : Process)
  : Execution :=
  graph_loop limit agent state p.

(** *** [run_agent] *)

Inductive Report :=
| Succeeded (elapsed_time : Q) (quiz_count : Z)   (* "success": True *)
| Failed (error : string) (elapsed_time : Q).     (* "success": False *)

Definition initial_state (email secret initial_url : string) (t0 : Q)
  : AgentState :=
  {| messages :=
       [HumanMessage ("Solve the quiz at this URL: " +:+ initial_url)];
     email := email;
     secret := secret;
     current_url := initial_url;
     start_time := t0;
     quiz_count := 1;
     max_time := 180 |}.

(** The graph execution inside [run_agent]. *)
Definition run_graph (email secret initial_url : string) (p : Process)
  : Execution :=
  let '(t0, w) := time_time (world p) in
  graph_ainvoke recursion_limit (initial_state email secret initial_url t0)
                {| llm := llm p; world := w |}.

Definition run_agent (email secret initial_url : string) (p : Process)
  : Report * Process :=
  let t0 := fst (time_time (world p)) in
  let r := run_graph email secret initial_url p in
  let '(t1, w) := time_time (world (process_after r)) in
  let elapsed := (t1 - t0)%Q in
  let p' := {| llm := llm (process_after r); world := w |} in
  match outcome r with
  | Return final_state => (Succeeded elapsed (quiz_count final_state), p')
  | Raise e => (Failed (exn_msg e) elapsed, p')
  end.

(** Reasoning steps and Acting steps of an execution.  A Reasoning-Acting
    round trip is a Reasoning step followed by an Acting step. *)
Definition is_agent (n : Node) : bool :=
  match n with agent => true | tools => false end.

Definition is_tools (n : Node) : bool :=
  match n with agent => false | tools => true end.

Definition reasoning_steps (r : Execution) : nat :=
  length (List.filter is_agent (visited r)).

Definition acting_steps (r : Execution) : nat :=
  length (List.filter is_tools (visited r)).

(** *** Facts about [should_continue] *)

Lemma should_continue_last state m :
  last (messages state) = Some m ->
  should_continue state =
    if wants_tools m then Return "tools"
    else match content_of m with
         | Text _ => Return "end"
         | Blocks _ => Raise AttributeError_lower
         end.
Proof.
  intros H. unfold should_continue. rewrite H.
  destruct (wants_tools m); [reflexivity|].
  destruct (content_of m); [|reflexivity].
  destruct (_ || _); reflexivity.
Qed.

Lemma wants_tools_ai content calls :
  wants_tools (AIMessage content calls) = negb (Nat.eqb (length calls) 0).
Proof. destruct calls; reflexivity. Qed.

(** *** Facts about the tools node *)

(** What an invocation is answered with: the content of some interaction
    of the process with its tool. *)
Definition answers (call : ToolCall) (out : string) : Prop :=
  exists k, tool_answer k call = Return out.

(** The slots filled so far hold answers of their own invocations. *)
Definition slots_ok (calls : list ToolCall) (slots : list (option string))
  : Prop :=
  length slots = length calls /\
  forall i call out,
    calls !! i = Some call -> slots !! i = Some (Some out) -> answers call out.

Lemma slots_ok_replicate calls :
  slots_ok calls (replicate (length calls) None).
Proof.
  split; [apply length_replicate|].
  intros i call out _ H. apply lookup_replicate in H as [H _]. discriminate.
Qed.

Lemma run_tool_answers call w out w' :
  run_tool call w = (Return out, w') -> answers call out.
Proof.
  unfold run_tool. intros H. injection H as H _. exists (served w). exact H.
Qed.

Lemma complete_ok order calls slots w slots' w' :
  slots_ok calls slots ->
  complete order calls slots w = (Return slots', w') ->
  slots_ok calls slots'.
Proof.
  revert slots w. induction order as [|i order IH]; intros slots w Hok;
    cbn [complete].
  - intros H. injection H as <- _. exact Hok.
  - destruct (calls !! i) as [call|] eqn:Hc; [|apply IH, Hok].
    destruct (slots !! i) as [[o|]|] eqn:Hs; try (apply IH, Hok).
    destruct (run_tool call w) as [[out|e] w1] eqn:Hr; [|discriminate].
    apply IH. destruct Hok as [Hlen Hall]. split.
    + rewrite length_insert. exact Hlen.
    + intros j call' out' Hc' Hs'.
      destruct (decide (i = j)) as [->|Hne].
      * rewrite list_lookup_insert_eq in Hs'
          by (apply lookup_lt_is_Some; eauto).
        injection Hs' as <-. rewrite Hc in Hc'. injection Hc' as <-.
        eapply run_tool_answers, Hr.
      * rewrite list_lookup_insert_ne in Hs' by exact Hne.
        eapply Hall; eassumption.
Qed.

(** A task that has completed keeps its result. *)
Lemma complete_keeps order calls slots w slots' w' i out :
  complete order calls slots w = (Return slots', w') ->
  slots !! i = Some (Some out) ->
  slots' !! i = Some (Some out).
Proof.
  revert slots w. induction order as [|j order IH]; intros slots w;
    cbn [complete].
  - intros H Hi. injection H as <- _. exact Hi.
  - destruct (calls !! j) as [call|]; [|apply IH].
    destruct (slots !! j) as [[o|]|] eqn:Hj; try apply IH.
    destruct (run_tool call w) as [[o|e] w1]; [|discriminate].
    intros H Hi. apply (IH _ _ H).
    rewrite list_lookup_insert_ne; [exact Hi|].
    intros ->. congruence.
Qed.

(** Every task named in the order has completed afterwards. *)
Lemma complete_fills order calls slots w slots' w' i :
  complete order calls slots w = (Return slots', w') ->
  i ∈ order -> i < length calls -> length slots = length calls ->
  exists out, slots' !! i = Some (Some out).
Proof.
  revert slots w. induction order as [|j order IH]; intros slots w H Hin Hi Hlen.
  - inversion Hin.
  - cbn [complete] in H. apply elem_of_cons in Hin as [->|Hin].
    + destruct (lookup_lt_is_Some_2 calls j Hi) as [call Hc].
      destruct (lookup_lt_is_Some_2 slots j ltac:(lia)) as [o Ho].
      rewrite Hc, Ho in H. destruct o as [out|].
      * exists out. eapply complete_keeps; eassumption.
      * destruct (run_tool call w) as [[out|e] w1]; [|discriminate].
        exists out. eapply complete_keeps; [exact H|].
        apply list_lookup_insert_eq. lia.
    + destruct (calls !! j) as [call|]; [|eapply IH; eassumption].
      destruct (slots !! j) as [[o|]|]; try (eapply IH; eassumption).
      destruct (run_tool call w) as [[o|e] w1]; [|discriminate].
      eapply IH; try eassumption.
      rewrite length_insert. exact Hlen.
Qed.

Lemma omap_id_all_some (slots : list (option string)) :
  (forall i, i < length slots -> exists out, slots !! i = Some (Some out)) ->
  length (omap id slots) = length slots.
Proof.
  induction slots as [|o slots IH]; intros H; [reflexivity|].
  destruct (H 0 ltac:(simpl; lia)) as [out Hout]. simpl in Hout.
  injection Hout as ->. simpl. f_equal. apply IH.
  intros i Hi. apply (H (S i)). simpl. lia.
Qed.

Lemma omap_id_lookup (slots : list (option string)) :
  (forall i, i < length slots -> exists out, slots !! i = Some (Some out)) ->
  forall i out, omap id slots !! i = Some out -> slots !! i = Some (Some out).
Proof.
  induction slots as [|o slots IH]; intros H i out; [discriminate|].
  destruct (H 0 ltac:(simpl; lia)) as [o' Ho']. simpl in Ho'.
  injection Ho' as ->. simpl. destruct i as [|i]; simpl.
  - intros E. injection E as <-. reflexivity.
  - apply IH. intros j Hj. apply (H (S j)). simpl. lia.
Qed.

(** Whatever the completion order, the results [gather] returns are one
    per invocation, each the answer to the invocation in its place. *)
Lemma gather_answers calls w outs w' :
  gather calls w = (Return outs, w') ->
  Forall2 answers calls outs.
Proof.
  unfold gather.
  destruct (complete (completion_order (served w) calls) calls
              (replicate (length calls) None) w) as [[slots1|e1] w1] eqn:E1;
    [|discriminate].
  destruct (complete (seq 0 (length calls)) calls slots1 w1)
    as [[slots2|e2] w2] eqn:E2; [|discriminate].
  intros H. injection H as <- _.
  pose proof (complete_ok _ _ _ _ _ _ (slots_ok_replicate calls) E1) as Hok1.
  pose proof (complete_ok _ _ _ _ _ _ Hok1 E2) as [Hl2 Hall].
  assert (Hfull : forall i, i < length slots2 ->
                    exists out, slots2 !! i = Some (Some out)).
  { intros i Hi. eapply complete_fills; [exact E2| |lia|apply Hok1].
    apply elem_of_seq. lia. }
  apply Forall2_same_length_lookup_2.
  - rewrite omap_id_all_some by exact Hfull. symmetry. exact Hl2.
  - intros i call out Hc Ho. eapply Hall; [exact Hc|].
    apply omap_id_lookup; assumption.
Qed.

Lemma gather_length calls w outs w' :
  gather calls w = (Return outs, w') -> length outs = length calls.
Proof.
  intros H. symmetry. eapply Forall2_length, gather_answers, H.
Qed.

(** The name and the call id of every requested invocation, and of every
    tool result, in conversation order. *)
Definition call_key (call : ToolCall) : string * string :=
  (tc_name call, tc_id call).

Definition requested (ms : list Message) : list (string * string) :=
  flat_map (fun m => match m with
                     | AIMessage _ calls => map call_key calls
                     | _ => []
                     end) ms.

Definition answered (ms : list Message) : list (string * string) :=
  flat_map (fun m => match m with
                     | ToolMessage _ name id => [(name, id)]
                     | _ => []
                     end) ms.

Lemma requested_app a b : requested (a ++ b) = requested a ++ requested b.
Proof. apply flat_map_app. Qed.

Lemma answered_app a b : answered (a ++ b) = answered a ++ answered b.
Proof. apply flat_map_app. Qed.

Lemma answered_tool_messages calls outs :
  length outs = length calls ->
  answered (zip_with tool_message calls outs) = map call_key calls.
Proof.
  revert outs. induction calls as [|call calls IH]; intros [|out outs] Hl;
    try discriminate; [reflexivity|].
  simpl. f_equal. apply IH. simpl in Hl. lia.
Qed.

Lemma requested_tool_messages calls outs :
  requested (zip_with tool_message calls outs) = [].
Proof.
  revert outs. induction calls as [|call calls IH]; intros [|out outs];
    try reflexivity.
  simpl. apply IH.
Qed.

(** An exception that ends the wait was raised by the tool of one of
    the invocations and is not answered by a text. *)
Definition unanswered (calls : list ToolCall) (e : PyExn) : Prop :=
  exists k call,
    In call calls /\ tool_output k call = Raise e /\ tool_error_text e = None.

Lemma tool_answer_raise k call e :
  tool_answer k call = Raise e ->
  tool_output k call = Raise e /\ tool_error_text e = None.
Proof.
  unfold tool_answer. destruct (tool_output k call) as [out|e']; [discriminate|].
  destruct (tool_error_text e') eqn:E; [discriminate|].
  intros H. injection H as <-. split; [reflexivity|exact E].
Qed.

Lemma complete_raise order calls slots w e w' :
  complete order calls slots w = (Raise e, w') -> unanswered calls e.
Proof.
  revert slots w. induction order as [|i order IH]; intros slots w;
    cbn [complete]; [discriminate|].
  destruct (calls !! i) as [call|] eqn:Hc; [|apply IH].
  destruct (slots !! i) as [[o|]|]; try apply IH.
  destruct (run_tool call w) as [[out|e1] w1] eqn:Hr; [apply IH|].
  intros H. injection H as <- _.
  unfold run_tool in Hr. injection Hr as Hr _.
  apply tool_answer_raise in Hr as [Ho He].
  exists (served w), call. split; [|split; assumption].
  apply list_elem_of_In. eapply list_elem_of_lookup_2, Hc.
Qed.

Lemma gather_raise calls w e w' :
  gather calls w = (Raise e, w') -> unanswered calls e.
Proof.
  unfold gather.
  destruct (complete (completion_order (served w) calls) calls
              (replicate (length calls) None) w) as [[slots1|e1] w1] eqn:E1.
  - destruct (complete (seq 0 (length calls)) calls slots1 w1)
      as [[slots2|e2] w2] eqn:E2; [discriminate|].
    intros H. injection H as <- _. eapply complete_raise, E2.
  - intros H. injection H as <- _. eapply complete_raise, E1.
Qed.

(** *** Facts about single super-steps *)

Lemma invoke_response self messages w :
  fst (fst (invoke self messages w)) = fst (llm_invoke messages (world_at_issue self w)).
Proof. rewrite invoke_unfold. reflexivity. Qed.

Lemma llm_invoke_response messages w :
  (exists e, fst (llm_invoke messages w) = Raise e) \/
  (exists content calls,
      fst (llm_invoke messages w) = Return (AIMessage content calls)).
Proof.
  unfold llm_invoke. cbn [fst].
  destruct (reasoner _ _) as [[content calls]|e]; eauto.
Qed.

(** The answer of the reasoning service as the update of a Reasoning
    step. *)
Definition response_update (r : PyResult (Content * list ToolCall))
  : PyResult StateUpdate :=
  match r with
  | Return (content, tool_calls) =>
      Return (only_messages [AIMessage content tool_calls])
  | Raise e => Raise e
  end.

(** What a Reasoning step reads from the clock and what it sends: the
    time it takes for the current time, the world in which the call is
    issued, and the prompt, made with the time elapsed since the start of
    the run and the time that remains. *)
Definition reading (p : Process) : Q := fst (time_time (world p)).

Definition issue_world (p : Process) : World :=
  world_at_issue (llm p) (snd (time_time (world p))).

Definition prompt_sent (state : AgentState) (p : Process) : list Message :=
  let elapsed_time := (reading p - start_time state)%Q in
  let time_remaining := (max_time state - elapsed_time)%Q in
  prompt_of state elapsed_time time_remaining.

(** Every Reasoning step asks the reasoning service exactly once, with
    that prompt, and returns what the service answers. *)
Lemma call_model_sends state p :
  (call_model state p).1 =
    response_update (reasoner (served (issue_world p)) (prompt_sent state p)).
Proof.
  unfold call_model, prompt_sent, reading, issue_world.
  destruct (time_time (world p)) as [t w]. cbn [fst snd].
  pose proof (invoke_response (llm p)
    (prompt_of state (t - start_time state)
               (max_time state - (t - start_time state))) w) as Hr.
  destruct (invoke _ _ _) as [[response gw] w'].
  cbn [fst] in Hr. unfold llm_invoke in Hr. cbn [fst] in Hr.
  destruct (reasoner _ _) as [[content calls]|e]; subst response; reflexivity.
Qed.

Lemma call_model_shape state p update p' :
  call_model state p = (Return update, p') ->
  exists content calls, update = only_messages [AIMessage content calls].
Proof.
  intros H. pose proof (call_model_sends state p) as Hs.
  rewrite H in Hs. cbn [fst] in Hs.
  destruct (reasoner _ _) as [[content calls]|e]; [|discriminate].
  injection Hs as ->. eauto.
Qed.

Lemma call_model_raise state p e p' :
  call_model state p = (Raise e, p') ->
  exists k ms, reasoner k ms = Raise e.
Proof.
  intros H. pose proof (call_model_sends state p) as Hs.
  rewrite H in Hs. cbn [fst] in Hs.
  destruct (reasoner _ _) as [[content calls]|e'] eqn:E; [discriminate|].
  injection Hs as ->. eauto.
Qed.

Definition append_message (state : AgentState) (m : Message) : AgentState :=
  apply_update state (only_messages [m]).

(** The route after a reasoner message: to the tools node when it
    requests invocations; otherwise to the end when its content is a text,
    and an [AttributeError] when its content is a list of blocks. *)
Definition route_after (state : AgentState) (content : Content)
    (calls : list ToolCall) (p : Process) : Step :=
  match calls, content with
  | _ :: _, _ => Goto tools (append_message state (AIMessage content calls)) p
  | [], Text _ => Halt (append_message state (AIMessage content calls)) p
  | [], Blocks _ => Abort AttributeError_lower p
  end.

(** A Reasoning step whose gateway call returned: the message is appended,
    and the route depends on the message alone. *)
Lemma agent_step_spec state p content calls p' :
  call_model state p = (Return (only_messages [AIMessage content calls]), p') ->
  graph_step agent state p = route_after state content calls p'.
Proof.
  intros H. unfold graph_step. rewrite H.
  rewrite (should_continue_last _ (AIMessage content calls)).
  - destruct calls; [destruct content|]; reflexivity.
  - cbn [apply_update messages only_messages set_messages default].
    apply last_snoc.
Qed.

Lemma agent_step_goto state p n state' p' :
  graph_step agent state p = Goto n state' p' ->
  n = tools /\
  exists content call calls,
    state' = append_message state (AIMessage content (call :: calls)).
Proof.
  intros H. destruct (call_model state p) as [[update|e] p1] eqn:E.
  - destruct (call_model_shape _ _ _ _ E) as (content & calls & ->).
    rewrite (agent_step_spec _ _ _ _ _ E) in H.
    destruct calls as [|call calls]; [destruct content; discriminate|].
    injection H as <- <- _. split; [reflexivity|].
    exists content, call, calls. reflexivity.
  - unfold graph_step in H. rewrite E in H. discriminate.
Qed.

Lemma agent_step_halt state p state' p' :
  graph_step agent state p = Halt state' p' ->
  exists text, state' = append_message state (AIMessage (Text text) []).
Proof.
  intros H. destruct (call_model state p) as [[update|e] p1] eqn:E.
  - destruct (call_model_shape _ _ _ _ E) as (content & calls & ->).
    rewrite (agent_step_spec _ _ _ _ _ E) in H.
    destruct calls as [|call calls]; [|discriminate].
    destruct content as [text|blocks]; [|discriminate].
    injection H as <- _. exists text. reflexivity.
  - unfold graph_step in H. rewrite E in H. discriminate.
Qed.

(** A Reasoning step raises what the reasoning service raised, or the
    [AttributeError] of a reply that is a list of blocks without
    invocations. *)
Lemma agent_step_abort state p e p' :
  graph_step agent state p = Abort e p' ->
  (exists k ms, reasoner k ms = Raise e) \/
  (e = AttributeError_lower /\
   exists k ms blocks, reasoner k ms = Return (Blocks blocks, [])).
Proof.
  intros H. pose proof (call_model_sends state p) as Hs.
  destruct (call_model state p) as [[update|e'] p1] eqn:E.
  - destruct (call_model_shape _ _ _ _ E) as (content & calls & ->).
    rewrite (agent_step_spec _ _ _ _ _ E) in H.
    destruct calls as [|call calls]; [|discriminate].
    destruct content as [text|blocks]; [discriminate|].
    injection H as <- _. right. split; [reflexivity|].
    cbn [fst] in Hs.
    destruct (reasoner _ _) as [[content calls]|e'] eqn:Er; [|discriminate].
    injection Hs as <- <-. eauto.
  - unfold graph_step in H. rewrite E in H. injection H as <- _.
    left. eapply call_model_raise, E.
Qed.

(** An Acting step after a reasoner message: either one tool result per
    invocation is appended, each the answer to its own invocation, and
    control returns to Reasoning; or an exception of a tool that is not
    answered by a text leaves the node. *)
Lemma tools_step_spec state p content calls :
  last (messages state) = Some (AIMessage content calls) ->
  (exists outs p',
      Forall2 answers calls outs /\
      graph_step tools state p =
        Goto agent
             (apply_update state (only_messages (zip_with tool_message calls outs)))
             p') \/
  (exists e p', unanswered calls e /\ graph_step tools state p = Abort e p').
Proof.
  intros H. unfold graph_step, tool_node. rewrite H.
  destruct (gather calls (world p)) as [[outs|e] w] eqn:E.
  - left. exists outs, {| llm := llm p; world := w |}.
    split; [eapply gather_answers, E|reflexivity].
  - right. exists e, {| llm := llm p; world := w |}.
    split; [eapply gather_raise, E|reflexivity].
Qed.

Lemma tools_step_goto state p n state' p' :
  graph_step tools state p = Goto n state' p' -> n = agent.
Proof.
  unfold graph_step. destruct (tool_node state p) as [[u|e] p1]; intros H;
    [injection H as <- _ _; reflexivity|discriminate].
Qed.

(** No super-step writes any channel other than [messages]. *)
Definition same_control (a b : AgentState) : Prop :=
  email a = email b /\ secret a = secret b /\
  current_url a = current_url b /\ start_time a = start_time b /\
  quiz_count a = quiz_count b /\ max_time a = max_time b.

Lemma same_control_refl a : same_control a a.
Proof. repeat split. Qed.

Lemma same_control_trans a b c :
  same_control a b -> same_control b c -> same_control a c.
Proof.
  unfold same_control. intros (?&?&?&?&?&?) (?&?&?&?&?&?).
  repeat split; congruence.
Qed.

Lemma apply_only_messages_control state ms :
  same_control state (apply_update state (only_messages ms)).
Proof. repeat split. Qed.

Lemma graph_step_control node state p :
  match graph_step node state p with
  | Goto _ state' _ | Halt state' _ => same_control state state'
  | Abort _ _ => True
  end.
Proof.
  destruct node.
  - destruct (graph_step agent state p) as [n state' p'| state' p'|e p'] eqn:E;
      [| |exact I].
    + apply agent_step_goto in E as (_ & content & call & calls & ->).
      apply apply_only_messages_control.
    + apply agent_step_halt in E as (content & ->).
      apply apply_only_messages_control.
  - unfold graph_step. destruct (tool_node state p) as [[u|e] p1] eqn:E;
      [|exact I].
    unfold tool_node in E.
    destruct (last (messages state)) as [[| |c calls|]|]; try discriminate.
    destruct (gather calls (world p)) as [[outs|e] w]; [|discriminate].
    injection E as <- _. apply apply_only_messages_control.
Qed.

(** *** Facts about whole executions *)

Lemma graph_loop_control limit node state p final :
  outcome (graph_loop limit node state p) = Return final ->
  same_control state final.
Proof.
  revert node state p. induction limit as [|limit IH]; intros node state p;
    cbn [graph_loop]; [discriminate|].
  pose proof (graph_step_control node state p) as Hc.
  destruct (graph_step node state p) as [n state' p'|state' p'|e p'];
    cbn [outcome]; intros H.
  - eapply same_control_trans; [exact Hc|]. eapply IH, H.
  - injection H as <-. exact Hc.
  - discriminate.
Qed.

Lemma graph_loop_visited_length limit node state p :
  length (visited (graph_loop limit node state p)) <= limit.
Proof.
  revert node state p. induction limit as [|limit IH]; intros node state p;
    cbn [graph_loop]; [simpl; lia|].
  destruct (graph_step node state p) as [n state' p'|state' p'|e p'];
    cbn [visited length]; [|lia|lia].
  specialize (IH n state' p'). lia.
Qed.

Definition other (n : Node) : Node :=
  match n with agent => tools | tools => agent end.

(** The nodes of an execution alternate. *)
Fixpoint alternates (n : Node) (l : list Node) : Prop :=
  match l with
  | [] => True
  | x :: l' => x = n /\ alternates (other n) l'
  end.

Lemma graph_loop_alternates limit node state p :
  alternates node (visited (graph_loop limit node state p)).
Proof.
  revert node state p. induction limit as [|limit IH]; intros node state p;
    cbn [graph_loop]; [exact I|].
  destruct (graph_step node state p) as [n state' p'|state' p'|e p'] eqn:E;
    cbn [visited alternates]; try (split; [reflexivity|exact I]).
  split; [reflexivity|].
  replace (other node) with n; [apply IH|].
  destruct node.
  - apply agent_step_goto in E as [-> _]. reflexivity.
  - apply tools_step_goto in E as ->. reflexivity.
Qed.

Lemma alternates_count n l :
  alternates n l ->
  length (List.filter is_agent l) + length (List.filter is_tools l) = length l /\
  match n with
  | agent =>
      length (List.filter is_tools l) <= length (List.filter is_agent l)
      <= length (List.filter is_tools l) + 1
  | tools =>
      length (List.filter is_agent l) <= length (List.filter is_tools l)
      <= length (List.filter is_agent l) + 1
  end.
Proof.
  revert n. induction l as [|x l IH]; intros n; [destruct n; simpl; lia|].
  intros [-> H]. destruct (IH _ H) as [Hsum Hhalf].
  destruct n; simpl in *; lia.
Qed.

(** *** Round trips *)

(** One Reasoning step that requests tools followed by the Acting step
    that serves them. *)
Definition round_trip (state : AgentState) (p : Process)
  : option (AgentState * Process) :=
  match graph_step agent state p with
  | Goto tools state1 p1 =>
      match graph_step tools state1 p1 with
      | Goto agent state2 p2 => Some (state2, p2)
      | _ => None
      end
  | _ => None
  end.

Fixpoint round_trips (n : nat) (state : AgentState) (p : Process)
  : option (AgentState * Process) :=
  match n with
  | O => Some (state, p)
  | S n' =>
      match round_trip state p with
      | Some (state', p') => round_trips n' state' p'
      | None => None
      end
  end.

Lemma messages_append state m :
  messages (append_message state m) = messages state ++ [m].
Proof. reflexivity. Qed.

Lemma round_trip_messages state p state' p' :
  round_trip state p = Some (state', p') ->
  exists content calls outs,
    Forall2 answers calls outs /\
    length outs = length calls /\
    messages state' =
      messages state ++ AIMessage content calls :: zip_with tool_message calls outs.
Proof.
  unfold round_trip.
  destruct (graph_step agent state p) as [n state1 p1| |] eqn:E1;
    [|discriminate|discriminate].
  apply agent_step_goto in E1 as (-> & content & call & calls & ->).
  set (ai := AIMessage content (call :: calls)).
  destruct (tools_step_spec (append_message state ai) p1 content (call :: calls))
    as [(outs & p2 & Ha & ->)|(e & p2 & _ & ->)]; [| |discriminate].
  { rewrite messages_append. apply last_snoc. }
  intros H. injection H as <- _.
  exists content, (call :: calls), outs. split; [exact Ha|].
  split; [symmetry; eapply Forall2_length, Ha|].
  cbn [apply_update messages only_messages set_messages default].
  rewrite messages_append, <- app_assoc. reflexivity.
Qed.

(** The runtime executes a round trip as two super-steps. *)
Lemma graph_loop_round_trip limit state p state' p' :
  round_trip state p = Some (state', p') ->
  graph_loop (S (S limit)) agent state p =
    let r := graph_loop limit agent state' p' in
    {| outcome := outcome r; visited := agent :: tools :: visited r;
       process_after := process_after r |}.
Proof.
  unfold round_trip. intros H.
  destruct (graph_step agent state p) as [[|] state1 p1| |] eqn:E1;
    try discriminate.
  destruct (graph_step tools state1 p1) as [[|] state2 p2| |] eqn:E2;
    try discriminate.
  injection H as <- <-.
  cbn [graph_loop]. rewrite E1. cbn [graph_loop]. rewrite E2. reflexivity.
Qed.

(** The messages [n] round trips append: for each round trip the
    reasoner message, and then one tool result per invocation, in the
    order of the invocations, each with the answer to its own
    invocation. *)
Inductive trips : nat -> list Message -> Prop :=
| trips_O : trips 0 []
| trips_S n content calls outs rest :
    Forall2 answers calls outs ->
    trips n rest ->
    trips (S n)
          (AIMessage content calls :: zip_with tool_message calls outs ++ rest).

Lemma trips_answered n appended :
  trips n appended -> answered appended = requested appended.
Proof.
  induction 1 as [|n content calls outs rest Ha _ IH]; [reflexivity|].
  change (AIMessage content calls :: ?l) with ([AIMessage content calls] ++ l).
  rewrite !answered_app, !requested_app, IH.
  rewrite answered_tool_messages by (symmetry; eapply Forall2_length, Ha).
  rewrite requested_tool_messages. simpl. rewrite !app_nil_r. reflexivity.
Qed.

Lemma round_trips_messages n state p state' p' :
  round_trips n state p = Some (state', p') ->
  exists appended,
    messages state' = messages state ++ appended /\ trips n appended.
Proof.
  revert state p. induction n as [|n IH]; intros state p; cbn [round_trips].
  - intros H. injection H as <- _. exists []. split; [|constructor].
    symmetry. apply app_nil_r.
  - destruct (round_trip state p) as [[state1 p1]|] eqn:E; [|discriminate].
    intros H. destruct (IH _ _ H) as (rest & Hm & Ht).
    destruct (round_trip_messages _ _ _ _ E)
      as (content & calls & outs & Ha & _ & Hm1).
    exists (AIMessage content calls :: zip_with tool_message calls outs ++ rest).
    split.
    + rewrite Hm, Hm1, <- app_assoc. reflexivity.
    + constructor; assumption.
Qed.

(** The invocations of the latest reasoner message when the tools node
    is about to run. *)
Definition pending (node : Node) (state : AgentState) : list (string * string) :=
  match node, last (messages state) with
  | tools, Some (AIMessage _ calls) => map call_key calls
  | _, _ => []
  end.

Lemma graph_loop_answers limit node state p final :
  outcome (graph_loop limit node state p) = Return final ->
  exists appended,
    messages final = messages state ++ appended /\
    answered appended = pending node state ++ requested appended.
Proof.
  revert node state p. induction limit as [|limit IH]; intros node state p;
    cbn [graph_loop]; [discriminate|].
  destruct node.
  - destruct (graph_step agent state p) as [n state1 p1|state1 p1|e p1] eqn:E;
      cbn [outcome]; intros H; [| |discriminate].
    + apply agent_step_goto in E as (-> & content & call & calls & ->).
      destruct (IH _ _ _ H) as (rest & Hm & Ha).
      exists (AIMessage content (call :: calls) :: rest). split.
      * rewrite Hm, messages_append, <- app_assoc. reflexivity.
      * unfold pending in Ha. rewrite messages_append, last_snoc in Ha.
        exact Ha.
    + injection H as <-. apply agent_step_halt in E as (content & ->).
      exists [AIMessage (Text content) []]. split; reflexivity.
  - destruct (last (messages state)) as [m|] eqn:Hlast.
    + destruct m as [c|c|content calls|c nm id];
        try (unfold graph_step, tool_node; rewrite Hlast; discriminate).
      destruct (tools_step_spec state p content calls Hlast)
        as [(outs & p1 & Hl & ->)|(e & p1 & _ & ->)]; [|discriminate].
      cbn [outcome]. intros H. destruct (IH _ _ _ H) as (rest & Hm & Ha).
      exists (zip_with tool_message calls outs ++ rest). split.
      * rewrite Hm.
        cbn [apply_update messages only_messages set_messages default].
        rewrite <- app_assoc. reflexivity.
      * unfold pending. rewrite Hlast.
        rewrite answered_app, requested_app, Ha.
        rewrite answered_tool_messages
          by (symmetry; eapply Forall2_length, Hl).
        rewrite requested_tool_messages. reflexivity.
    + unfold graph_step, tool_node. rewrite Hlast. discriminate.
Qed.

End Environment.

(** *** Invocations of the shared gateway that overlap

    [llm = RateLimitedLLM()] is one module-level object: every run of the
    process calls [invoke] on it, and [invoke] takes no lock.  Here [invoke]
    is cut at its statements; a schedule interleaves the statements of the
    invocations in flight and lets the clock advance in between. *)
Module Threads.

(** Where one invocation stands. *)
Inductive Pc :=
| AtEntry                      (* before [current_time = time.time()] *)
| AtTest (current_time : Q)    (* before [time_since_last = ...] and the test *)
| InSleep (wake : Q)           (* inside [time.sleep(wait_time)] *)
| AtStamp                      (* before [self.last_call_time = time.time()] *)
| AtCall (stamp : Q)           (* before [self.llm.invoke(messages)] *)
| Finished.

(** What the invocations share: the clock, the gateway object, and the
    calls issued so far, newest first, each with the stamp its invocation
    recorded and the time it was issued. *)
Record Shared := mkShared {
  clock : Q;
  gateway : RateLimitedLLM;
  issued : list (Q * Q)
}.

Definition thread_step (pc : Pc) (s : Shared) : Pc * Shared :=
  match pc with
  | AtEntry => (AtTest (clock s), s)
  | AtTest current_time =>
      let time_since_last := (current_time - last_call_time (gateway s))%Q in
      if Qlt_le_dec time_since_last (min_interval (gateway s))
      then
        let wait_time := (min_interval (gateway s) - time_since_last)%Q in
        (InSleep (Qred (clock s + wait_time)), s)
      else (AtStamp, s)
  | InSleep wake =>
      if Qle_bool wake (clock s) then (AtStamp, s) else (InSleep wake, s)
  | AtStamp =>
      (AtCall (clock s),
       {| clock := clock s;
          gateway := {| last_call_time := clock s;
                        min_interval := min_interval (gateway s) |};
          issued := issued s |})
  | AtCall stamp =>
      (Finished,
       {| clock := clock s; gateway := gateway s;
          issued := (stamp, clock s) :: issued s |})
  | Finished => (Finished, s)
  end.

Record Config := mkConfig {
  shared : Shared;
  threads : list Pc
}.

Inductive Action :=
| Advance (us : N)     (* the clock moves on *)
| Begin                (* some run enters [invoke] *)
| Run (tid : nat).     (* invocation [tid] executes its next statement *)

Definition act (c : Config) (a : Action) : Config :=
  match a with
  | Advance us =>
      {| shared := {| clock := Qred (clock (shared c) + seconds_of_us us);
                      gateway := gateway (shared c);
                      issued := issued (shared c) |};
         threads := threads c |}
  | Begin => {| shared := shared c; threads := threads c ++ [AtEntry] |}
  | Run tid =>
      match threads c !! tid with
      | Some pc =>
          let '(pc', s') := thread_step pc (shared c) in
          {| shared := s'; threads := <[tid := pc']> (threads c) |}
      | None => c
      end
  end.

Definition exec (schedule : list Action) (c : Config) : Config :=
  fold_left act schedule c.

(** The process right after import: the gateway as [__init__] leaves it. *)
Definition boot (t0 : Q) : Config :=
  {| shared := {| clock := t0; gateway := RateLimitedLLM_init; issued := [] |};
     threads := [] |}.

(** Every call is issued at least [mi] after the stamp recorded for the
    call before it. *)
Fixpoint spaced (mi : Q) (calls : list (Q * Q)) : bool :=
  match calls with
  | later :: (earlier :: _) as rest =>
      Qle_bool (fst earlier + mi) (snd later) && spaced mi rest
  | _ => true
  end.

(** Two runs, one after the other. *)
Definition serial_schedule : list Action :=
  [Begin; Run 0; Run 0; Run 0; Run 0;
   Begin; Run 1; Run 1; Advance 3000000%N; Run 1; Advance 4000000%N; Run 1;
   Run 1; Run 1].

(** Three runs.  The first makes a call.  The second asks for a call one
    second later and the third two seconds later: each finds the stamp of
    the first call and is put to sleep until one minimum interval after it.
    Both wake up then, and each stamps and issues its call without looking
    at the stamp again. *)
Definition overlapping_schedule : list Action :=
  [Begin; Run 0; Run 0; Run 0; Run 0;
   Advance 1000000; Begin; Run 1; Run 1;
   Advance 1000000; Begin; Run 2; Run 2;
   Advance 5000000;
   Run 1; Run 1; Run 1;
   Advance 100;
   Run 2; Run 2; Run 2].

Example serial_is_spaced :
  let c := exec serial_schedule (boot 1000) in
  threads c = [Finished; Finished] /\
  spaced (60 / 9) (issued (shared c)) = true.
Proof. vm_compute. split; reflexivity. Qed.

(** *** Invocations that do not overlap

    A schedule is serial when a run enters [invoke] only while no other
    invocation is in flight. *)

Definition is_finished (pc : Pc) : bool :=
  match pc with Finished => true | _ => false end.

Definition idle (c : Config) : bool := forallb is_finished (threads c).

Fixpoint serial (schedule : list Action) (c : Config) : bool :=
  match schedule with
  | [] => true
  | a :: rest =>
      match a with Begin => idle c | _ => true end && serial rest (act c a)
  end.

(** The newest call carries the stamp the gateway holds. *)
Definition head_stamp_is (L : Q) (calls : list (Q * Q)) : Prop :=
  match calls with
  | (stamp, _) :: _ => (stamp == L)%Q
  | [] => True
  end.

(** [t] lies one interval after the stamp of the newest call. *)
Definition after_head (mi t : Q) (calls : list (Q * Q)) : Prop :=
  match calls with
  | (stamp, _) :: _ => (stamp + mi <= t)%Q
  | [] => True
  end.

(** What the invocation in flight knows when nothing else runs. *)
Definition pc_ok (mi : Q) (s : Shared) (pc : Pc) : Prop :=
  let L := last_call_time (gateway s) in
  match pc with
  | AtEntry | Finished => head_stamp_is L (issued s)
  | AtTest current_time =>
      (current_time <= clock s)%Q /\ head_stamp_is L (issued s)
  | InSleep wake => (L + mi <= wake)%Q /\ head_stamp_is L (issued s)
  | AtStamp => (L + mi <= clock s)%Q /\ head_stamp_is L (issued s)
  | AtCall stamp =>
      (stamp <= clock s)%Q /\ after_head mi stamp (issued s) /\ (stamp == L)%Q
  end.

Definition serial_inv (mi : Q) (c : Config) : Prop :=
  min_interval (gateway (shared c)) = mi /\
  spaced mi (issued (shared c)) = true /\
  ((threads c = [] /\
    head_stamp_is (last_call_time (gateway (shared c))) (issued (shared c))) \/
   exists done pc,
     threads c = done ++ [pc] /\
     Forall (fun x => x = Finished) done /\
     pc_ok mi (shared c) pc).

Lemma pc_ok_advance mi s pc us :
  pc_ok mi s pc ->
  pc_ok mi {| clock := Qred (clock s + seconds_of_us us);
              gateway := gateway s; issued := issued s |} pc.
Proof.
  pose proof (seconds_of_us_nonneg us) as Hus.
  destruct pc; cbn [pc_ok clock gateway issued]; rewrite ?Qred_correct;
    intros H; try exact H.
  - destruct H as [H1 H2]. split; [lra|exact H2].
  - destruct H as [H1 H2]. split; [lra|exact H2].
  - destruct H as (H1 & H2 & H3). repeat split; [lra|exact H2|exact H3].
Qed.

Lemma thread_step_ok mi s pc :
  min_interval (gateway s) = mi ->
  spaced mi (issued s) = true ->
  pc_ok mi s pc ->
  let '(pc', s') := thread_step pc s in
  min_interval (gateway s') = mi /\
  spaced mi (issued s') = true /\
  pc_ok mi s' pc'.
Proof.
  intros Hmi Hsp Hok. destruct pc; cbn [thread_step].
  - split; [exact Hmi|]. split; [exact Hsp|]. cbn [pc_ok] in *.
    split; [lra|exact Hok].
  - destruct Hok as [Hcur Hhead]. rewrite Hmi.
    destruct (Qlt_le_dec _ _) as [Hlt|Hge];
      (split; [exact Hmi|]); (split; [exact Hsp|]); cbn [pc_ok];
      (split; [|exact Hhead]).
    + rewrite Qred_correct. lra.
    + lra.
  - destruct Hok as [Hwake Hhead].
    destruct (Qle_bool wake (clock s)) eqn:E;
      (split; [exact Hmi|]); (split; [exact Hsp|]); cbn [pc_ok];
      (split; [|exact Hhead]); [|exact Hwake].
    apply Qle_bool_iff in E. lra.
  - destruct Hok as [Hclock Hhead].
    cbn [gateway min_interval issued clock pc_ok last_call_time].
    split; [exact Hmi|]. split; [exact Hsp|].
    split; [lra|]. split; [|reflexivity].
    unfold after_head, head_stamp_is in *.
    destruct (issued s) as [|[stamp0 t0] rest]; [exact I|]. lra.
  - destruct Hok as (Hclock & Hafter & HL).
    cbn [gateway issued clock pc_ok head_stamp_is].
    split; [exact Hmi|]. split; [|exact HL].
    unfold after_head in Hafter. cbn [spaced].
    destruct (issued s) as [|[stamp0 t0] rest]; [reflexivity|].
    cbn [fst snd]. rewrite Hsp, andb_true_r. apply Qle_bool_iff. lra.
  - split; [exact Hmi|]. split; [exact Hsp|]. exact Hok.
Qed.

Lemma act_serial_inv mi c a :
  serial_inv mi c ->
  match a with Begin => idle c | _ => true end = true ->
  serial_inv mi (act c a).
Proof.
  intros (Hmi & Hsp & Hth) Hidle. destruct a as [us| |tid]; cbn [act].
  - split; [exact Hmi|]. split; [exact Hsp|].
    destruct Hth as [[Hnil Hhead]|(done & pc & Hthreads & Hdone & Hok)].
    + left. split; [exact Hnil|exact Hhead].
    + right. exists done, pc. split; [exact Hthreads|]. split; [exact Hdone|].
      apply pc_ok_advance, Hok.
  - split; [exact Hmi|]. split; [exact Hsp|]. right.
    destruct Hth as [[Hnil Hhead]|(done & pc & Hthreads & Hdone & Hok)].
    + exists [], AtEntry. rewrite Hnil. split; [reflexivity|].
      split; [constructor|exact Hhead].
    + exists (done ++ [pc]), AtEntry. rewrite Hthreads.
      split; [reflexivity|].
      unfold idle in Hidle. rewrite Hthreads, forallb_app in Hidle.
      apply andb_true_iff in Hidle as [_ Hpc]. cbn in Hpc.
      destruct pc; try discriminate.
      split; [|exact Hok].
      apply Forall_app. split; [exact Hdone|]. constructor; [reflexivity|constructor].
  - destruct Hth as [[Hnil Hhead]|(done & pc & Hthreads & Hdone & Hok)].
    + rewrite Hnil. cbn. split; [exact Hmi|]. split; [exact Hsp|].
      left. split; assumption.
    + rewrite Hthreads.
      destruct (lt_eq_lt_dec tid (length done)) as [[Hlt|Heq]|Hgt].
      * rewrite lookup_app_l by exact Hlt.
        destruct (lookup_lt_is_Some_2 done tid Hlt) as [x Hx]. rewrite Hx.
        assert (x = Finished) as ->.
        { eapply Forall_lookup_1 in Hdone; [exact Hdone|exact Hx]. }
        cbn [thread_step]. split; [exact Hmi|]. split; [exact Hsp|].
        right. exists done, pc. cbn [threads shared]. split.
        -- rewrite list_insert_id; [reflexivity|].
           rewrite lookup_app_l by exact Hlt. exact Hx.
        -- split; [exact Hdone|exact Hok].
      * subst tid. rewrite list_lookup_middle by reflexivity.
        pose proof (thread_step_ok mi (shared c) pc Hmi Hsp Hok) as Hstep.
        destruct (thread_step pc (shared c)) as [pc' s'].
        destruct Hstep as (Hmi' & Hsp' & Hok').
        cbn [shared threads]. split; [exact Hmi'|]. split; [exact Hsp'|].
        right. exists done, pc'. split; [|split; [exact Hdone|exact Hok']].
        rewrite insert_app_r_alt by lia.
        replace (length done - length done) with 0 by lia. reflexivity.
      * rewrite lookup_ge_None_2; [|rewrite length_app; cbn; lia].
        split; [exact Hmi|]. split; [exact Hsp|].
        right. exists done, pc. split; [exact Hthreads|].
        split; [exact Hdone|exact Hok].
Qed.

Lemma exec_serial_inv mi schedule c :
  serial_inv mi c -> serial schedule c = true -> serial_inv mi (exec schedule c).
Proof.
  revert c. induction schedule as [|a rest IH]; intros c Hinv Hser;
    [exact Hinv|].
  cbn [serial] in Hser. apply andb_true_iff in Hser as [Ha Hrest].
  cbn [exec fold_left]. apply IH; [|exact Hrest].
  apply act_serial_inv; assumption.
Qed.

(** Serial invocations keep the minimum interval: every call is issued at
    least [min_interval] after the stamp recorded for the call before
    it. *)
Lemma serial_invocations_are_spaced schedule t0 :
  serial schedule (boot t0) = true ->
  spaced (min_interval RateLimitedLLM_init)
         (issued (shared (exec schedule (boot t0)))) = true.
Proof.
  intros Hser.
  apply (exec_serial_inv (min_interval RateLimitedLLM_init)) in Hser.
  - destruct Hser as (_ & Hsp & _). exact Hsp.
  - split; [reflexivity|]. split; [reflexivity|]. left. split; [reflexivity|exact I].
Qed.

Example serial_schedule_is_serial : serial serial_schedule (boot 1000) = true.
Proof. vm_compute. reflexivity. Qed.

Example overlapping_schedule_is_not_serial :
  serial overlapping_schedule (boot 1700000000) = false.
Proof. vm_compute. reflexivity. Qed.

End Threads.

(** ** [try] / [except]

    A handler clause is [except <expression>:]; the expression is evaluated
    in the globals of the module when an exception looks for its handler.
    If that evaluation itself raises, the new exception leaves the whole
    [try] statement and the clauses after it are not consulted. *)
Module PyTry.

Inductive ClassExpr :=
| Bare                                   (* [except:] *)
| Name (id : string)                     (* [except Exception] *)
| Attr (module_name attr : string).      (* [except asyncio.TimeoutError] *)

Definition builtins : list string := ["Exception"; "TimeoutError"; "OSError"].

Definition defined (globals : list string) (id : string) : bool :=
  existsb (String.eqb id) globals || existsb (String.eqb id) builtins.

Definition NameError (id : string) : PyExn :=
  mkExn "NameError" ("name '" +:+ id +:+ "' is not defined").

(** The class an [except] expression denotes. *)
Definition eval_class (globals : list string) (c : ClassExpr)
  : PyResult (option string) :=
  match c with
  | Bare => Return None
  | Name id =>
      if defined globals id then Return (Some id) else Raise (NameError id)
  | Attr m a =>
      if defined globals m then Return (Some a) else Raise (NameError m)
  end.

(** [isinstance(e, cls)] for the classes that occur: every exception of
    the model derives from [Exception]. *)
Definition matches (cls : option string) (e : PyExn) : bool :=
  match cls with
  | None => true
  | Some c => String.eqb c "Exception" || String.eqb c (exn_class e)
  end.

Fixpoint handle {A} (globals : list string)
    (handlers : list (ClassExpr * (PyExn -> PyResult A))) (e : PyExn)
  : PyResult A :=
  match handlers with
  | [] => Raise e
  | (c, h) :: rest =>
      match eval_class globals c with
      | Raise e' => Raise e'
      | Return cls => if matches cls e then h e else handle globals rest e
      end
  end.

Definition try_except {A} (globals : list string) (body : PyResult A)
    (handlers : list (ClassExpr * (PyExn -> PyResult A))) : PyResult A :=
  match body with
  | Return a => Return a
  | Raise e => handle globals handlers e
  end.

Definition bind {A B} (r : PyResult A) (k : A -> PyResult B) : PyResult B :=
  match r with
  | Return a => k a
  | Raise e => Raise e
  end.

End PyTry.

(** ** [tools/send_request.py] *)
Module SendRequest.
Import PyTry.

Set Warnings "-register-all".

(** Python values a payload or a response body is made of.  [VObject]
    stands for any value [json.dumps] has no encoding for ([bytes], a
    [set], an instance of a class). *)
Inductive PyVal :=
| VNone
| VBool (b : bool)
| VInt (z : Z)
| VStr (s : string)
| VList (items : list PyVal)
| VDict (items : list (string * PyVal))
| VObject (type_name : string).

(** A [dict] with string keys, in insertion order. *)
Definition PyDict : Type := list (string * PyVal).

(** The first value [json.dumps] cannot encode, if any. *)
Fixpoint unencodable (v : PyVal) : option string :=
  match v with
  | VNone | VBool _ | VInt _ | VStr _ => None
  | VList items =>
      (fix go (l : list PyVal) : option string :=
         match l with
         | [] => None
         | x :: l' =>
             match unencodable x with Some t => Some t | None => go l' end
         end) items
  | VDict items =>
      (fix go (l : list (string * PyVal)) : option string :=
         match l with
         | [] => None
         | (_, x) :: l' =>
             match unencodable x with Some t => Some t | None => go l' end
         end) items
  | VObject t => Some t
  end.

(** The text [json.dumps(v, indent=indent)] returns, kept as the value it
    encodes. *)
Inductive JsonText :=
| Dumps (indent : option nat) (v : PyVal).

Definition TypeError_not_serializable (t : string) : PyExn :=
  mkExn "TypeError" ("Object of type " +:+ t +:+ " is not JSON serializable").

(** [json_module.dumps]. *)
Definition json_dumps (indent : option nat) (v : PyVal) : PyResult JsonText :=
  match unencodable v with
  | Some t => Raise (TypeError_not_serializable t)
  | None => Return (Dumps indent v)
  end.

(** What the remote end does with one request. *)
Record Response := mkResponse {
  status : Z;
  json : PyResult PyVal;      (* [await response.json()] *)
  text : PyResult string      (* [await response.text()] *)
}.

(** The names bound at module level in [send_request.py]:
    [import aiohttp], [import json as json_module],
    [from langchain_core.tools import tool], and the function itself. *)
Definition module_globals : list string :=
  ["aiohttp"; "json_module"; "tool"; "post_request"].

Definition error_result (error_msg : string) : PyVal :=
  VDict [("error", VStr error_msg); ("status_code", VInt (-1))].

Section Request.

(** [session.post(url, json=payload, headers=..., timeout=30 s)]: a
    response, or [TimeoutError] after 30 seconds, or a client error. *)
Variable session_post : string -> PyDict -> PyResult Response.

(** The body of the outer [try]. *)
Definition request_body (url : string) (payload : PyDict)
  : PyResult JsonText :=
  bind
    (try_except module_globals
       (bind (json_dumps None (VDict payload)) (fun payload_json => Return (inr payload_json)))
       [(Name "Exception",
         fun e =>
           let error_msg := "Failed to serialize payload: " +:+ exn_msg e in
           bind (json_dumps None (error_result error_msg))
                (fun early => Return (inl early)))])
    (fun r : JsonText + JsonText =>
       match r with
       | inl early => Return early
       | inr payload_json =>
           bind (session_post url payload) (fun response =>
           let status_code := status response in
           bind
             (try_except module_globals (json response)
                [(Bare,
                  fun _ =>
                    bind (text response) (fun response_text =>
                    Return (VDict [("text", VStr response_text)])))])
             (fun response_data =>
           let result :=
             VDict [("status_code", VInt status_code);
                    ("response", response_data)] in
           json_dumps (Some 2) result))
       end).

(** [post_request(url, payload)]. *)
Definition post_request (url : string) (payload : PyDict)
  : PyResult JsonText :=
  try_except module_globals (request_body url payload)
    [(Attr "asyncio" "TimeoutError",
      fun _ =>
        let error_msg := "Request timed out after 30 seconds" in
        json_dumps None (error_result error_msg));
     (Name "Exception",
      fun e =>
        let error_msg := "❌ Error sending POST request: " +:+ exn_msg e in
        json_dumps None (error_result error_msg))].

(** A result that carries an error description and the error status. *)
Definition is_structured_error (r : PyResult JsonText) : bool :=
  match r with
  | Return (Dumps _ (VDict [("error", VStr _); ("status_code", VInt (-1))])) =>
      true
  | _ => false
  end.

(** A payload [json.dumps] rejects is answered by a structured error. *)
Lemma post_request_unserializable url payload t :
  unencodable (VDict payload) = Some t ->
  post_request url payload =
    Return (Dumps None (error_result
      ("Failed to serialize payload: " +:+
       exn_msg (TypeError_not_serializable t)))).
Proof.
  intros H. unfold post_request, request_body, json_dumps. rewrite H.
  reflexivity.
Qed.

(** Whatever the body of the outer [try] raises leaves
    [post_request] as a [NameError]: the first handler names
    [asyncio], which the module never imports. *)
Lemma post_request_raise url payload e :
  request_body url payload = Raise e ->
  post_request url payload = Raise (NameError "asyncio").
Proof.
  intros H. unfold post_request. rewrite H. reflexivity.
Qed.

Lemma request_body_post_raises url payload e :
  unencodable (VDict payload) = None ->
  session_post url payload = Raise e ->
  request_body url payload = Raise e.
Proof.
  intros Hp H. unfold request_body, json_dumps. rewrite Hp.
  cbn. rewrite H. reflexivity.
Qed.

End Request.

Definition TimeoutError : PyExn := mkExn "TimeoutError" EmptyString.

(** An endpoint that never answers. *)
Definition silent_endpoint (url : string) (payload : PyDict)
  : PyResult Response :=
  Raise TimeoutError.

(** An endpoint that accepts the answer. *)
Definition accepting_endpoint (url : string) (payload : PyDict)
  : PyResult Response :=
  Return {| status := 200;
            json := Return (VDict [("correct", VBool true)]);
            text := Return "{}" |}.

Definition sample_payload : PyDict :=
  [("email", VStr "student@example.com"); ("secret", VStr "s3cret");
   ("url", VStr "https://example.com/quiz-1"); ("answer", VInt 42)].

Example post_request_accepted :
  post_request accepting_endpoint "https://example.com/submit" sample_payload =
  Return (Dumps (Some 2)
    (VDict [("status_code", VInt 200);
            ("response", VDict [("correct", VBool true)])])).
Proof. reflexivity. Qed.

End SendRequest.

(** ** [tools/download_file.py] *)
Module DownloadFile.
Import PyTry.

(** The part of the file system the tool touches: the directories that
    exist and the regular files with their contents, by path. *)
Record FileSystem := mkFS {
  dirs : gset string;
  files : gmap string (list Byte.byte)
}.

Definition FileExistsError (path : string) : PyExn :=
  mkExn "FileExistsError" ("[Errno 17] File exists: '" +:+ path +:+ "'").

Definition IsADirectoryError (path : string) : PyExn :=
  mkExn "IsADirectoryError" ("[Errno 21] Is a directory: '" +:+ path +:+ "'").

(** [os.makedirs(path, exist_ok=True)] for a single component. *)
Definition makedirs (path : string) (fs : FileSystem) : PyResult FileSystem :=
  match files fs !! path with
  | Some _ => Raise (FileExistsError path)
  | None => Return {| dirs := {[path]} ∪ dirs fs; files := files fs |}
  end.

(** A path whose last component is empty, [.] or [..] names a directory,
    and so does a path that is an existing directory. *)
Definition directory_name (b : string) : bool :=
  String.eqb b EmptyString || String.eqb b "." || String.eqb b "..".

Definition names_directory (path : string) (fs : FileSystem) : bool :=
  directory_name (PyStr.basename path) || bool_decide (path ∈ dirs fs).

(** What one download meets outside the process. *)
Record HttpResponse := mkHttp {
  status : nat;
  content_length : option (PyResult Z);   (* [int(header)], header present *)
  chunks : list (list Byte.byte);         (* [iter_chunked(8192)] *)
  stream_error : option PyExn             (* the body breaks off *)
}.

(** The names bound at module level in [download_file.py]. *)
Definition module_globals : list string :=
  ["os"; "aiohttp"; "tool"; "urlparse"; "download_file"].

Definition write_chunk (path : string) (chunk : list Byte.byte)
    (fs : FileSystem) : FileSystem :=
  {| dirs := dirs fs;
     files := <[path := default [] (files fs !! path) ++ chunk]> (files fs) |}.

Definition write_chunks (path : string) (cs : list (list Byte.byte))
    (fs : FileSystem) : FileSystem :=
  fold_left (fun fs chunk => write_chunk path chunk fs) cs fs.

Section Download.

(** [urlparse(url).path]; [urlparse] raises [ValueError] on a malformed
    URL. *)
Variable urlparse_path : string -> PyResult string.
(** [session.get(url, timeout=60 s)]. *)
Variable session_get : string -> PyResult HttpResponse.
(** Any other reason for which [open(path, 'wb')] fails. *)
Variable open_fault : string -> option PyExn.

(** [open(path, 'wb')]: the file is created or truncated. *)
Definition open_wb (path : string) (fs : FileSystem) : PyResult FileSystem :=
  if names_directory path fs then Raise (IsADirectoryError path)
  else match open_fault path with
       | Some e => Raise e
       | None =>
           Return {| dirs := dirs fs; files := <[path := []]> (files fs) |}
       end.

(** The file name after "Determine filename". *)
Definition chosen_name (url : string) (filename : option string)
  : PyResult string :=
  match filename with
  | None =>
      bind (urlparse_path url) (fun path =>
      let filename := PyStr.basename path in
      Return (if String.eqb filename EmptyString then "downloaded_file"
              else filename))
  | Some filename => Return filename
  end.

(** [filepath], from the file name so determined. *)
Definition filepath_of (filename : string) : string :=
  let filename := PyStr.basename filename in
  PyStr.path_join "LLMFiles" filename.

(** [except Exception as e:] of the function. *)
Definition on_exception (e : PyExn) : PyResult string :=
  handle module_globals
    [(Name "Exception",
      fun e =>
        let error_msg := "❌ Error downloading file: " +:+ exn_msg e in
        Return ("Error: " +:+ error_msg))] e.

(** [download_file(url, filename)]. *)
Definition download_file (url : string) (filename : option string)
    (fs : FileSystem) : PyResult string * FileSystem :=
  match makedirs "LLMFiles" fs with
  | Raise e => (on_exception e, fs)
  | Return fs =>
      match chosen_name url filename with
      | Raise e => (on_exception e, fs)
      | Return filename =>
          let filepath := filepath_of filename in
          match session_get url with
          | Raise e => (on_exception e, fs)
          | Return response =>
              if negb (status response =? 200) then
                let error_msg :=
                  "Failed to download: HTTP " +:+
                  PyStr.str_of_nat (status response) in
                (Return ("Error: " +:+ error_msg), fs)
              else
                match content_length response with
                | Some (Raise e) => (on_exception e, fs)
                | _ =>
                    match open_wb filepath fs with
                    | Raise e => (on_exception e, fs)
                    | Return fs =>
                        let fs := write_chunks filepath (chunks response) fs in
                        match stream_error response with
                        | Some e => (on_exception e, fs)
                        | None => (Return filepath, fs)
                        end
                    end
                end
          end
      end
  end.

(** *** Facts *)

Lemma filepath_of_shape filename :
  filepath_of filename = "LLMFiles/" +:+ PyStr.basename filename.
Proof. apply PyStr.path_join_LLMFiles, PyStr.basename_no_sep. Qed.

Lemma write_chunks_other path cs fs other :
  other <> path ->
  files (write_chunks path cs fs) !! other = files fs !! other.
Proof.
  intros Hne. revert fs. induction cs as [|c cs IH]; intros fs;
    [reflexivity|].
  cbn [write_chunks fold_left]. fold (write_chunks path cs (write_chunk path c fs)).
  rewrite IH. cbn [write_chunk files].
  apply lookup_insert_ne. congruence.
Qed.

Lemma write_chunks_at path cs fs :
  files (write_chunks path cs fs) !! path =
    match cs with
    | [] => files fs !! path
    | _ => Some (default [] (files fs !! path) ++ concat cs)
    end.
Proof.
  revert fs. induction cs as [|c cs IH]; intros fs; [reflexivity|].
  cbn [write_chunks fold_left]. fold (write_chunks path cs (write_chunk path c fs)).
  rewrite IH. cbn [write_chunk files]. rewrite lookup_insert_eq.
  destruct cs as [|c' cs]; simpl.
  - rewrite app_nil_r. reflexivity.
  - rewrite <- !app_assoc. reflexivity.
Qed.

Lemma write_chunks_dirs path cs fs :
  dirs (write_chunks path cs fs) = dirs fs.
Proof.
  revert fs. induction cs as [|c cs IH]; intros fs; [reflexivity|].
  cbn [write_chunks fold_left]. fold (write_chunks path cs (write_chunk path c fs)).
  rewrite IH. reflexivity.
Qed.

Lemma on_exception_returns e :
  on_exception e =
    Return ("Error: " +:+ "❌ Error downloading file: " +:+ exn_msg e).
Proof. reflexivity. Qed.

(** The tool always returns a string. *)
Lemma download_file_returns url filename fs :
  is_return (download_file url filename fs).1 = true.
Proof.
  unfold download_file.
  destruct (makedirs "LLMFiles" fs) as [fs1|e]; [|reflexivity].
  destruct (chosen_name url filename) as [chosen|e]; [|reflexivity].
  destruct (session_get url) as [response|e]; [|reflexivity].
  destruct (negb (status response =? 200)); [reflexivity|].
  destruct (content_length response) as [[z|e]|]; try reflexivity;
    (destruct (open_wb (filepath_of chosen) fs1) as [fs2|e];
     [|reflexivity]);
    destruct (stream_error response); reflexivity.
Qed.

End Download.

End DownloadFile.

(** * Properties of the orchestrator *)

Section Orchestrator.

Variable delay_us : nat -> N.
Variable reasoner : nat -> list Message -> PyResult (Content * list ToolCall).
Variable SYSTEM_PROMPT : string.
Variable tool_output : nat -> ToolCall -> PyResult string.
Variable completion_order : nat -> list ToolCall -> list nat.
Variable tool_error_text : PyExn -> option string.
Variable troubleshooting : string.

Local Abbreviation call_model_ := (call_model delay_us reasoner SYSTEM_PROMPT).
Local Abbreviation graph_step_ :=
  (graph_step delay_us reasoner SYSTEM_PROMPT tool_output completion_order
              tool_error_text).
Local Abbreviation graph_loop_ :=
  (graph_loop delay_us reasoner SYSTEM_PROMPT tool_output completion_order
              tool_error_text troubleshooting).
Local Abbreviation round_trips_ :=
  (round_trips delay_us reasoner SYSTEM_PROMPT tool_output completion_order
               tool_error_text).
Local Abbreviation run_graph_ :=
  (run_graph delay_us reasoner SYSTEM_PROMPT tool_output completion_order
             tool_error_text troubleshooting).
Local Abbreviation run_agent_ :=
  (run_agent delay_us reasoner SYSTEM_PROMPT tool_output completion_order
             tool_error_text troubleshooting).
Local Abbreviation GraphRecursionError_ := (GraphRecursionError troubleshooting).

(** The state and the process with which the first Reasoning step of a
    run starts. *)
Definition first_state (email secret initial_url : string) (p : Process)
  : AgentState :=
  initial_state email secret initial_url (fst (time_time delay_us (world p))).

Definition first_process (p : Process) : Process :=
  {| llm := llm p; world := snd (time_time delay_us (world p)) |}.

Lemma run_graph_unfold email secret initial_url p :
  run_graph_ email secret initial_url p =
  graph_loop_ recursion_limit agent (first_state email secret initial_url p)
             (first_process p).
Proof. reflexivity. Qed.

Lemma graph_loop_S limit node state p :
  graph_loop_ (S limit) node state p =
    match graph_step_ node state p with
    | Goto next state' p' =>
        let r := graph_loop_ limit next state' p' in
        {| outcome := outcome r; visited := node :: visited r;
           process_after := process_after r |}
    | Halt state' p' =>
        {| outcome := Return state'; visited := [node]; process_after := p' |}
    | Abort e p' =>
        {| outcome := Raise e; visited := [node]; process_after := p' |}
    end.
Proof. reflexivity. Qed.

Lemma recursion_limit_S : recursion_limit = S 199.
Proof. reflexivity. Qed.

Lemma recursion_limit_round_trips : recursion_limit = 2 * 100 + 0.
Proof. reflexivity. Qed.

Fixpoint round_trip_nodes (n : nat) : list Node :=
  match n with
  | O => []
  | S n' => agent :: tools :: round_trip_nodes n'
  end.

Lemma round_trip_nodes_length n : length (round_trip_nodes n) = 2 * n.
Proof. induction n as [|n IH]; simpl; lia. Qed.

(** [n] round trips are the first [2 * n] super-steps of an execution. *)
Lemma graph_loop_round_trips n limit state p state' p' :
  round_trips_ n state p = Some (state', p') ->
  let r := graph_loop_ (2 * n + limit) agent state p in
  let r' := graph_loop_ limit agent state' p' in
  outcome r = outcome r' /\
  visited r = round_trip_nodes n ++ visited r' /\
  process_after r = process_after r'.
Proof.
  revert state p. induction n as [|n IH]; intros state p; cbn [round_trips].
  - intros H. injection H as <- <-. cbv zeta. repeat split.
  - destruct (round_trip _ _ _ _ _ _ state p) as [[state1 p1]|] eqn:E;
      [|discriminate].
    intros H. specialize (IH _ _ H). cbv zeta in *.
    replace (2 * S n + limit) with (S (S (2 * n + limit))) by lia.
    rewrite (graph_loop_round_trip _ _ _ _ _ _ _ _ _ _ _ _ E).
    cbv zeta. cbn [outcome visited process_after round_trip_nodes app].
    destruct IH as (-> & -> & ->). repeat split.
Qed.

(** What an execution does after a super-step: it runs a node, ends, or
    raises. *)
Definition decision (s : Step) : PyResult Target :=
  match s with
  | Goto n _ _ => Return (ToNode n)
  | Halt _ _ => Return END
  | Abort e _ => Raise e
  end.

(** C3.  The task counter is never written.  No step of the workflow
    changes it, so it keeps the value 1 set when the run starts, also when
    a new reference has been obtained, and the report of a run that
    succeeds gives 1 for the tasks attempted, however many were chained;
    the counter takes no part in the decision to go on. *)
Theorem C3_task_counter_is_never_written :
  (forall node state p,
      match graph_step_ node state p with
      | Goto _ state' _ | Halt state' _ => quiz_count state' = quiz_count state
      | Abort _ _ => True
      end) /\
  (forall email secret initial_url p final,
      outcome (run_graph_ email secret initial_url p) = Return final ->
      quiz_count final = 1%Z /\
      exists elapsed,
        (run_agent_ email secret initial_url p).1 = Succeeded elapsed 1) /\
  (forall a b, messages a = messages b -> should_continue a = should_continue b).
Proof.
  split; [|split].
  - intros node state p.
    pose proof (graph_step_control delay_us reasoner SYSTEM_PROMPT tool_output
                  completion_order tool_error_text node state p) as H.
    destruct (graph_step_ node state p); try exact I;
      destruct H as (_ & _ & _ & _ & <- & _); reflexivity.
  - intros email secret initial_url p final H.
    assert (Hq : quiz_count final = 1%Z).
    { rewrite run_graph_unfold in H.
      apply graph_loop_control in H as (_ & _ & _ & _ & <- & _). reflexivity. }
    split; [exact Hq|].
    unfold run_agent. rewrite H.
    destruct (time_time delay_us _) as [t1 w]. cbn [fst].
    rewrite Hq. eexists. reflexivity.
  - intros a b H. unfold should_continue. rewrite H. reflexivity.
Qed.

(** C6.  An execution runs at most [recursion_limit] = 200 super-steps,
    hence at most 100 Reasoning steps and at most 100 Reasoning-Acting
    round trips; and a run whose reasoner goes on requesting tools through
    100 round trips is stopped there: the graph raises
    [GraphRecursionError] and [run_agent_] reports the failure. *)
Theorem C6_iteration_ceiling_ends_the_run :
  (forall email secret initial_url p,
      let r := run_graph_ email secret initial_url p in
      length (visited r) <= recursion_limit /\
      reasoning_steps r + acting_steps r = length (visited r) /\
      acting_steps r <= reasoning_steps r <= acting_steps r + 1 /\
      acting_steps r <= 100 /\
      acting_steps r <= recursion_limit) /\
  (forall email secret initial_url p state' p',
      round_trips_ 100 (first_state email secret initial_url p) (first_process p)
        = Some (state', p') ->
      let r := run_graph_ email secret initial_url p in
      outcome r = Raise GraphRecursionError_ /\
      visited r = round_trip_nodes 100 /\
      exists elapsed,
        (run_agent_ email secret initial_url p).1 =
          Failed (exn_msg GraphRecursionError_) elapsed).
Proof.
  split.
  - intros email secret initial_url p r. subst r.
    rewrite run_graph_unfold.
    pose proof (graph_loop_visited_length delay_us reasoner SYSTEM_PROMPT
                  tool_output completion_order tool_error_text troubleshooting
                  recursion_limit agent
                  (first_state email secret initial_url p) (first_process p)) as Hlen.
    pose proof (graph_loop_alternates delay_us reasoner SYSTEM_PROMPT
                  tool_output completion_order tool_error_text troubleshooting
                  recursion_limit agent
                  (first_state email secret initial_url p) (first_process p)) as Halt.
    apply alternates_count in Halt as [Hsum Hhalf].
    unfold reasoning_steps, acting_steps, recursion_limit in *. lia.
  - intros email secret initial_url p state' p' H r. subst r.
    pose proof (graph_loop_round_trips 100 0 _ _ _ _ H) as Hrt.
    cbv zeta in Hrt. rewrite <- recursion_limit_round_trips in Hrt.
    rewrite <- run_graph_unfold in Hrt.
    destruct Hrt as (Ho & Hv & Hp).
    assert (Hr : outcome (run_graph_ email secret initial_url p)
                 = Raise GraphRecursionError_) by exact Ho.
    split; [exact Hr|]. split.
    + rewrite Hv. apply app_nil_r.
    + unfold run_agent. rewrite Hr.
      destruct (time_time delay_us _) as [t1 w]. cbn [fst].
      eexists. reflexivity.
Qed.

(** C7.  Over any number of Reasoning-Acting round trips the tool results
    appended to the conversation answer the invocations requested in
    those round trips one for one and in the order of the requests,
    whatever the order in which the invocations complete: after each
    reasoner message come as many tool results as it has invocations, the
    i-th with the name and the call id of the i-th invocation and with the
    content that the tool gave for that very invocation. *)
Theorem C7_tool_results_answer_requests_in_order :
  forall n state p state' p',
    round_trips_ n state p = Some (state', p') ->
    exists appended,
      messages state' = messages state ++ appended /\
      trips tool_output tool_error_text n appended /\
      answered appended = requested appended /\
      length (answered appended) = length (requested appended).
Proof.
  intros n state p state' p' H.
  destruct (round_trips_messages _ _ _ _ _ _ _ _ _ _ _ H)
    as (appended & Hm & Ht).
  pose proof (trips_answered _ _ _ _ Ht) as Ha.
  exists appended. repeat split; [exact Hm|exact Ht|exact Ha|].
  rewrite Ha. reflexivity.
Qed.

Lemma context_msg_elapsed state e r :
  PyStr.str_in ("- Time elapsed: " +:+ PyStr.format_1f e +:+ "s")
               (context_msg state e r) = true.
Proof.
  transitivity
    (PyStr.str_in
       ("- Time elapsed: " +:+ PyStr.format_1f e +:+ "s")
       ((nl +:+ "Current context:" +:+ nl +:+
         "- Email: " +:+ email state +:+ nl +:+
         "- Secret: " +:+ secret state +:+ nl +:+
         "- Current URL: " +:+ current_url state +:+ nl +:+
         "- Quiz number: " +:+ PyStr.str_of_Z (quiz_count state) +:+ nl) +:+
        ("- Time elapsed: " +:+ PyStr.format_1f e +:+ "s") +:+
        (nl +:+ "- Time remaining: " +:+ PyStr.format_1f r +:+ "s" +:+ nl +:+
         nl +:+ "Start by scraping the current URL to see the quiz question."))).
  - f_equal. unfold context_msg. rewrite !PyStr.append_assoc. reflexivity.
  - apply PyStr.str_in_app.
Qed.

Lemma context_msg_remaining state e r :
  PyStr.str_in ("- Time remaining: " +:+ PyStr.format_1f r +:+ "s")
               (context_msg state e r) = true.
Proof.
  transitivity
    (PyStr.str_in
       ("- Time remaining: " +:+ PyStr.format_1f r +:+ "s")
       ((nl +:+ "Current context:" +:+ nl +:+
         "- Email: " +:+ email state +:+ nl +:+
         "- Secret: " +:+ secret state +:+ nl +:+
         "- Current URL: " +:+ current_url state +:+ nl +:+
         "- Quiz number: " +:+ PyStr.str_of_Z (quiz_count state) +:+ nl +:+
         "- Time elapsed: " +:+ PyStr.format_1f e +:+ "s" +:+ nl) +:+
        ("- Time remaining: " +:+ PyStr.format_1f r +:+ "s") +:+
        (nl +:+
         nl +:+ "Start by scraping the current URL to see the quiz question."))).
  - f_equal. unfold context_msg. rewrite !PyStr.append_assoc. reflexivity.
  - apply PyStr.str_in_app.
Qed.

(** What a Reasoning step does, from the answer of the reasoning
    service to the prompt it sends. *)
Lemma agent_step_by_answer state p :
  graph_step_ agent state p =
    match reasoner (served (issue_world delay_us p))
                   (prompt_sent delay_us SYSTEM_PROMPT state p) with
    | Return (content, calls) =>
        route_after state content calls (call_model_ state p).2
    | Raise e => Abort e (call_model_ state p).2
    end.
Proof.
  pose proof (call_model_sends delay_us reasoner SYSTEM_PROMPT state p) as Hs.
  destruct (call_model_ state p) as [u p'] eqn:E. cbn [fst snd] in *.
  destruct (reasoner _ _) as [[content calls]|e];
    cbn [response_update] in Hs; subst u.
  - apply agent_step_spec, E.
  - unfold graph_step. rewrite E. reflexivity.
Qed.

(** C8.  A passed deadline ends nothing.  Every Reasoning step, whatever
    the start time and the maximum duration of the run and however long
    ago the deadline passed, asks the reasoning service once, with the
    prompt whose last message is the context message, and what the run
    does next follows from the answer of the service alone.  The time
    elapsed and the time remaining reach the service as text of that
    context message and are used nowhere else: two run states with the
    same messages get the same decision from [should_continue], and when
    the service answers both alike, the same decision after the Reasoning
    step. *)
Theorem C8_deadline_is_advisory :
  (forall a b, messages a = messages b -> should_continue a = should_continue b) /\
  (forall state p,
      let answer := reasoner (served (issue_world delay_us p))
                             (prompt_sent delay_us SYSTEM_PROMPT state p) in
      (call_model_ state p).1 = response_update answer /\
      decision (graph_step_ agent state p) =
        match answer with
        | Return (_, _ :: _) => Return (ToNode tools)
        | Return (Text _, []) => Return END
        | Return (Blocks _, []) => Raise AttributeError_lower
        | Raise e => Raise e
        end) /\
  (forall a b p q,
      messages a = messages b ->
      reasoner (served (issue_world delay_us p))
               (prompt_sent delay_us SYSTEM_PROMPT a p)
        = reasoner (served (issue_world delay_us q))
                   (prompt_sent delay_us SYSTEM_PROMPT b q) ->
      decision (graph_step_ agent a p) = decision (graph_step_ agent b q)) /\
  (forall state p,
      let elapsed_time := (reading delay_us p - start_time state)%Q in
      let time_remaining := (max_time state - elapsed_time)%Q in
      last (prompt_sent delay_us SYSTEM_PROMPT state p) =
        Some (HumanMessage (context_msg state elapsed_time time_remaining)) /\
      PyStr.str_in ("- Time elapsed: " +:+ PyStr.format_1f elapsed_time +:+ "s")
                   (context_msg state elapsed_time time_remaining) = true /\
      PyStr.str_in ("- Time remaining: " +:+ PyStr.format_1f time_remaining +:+ "s")
                   (context_msg state elapsed_time time_remaining) = true).
Proof.
  assert (Hdec : forall state p,
            decision (graph_step_ agent state p) =
              match reasoner (served (issue_world delay_us p))
                             (prompt_sent delay_us SYSTEM_PROMPT state p) with
              | Return (_, _ :: _) => Return (ToNode tools)
              | Return (Text _, []) => Return END
              | Return (Blocks _, []) => Raise AttributeError_lower
              | Raise e => Raise e
              end).
  { intros state p. rewrite agent_step_by_answer.
    destruct (reasoner _ _) as [[[text|blocks] [|call calls]]|e]; reflexivity. }
  split; [|split; [|split]].
  - intros a b H. unfold should_continue. rewrite H. reflexivity.
  - intros state p answer. subst answer.
    split; [apply call_model_sends|apply Hdec].
  - intros a b p q _ H. rewrite !Hdec, H. reflexivity.
  - intros state p elapsed_time time_remaining.
    split; [apply last_snoc|].
    split; [apply context_msg_elapsed|apply context_msg_remaining].
Qed.

End Orchestrator.

(** A reasoning service whose reply is a list of content blocks and
    requests no tool. *)
Definition replying_blocks (blocks : list string) (k : nat) (ms : list Message)
  : PyResult (Content * list ToolCall) :=
  Return (Blocks blocks, []).

Section ListContent.

Variable delay_us : nat -> N.
Variable SYSTEM_PROMPT : string.
Variable tool_output : nat -> ToolCall -> PyResult string.
Variable completion_order : nat -> list ToolCall -> list nat.
Variable tool_error_text : PyExn -> option string.
Variable troubleshooting : string.

(** C1.  A reasoner message with tool invocations sends the loop on to
    the tools, and one without ends the loop when its content is a text,
    whatever the text says; but when its content is a list of content
    blocks, [should_continue] calls [lower] on the list and raises
    [AttributeError].  A run whose first reply is such a message does not
    end after its one Reasoning step by the transition to the end: the
    graph raises, and [run_agent] reports a failed run. *)
Theorem C1_list_content_fails_the_run :
  (forall state content call calls,
      should_continue
        (append_message state (AIMessage content (call :: calls)))
        = Return "tools") /\
  (forall state text,
      should_continue (append_message state (AIMessage (Text text) []))
        = Return "end") /\
  (forall state blocks,
      should_continue (append_message state (AIMessage (Blocks blocks) []))
        = Raise AttributeError_lower) /\
  (forall blocks email secret initial_url p,
      let r := run_graph delay_us (replying_blocks blocks) SYSTEM_PROMPT
                         tool_output completion_order tool_error_text
                         troubleshooting email secret initial_url p in
      outcome r = Raise AttributeError_lower /\
      visited r = [agent] /\
      exists elapsed,
        (run_agent delay_us (replying_blocks blocks) SYSTEM_PROMPT
                   tool_output completion_order tool_error_text
                   troubleshooting email secret initial_url p).1
          = Failed "'list' object has no attribute 'lower'" elapsed).
Proof.
  split; [|split; [|split]].
  - intros state content call calls.
    rewrite (should_continue_last _ (AIMessage content (call :: calls)));
      [reflexivity|].
    rewrite messages_append. apply last_snoc.
  - intros state text.
    rewrite (should_continue_last _ (AIMessage (Text text) []));
      [reflexivity|].
    rewrite messages_append. apply last_snoc.
  - intros state blocks.
    rewrite (should_continue_last _ (AIMessage (Blocks blocks) []));
      [reflexivity|].
    rewrite messages_append. apply last_snoc.
  - intros blocks email secret initial_url p r.
    pose proof (agent_step_by_answer delay_us (replying_blocks blocks)
                  SYSTEM_PROMPT tool_output completion_order tool_error_text
                  (first_state delay_us email secret initial_url p)
                  (first_process delay_us p)) as Hstep.
    cbn [replying_blocks route_after] in Hstep.
    assert (Ho : outcome r = Raise AttributeError_lower).
    { subst r. rewrite run_graph_unfold, recursion_limit_S, graph_loop_S, Hstep.
      reflexivity. }
    assert (Hv : visited r = [agent]).
    { subst r. rewrite run_graph_unfold, recursion_limit_S, graph_loop_S, Hstep.
      reflexivity. }
    split; [exact Ho|]. split; [exact Hv|].
    unfold run_agent. fold r. rewrite Ho.
    destruct (time_time delay_us (world (process_after r))) as [t1 w1].
    eexists. reflexivity.
Qed.

End ListContent.


(** ** Concrete runs *)
Module Scenarios.

(** A quarter of a second passes before every interaction. *)
Definition steady (k : nat) : N := 250000%N.

Definition PROMPT : string :=
  "You are an autonomous agent designed to solve data-related quiz tasks.".

(** The process at a time long after the epoch, the gateway as
    [__init__] left it. *)
Definition fresh_process : Process :=
  {| llm := RateLimitedLLM_init;
     world := {| now := 1700000000; served := 0; log := [] |} |}.

Definition echo_tool (k : nat) (call : ToolCall) : PyResult string :=
  Return ("output of " +:+ tc_name call +:+ " for " +:+ tc_id call).

Definition in_request_order (k : nat) (calls : list ToolCall) : list nat :=
  seq 0 (length calls).

Definition last_first (k : nat) (calls : list ToolCall) : list nat :=
  rev (seq 0 (length calls)).

(** A runtime that answers no exception of a tool with a text, and the
    note it appends to its own errors. *)
Definition no_error_text (e : PyExn) : option string := None.

Definition TROUBLESHOOTING : string :=
  String (ascii_of_nat 10)
    "For troubleshooting, visit: https://docs.langchain.com/oss/python/langgraph/errors/GRAPH_RECURSION_LIMIT".

(** The number of reasoner messages in a prompt. *)
Definition turns (ms : list Message) : nat :=
  length (List.filter (fun m => match m with AIMessage _ _ => true | _ => false end) ms).

(** A reasoner that follows a script, one entry per turn, and then says
    it is done. *)
Definition scripted (script : list (string * list ToolCall))
    (k : nat) (ms : list Message) : PyResult (Content * list ToolCall) :=
  let '(text, calls) := nth (turns ms) script ("Quiz complete.", []) in
  Return (Text text, calls).

(** A reasoner that asks a question back instead of acting. *)
Definition asking : nat -> list Message -> PyResult (Content * list ToolCall) :=
  scripted [("Which quiz do you mean?", [])].

(** A reasoner that requests one more tool invocation every time. *)
Definition busy (k : nat) (ms : list Message)
  : PyResult (Content * list ToolCall) :=
  Return (Text "Let me run that again.",
          [mkToolCall "run_code" [("code", "print(1)")]
                      ("call_" +:+ PyStr.str_of_nat (turns ms))]).

(** A reasoner that reads the quiz and two files at once, then submits. *)
Definition parallel : nat -> list Message -> PyResult (Content * list ToolCall) :=
  scripted
    [("Fetching the page and both files.",
      [mkToolCall "get_rendered_html" [("url", "https://quiz.example/q1")] "call_a";
       mkToolCall "download_file" [("url", "https://quiz.example/a.csv")] "call_b";
       mkToolCall "download_file" [("url", "https://quiz.example/b.csv")] "call_c"]);
     ("Computing and submitting.",
      [mkToolCall "run_code" [("code", "print(6 * 7)")] "call_d";
       mkToolCall "post_request" [("url", "https://quiz.example/submit")] "call_e"])].

(** A chain of two quizzes: the answer to the first is accepted and the
    response names the second. *)
Definition chaining : nat -> list Message -> PyResult (Content * list ToolCall) :=
  scripted
    [("Reading the first quiz.",
      [mkToolCall "get_rendered_html" [("url", "https://quiz.example/q1")] "call_1"]);
     ("Submitting the first answer.",
      [mkToolCall "post_request" [("url", "https://quiz.example/submit")] "call_2"]);
     ("Reading the second quiz.",
      [mkToolCall "get_rendered_html" [("url", "https://quiz.example/q2")] "call_3"]);
     ("Submitting the second answer.",
      [mkToolCall "post_request" [("url", "https://quiz.example/submit")] "call_4"])].

Definition chain_tool (k : nat) (call : ToolCall) : PyResult string :=
  if String.eqb (tc_id call) "call_2"
  then Return "status_code: 200, correct: true, url: https://quiz.example/q2"
  else if String.eqb (tc_id call) "call_4"
  then Return "status_code: 200, correct: true"
  else Return "<html>quiz</html>".

Definition EMAIL : string := "student@example.com".
Definition SECRET : string := "s3cret".
Definition URL : string := "https://quiz.example/q1".

(** The final state of an execution that returned. *)
Definition returned (r : Execution) : AgentState :=
  match outcome r with
  | Return final => final
  | Raise _ => initial_state EMAIL SECRET URL 0
  end.

Definition asking_run : Execution :=
  run_graph steady asking PROMPT echo_tool in_request_order no_error_text TROUBLESHOOTING
            EMAIL SECRET URL fresh_process.

Definition busy_run : Execution :=
  run_graph steady busy PROMPT echo_tool in_request_order no_error_text TROUBLESHOOTING
            EMAIL SECRET URL fresh_process.

Definition chained_run : Execution :=
  run_graph steady chaining PROMPT chain_tool in_request_order no_error_text TROUBLESHOOTING
            EMAIL SECRET URL fresh_process.

Definition parallel_run : Execution :=
  run_graph steady parallel PROMPT echo_tool last_first no_error_text TROUBLESHOOTING
            EMAIL SECRET URL fresh_process.

Example asking_run_visits : visited asking_run = [agent].
Proof. vm_compute. reflexivity. Qed.

Example chained_run_visits :
  visited chained_run =
    [agent; tools; agent; tools; agent; tools; agent; tools; agent].
Proof. vm_compute. reflexivity. Qed.

Example parallel_run_conversation :
  map (fun m => match m with
                | ToolMessage _ name id => (name, id)
                | AIMessage _ calls => ("ai", PyStr.str_of_nat (length calls))
                | _ => ("other", EmptyString)
                end) (messages (returned parallel_run)) =
    [("other", EmptyString); ("ai", "3");
     ("get_rendered_html", "call_a"); ("download_file", "call_b");
     ("download_file", "call_c");
     ("ai", "2"); ("run_code", "call_d"); ("post_request", "call_e");
     ("ai", "0")].
Proof. vm_compute. reflexivity. Qed.

(** In that run the invocations of a step were served last first. *)
Example parallel_run_service_order :
  omap (fun e => match e with EvToolCall call => Some (tc_id call) | _ => None end)
       (rev (log (world (process_after parallel_run)))) =
    ["call_c"; "call_b"; "call_a"; "call_e"; "call_d"].
Proof. vm_compute. reflexivity. Qed.

End Scenarios.

(** ** The orchestrator properties on concrete runs *)
Module OrchestratorRuns.
Import Scenarios.

Definition start_state : AgentState :=
  first_state steady EMAIL SECRET URL fresh_process.

Definition start_process : Process := first_process steady fresh_process.

(** A run whose reasoner answers at once, with a text and no invocation,
    ends after its one Reasoning step. *)
Example asking_run_ends :
  visited asking_run = [agent] /\
  outcome asking_run =
    Return (append_message start_state
                           (AIMessage (Text "Which quiz do you mean?") [])).
Proof. vm_compute. split; reflexivity. Qed.

(** The same reply as a list with one content block. *)
Definition listing : nat -> list Message -> PyResult (Content * list ToolCall) :=
  replying_blocks ["Which quiz do you mean?"].

Example listing_run_fails :
  outcome (run_graph steady listing PROMPT echo_tool in_request_order
                     no_error_text TROUBLESHOOTING EMAIL SECRET URL fresh_process)
    = Raise AttributeError_lower /\
  exists elapsed,
    (run_agent steady listing PROMPT echo_tool in_request_order
               no_error_text TROUBLESHOOTING EMAIL SECRET URL fresh_process).1
      = Failed "'list' object has no attribute 'lower'" elapsed.
Proof. split; [vm_compute; reflexivity|vm_compute; eexists; reflexivity]. Qed.

(** The reading of the claim that the counter counts chained tasks: a
    tool result of the submit-answer capability that names a next URL is a
    new reference, and the counter, which starts at 1, has been incremented
    once for each. *)
Definition obtains_new_reference (m : Message) : bool :=
  match m with
  | ToolMessage content name _ =>
      String.eqb name "post_request" && PyStr.str_in "url: http" content
  | _ => false
  end.

Definition new_references (ms : list Message) : nat :=
  length (List.filter obtains_new_reference ms).

Definition counter_counts_chained_tasks (final : AgentState) : Prop :=
  quiz_count final = (1 + Z.of_nat (new_references (messages final)))%Z.

Lemma C3_counter_misses_the_chained_task :
  outcome chained_run = Return (returned chained_run) /\
  new_references (messages (returned chained_run)) = 1 /\
  quiz_count (returned chained_run) = 1%Z /\
  (exists elapsed,
     (run_agent steady chaining PROMPT chain_tool in_request_order
                no_error_text TROUBLESHOOTING
                EMAIL SECRET URL fresh_process).1 = Succeeded elapsed 1) /\
  ~ counter_counts_chained_tasks (returned chained_run).
Proof.
  split; [vm_compute; reflexivity|].
  split; [vm_compute; reflexivity|].
  split; [vm_compute; reflexivity|].
  split; [vm_compute; eexists; reflexivity|].
  unfold counter_counts_chained_tasks.
  replace (quiz_count (returned chained_run)) with 1%Z
    by (vm_compute; reflexivity).
  replace (new_references (messages (returned chained_run))) with 1
    by (vm_compute; reflexivity).
  discriminate.
Qed.

Lemma C3_counter_witness :
  outcome (run_graph steady chaining PROMPT chain_tool in_request_order
                     no_error_text TROUBLESHOOTING
                     EMAIL SECRET URL fresh_process)
    = Return (returned chained_run) /\
  (quiz_count (returned chained_run) = 1%Z /\
   exists elapsed,
     (run_agent steady chaining PROMPT chain_tool in_request_order
                no_error_text TROUBLESHOOTING
                EMAIL SECRET URL fresh_process).1 = Succeeded elapsed 1).
Proof.
  assert (H : outcome (run_graph steady chaining PROMPT chain_tool
                                 in_request_order no_error_text TROUBLESHOOTING
                                 EMAIL SECRET URL fresh_process)
              = Return (returned chained_run)) by (vm_compute; reflexivity).
  split; [exact H|].
  exact (proj1 (proj2 (C3_task_counter_is_never_written
                         steady chaining PROMPT chain_tool in_request_order
                         no_error_text TROUBLESHOOTING))
               EMAIL SECRET URL fresh_process _ H).
Defined.

Definition busy_after_100 : AgentState * Process :=
  default (start_state, start_process)
          (round_trips steady busy PROMPT echo_tool in_request_order
                       no_error_text 100 start_state start_process).

Lemma C6_ceiling_witness :
  round_trips steady busy PROMPT echo_tool in_request_order no_error_text
              100 start_state start_process
    = Some (busy_after_100.1, busy_after_100.2) /\
  (outcome busy_run = Raise (GraphRecursionError TROUBLESHOOTING) /\
   visited busy_run = round_trip_nodes 100 /\
   exists elapsed,
     (run_agent steady busy PROMPT echo_tool in_request_order
                no_error_text TROUBLESHOOTING
                EMAIL SECRET URL fresh_process).1 =
       Failed (exn_msg (GraphRecursionError TROUBLESHOOTING)) elapsed).
Proof.
  assert (H : round_trips steady busy PROMPT echo_tool in_request_order
                          no_error_text 100 start_state start_process
              = Some (busy_after_100.1, busy_after_100.2))
    by (vm_compute; reflexivity).
  split; [exact H|].
  exact (proj2 (C6_iteration_ceiling_ends_the_run
                  steady busy PROMPT echo_tool in_request_order
                  no_error_text TROUBLESHOOTING)
               EMAIL SECRET URL fresh_process _ _ H).
Defined.

Example ceiling_text :
  exn_msg (GraphRecursionError EmptyString) =
    "Recursion limit of 200 reached without hitting a stop condition. You can increase the limit by setting the `recursion_limit` config key.".
Proof. reflexivity. Qed.

Definition parallel_after_2 : AgentState * Process :=
  default (start_state, start_process)
          (round_trips steady parallel PROMPT echo_tool last_first
                       no_error_text 2 start_state start_process).

Lemma C7_order_witness :
  round_trips steady parallel PROMPT echo_tool last_first no_error_text
              2 start_state start_process
    = Some (parallel_after_2.1, parallel_after_2.2) /\
  exists appended,
    messages parallel_after_2.1 = messages start_state ++ appended /\
    trips echo_tool no_error_text 2 appended /\
    answered appended = requested appended /\
    length (answered appended) = length (requested appended).
Proof.
  assert (H : round_trips steady parallel PROMPT echo_tool last_first
                          no_error_text 2 start_state start_process
              = Some (parallel_after_2.1, parallel_after_2.2))
    by (vm_compute; reflexivity).
  split; [exact H|].
  exact (C7_tool_results_answer_requests_in_order
           steady parallel PROMPT echo_tool last_first no_error_text
           2 _ _ _ _ H).
Defined.

(** In that run the three invocations of the first step completed last
    first, and each result stands in the place of its invocation, with the
    output of its own tool. *)
Example parallel_results_in_place :
  firstn 3 (skipn 2 (messages parallel_after_2.1)) =
    [ToolMessage "output of get_rendered_html for call_a"
                 "get_rendered_html" "call_a";
     ToolMessage "output of download_file for call_b" "download_file" "call_b";
     ToolMessage "output of download_file for call_c" "download_file" "call_c"].
Proof. vm_compute. reflexivity. Qed.

(** Two states of one conversation: one run started three minutes and
    more ago, the other has just started. *)
Definition conversation : list Message :=
  [HumanMessage "Solve the quiz at this URL: https://quiz.example/q1";
   AIMessage (Text "Reading the quiz.")
             [mkToolCall "get_rendered_html"
                         [("url", "https://quiz.example/q1")] "call_1"];
   ToolMessage "<html>quiz</html>" "get_rendered_html" "call_1"].

Definition overdue_state : AgentState :=
  {| messages := conversation; email := EMAIL; secret := SECRET;
     current_url := URL; start_time := 1700000000 - 500; quiz_count := 1;
     max_time := 180 |}.

Definition recent_state : AgentState :=
  {| messages := conversation; email := EMAIL; secret := SECRET;
     current_url := URL; start_time := 1700000000 - 5; quiz_count := 1;
     max_time := 180 |}.

Lemma C8_deadline_witness :
  (messages overdue_state = messages recent_state /\
   busy (served (issue_world steady fresh_process))
        (prompt_sent steady PROMPT overdue_state fresh_process)
     = busy (served (issue_world steady fresh_process))
            (prompt_sent steady PROMPT recent_state fresh_process)) /\
  decision (graph_step steady busy PROMPT echo_tool in_request_order
                       no_error_text agent overdue_state fresh_process)
    = decision (graph_step steady busy PROMPT echo_tool in_request_order
                           no_error_text agent recent_state fresh_process).
Proof.
  assert (Hm : messages overdue_state = messages recent_state) by reflexivity.
  assert (Ha : busy (served (issue_world steady fresh_process))
                    (prompt_sent steady PROMPT overdue_state fresh_process)
               = busy (served (issue_world steady fresh_process))
                      (prompt_sent steady PROMPT recent_state fresh_process))
    by reflexivity.
  split; [split; assumption|].
  exact (proj1 (proj2 (proj2 (C8_deadline_is_advisory
                                steady busy PROMPT echo_tool in_request_order
                                no_error_text)))
               overdue_state recent_state fresh_process fresh_process Hm Ha).
Defined.

(** The run that is 320 seconds past its deadline goes on to the tools
    node, and the service was told so. *)
Example overdue_state_continues :
  decision (graph_step steady busy PROMPT echo_tool in_request_order
                       no_error_text agent overdue_state fresh_process)
    = Return (ToNode tools) /\
  PyStr.str_in "- Time remaining: -320.2s"
    (match last (prompt_sent steady PROMPT overdue_state fresh_process) with
     | Some (HumanMessage text) => text
     | _ => EmptyString
     end) = true.
Proof. split; vm_compute; reflexivity. Qed.

End OrchestratorRuns.

(** * Properties of the gateway *)

(** C2.  Invocations of the shared gateway that overlap are not spaced.
    A run makes a reasoning call; a second run asks for one a second later
    and a third run two seconds later.  Both find the stamp of the first
    call, both sleep until 60/9 seconds after it, and both then stamp and
    issue their calls, 100 microseconds apart: the minimum interval is not
    kept between the calls of concurrent runs. *)
Theorem C2_overlapping_invocations_are_not_spaced :
  let c := Threads.exec Threads.overlapping_schedule (Threads.boot 1700000000) in
  Threads.threads c = [Threads.Finished; Threads.Finished; Threads.Finished] /\
  Threads.issued (Threads.shared c) =
    [(17000000070001 # 10000, 17000000070001 # 10000);
     (1700000007%Q, 1700000007%Q);
     (1700000000%Q, 1700000000%Q)] /\
  Threads.spaced (min_interval RateLimitedLLM_init)
                 (Threads.issued (Threads.shared c)) = false.
Proof. vm_compute. repeat split. Qed.

Section Gateway.

Variable delay_us : nat -> N.
Variable reasoner : nat -> list Message -> PyResult (Content * list ToolCall).

(** C4 (amended).  Each invocation reads the clock, takes the time since
    the stamp of the previous invocation, and, if that is less than the
    minimum interval, asks to sleep for exactly the difference and
    otherwise does not sleep.  The stamp it records for the next
    invocation is the time at which it issues the underlying call, read
    before the call is made; it lies at least the minimum interval after
    the previous stamp and not after the return of the call. *)
Theorem C4_invoke_waits_then_stamps_at_issue :
  forall self messages w,
    let elapsed := elapsed_at_entry delay_us self w in
    let out := invoke delay_us reasoner self messages w in
    exists issued returned,
      log (snd out) =
        EvLLMCall issued returned ::
        (if Qlt_le_dec elapsed (min_interval self)
         then [EvSleep (min_interval self - elapsed)]
         else []) ++ log w /\
      last_call_time (snd (fst out)) = issued /\
      (last_call_time self + min_interval self <= issued)%Q /\
      (issued <= returned)%Q /\
      returned = now (snd out).
Proof.
  intros self messages w elapsed out.
  pose proof (invoke_spacing delay_us reasoner self messages w) as Hsp.
  fold out in Hsp. subst out. rewrite invoke_unfold in *.
  cbn [fst snd last_call_time] in *.
  set (wi := world_at_issue delay_us self w) in *.
  exists (now wi), (now (elapse delay_us wi)).
  unfold llm_invoke. cbn [snd log now].
  split; [|split; [reflexivity|split; [exact Hsp|split;
    [apply elapse_mono|reflexivity]]]].
  f_equal. subst wi elapsed.
  unfold world_at_issue, time_time. cbn [fst snd elapse log].
  destruct (Qlt_le_dec _ _); reflexivity.
Qed.

End Gateway.

Module GatewayRuns.
Import Scenarios.

Definition first_invocation
  : PyResult Message * RateLimitedLLM * World :=
  invoke steady asking RateLimitedLLM_init
         [HumanMessage "Solve the quiz at this URL: https://quiz.example/q1"]
         (world fresh_process).

Definition second_invocation
  : PyResult Message * RateLimitedLLM * World :=
  invoke steady asking (snd (fst first_invocation))
         [HumanMessage "Solve the quiz at this URL: https://quiz.example/q2"]
         (snd first_invocation).

(** The reading of the claim: the stamp kept for the next comparison is
    the time at which the call returned. *)
Definition stamp_is_completion_time
    (out : PyResult Message * RateLimitedLLM * World) : Prop :=
  exists issued returned rest,
    log (snd out) = EvLLMCall issued returned :: rest /\
    (last_call_time (snd (fst out)) == returned)%Q.

(** The first invocation issues its call at 1700000000.5 and the call
    returns at 1700000000.75; the second invocation enters at 1700000001. *)
Lemma C4_stamp_is_taken_before_the_call :
  log (snd first_invocation) =
    [EvLLMCall (3400000001 # 2) (6800000003 # 4)] /\
  last_call_time (snd (fst first_invocation)) = 3400000001 # 2 /\
  ~ stamp_is_completion_time first_invocation /\
  log (snd second_invocation) =
    [EvLLMCall (5100000023 # 3) (20400000095 # 12);
     EvSleep (111 # 18);
     EvLLMCall (3400000001 # 2) (6800000003 # 4)] /\
  (111 # 18 == 60 / 9 - (1700000001 - (3400000001 # 2)))%Q /\
  ~ (111 # 18 == 60 / 9 - (1700000001 - (6800000003 # 4)))%Q.
Proof.
  assert (Hlog : log (snd first_invocation) =
                 [EvLLMCall (3400000001 # 2) (6800000003 # 4)])
    by (vm_compute; reflexivity).
  assert (Hst : last_call_time (snd (fst first_invocation)) = 3400000001 # 2)
    by (vm_compute; reflexivity).
  split; [exact Hlog|]. split; [exact Hst|]. split.
  - intros (issued & returned & rest & Hl & Heq).
    rewrite Hlog in Hl. injection Hl as _ <- _.
    rewrite Hst in Heq. vm_compute in Heq. discriminate.
  - split; [vm_compute; reflexivity|].
    split; [vm_compute; reflexivity|].
    intros Heq. vm_compute in Heq. discriminate.
Qed.

End GatewayRuns.

(** * Properties of the tool capabilities *)

(** C5.  A payload that cannot be serialised is answered by a structured
    error, but a request that times out is not: the handler that should
    catch the timeout names [asyncio], which [send_request.py] never
    imports, so looking for a handler raises [NameError] and that exception
    leaves [post_request]. *)
Theorem C5_timeout_escapes_post_request :
  SendRequest.post_request SendRequest.silent_endpoint
    "https://quiz.example/submit" SendRequest.sample_payload
    = Raise (PyTry.NameError "asyncio") /\
  SendRequest.is_structured_error
    (SendRequest.post_request SendRequest.silent_endpoint
       "https://quiz.example/submit" SendRequest.sample_payload) = false /\
  SendRequest.is_structured_error
    (SendRequest.post_request SendRequest.silent_endpoint
       "https://quiz.example/submit"
       [("answer", SendRequest.VObject "bytes")]) = true.
Proof. repeat split. Qed.

Module DownloadClaims.
Import DownloadFile.

(** The file system once [os.makedirs("LLMFiles", exist_ok=True)] has
    run. *)
Definition with_LLMFiles (fs : FileSystem) : FileSystem :=
  {| dirs := {["LLMFiles"]} ∪ dirs fs; files := files fs |}.

Lemma makedirs_LLMFiles fs :
  files fs !! "LLMFiles" = None ->
  makedirs "LLMFiles" fs = Return (with_LLMFiles fs).
Proof. intros H. unfold makedirs. rewrite H. reflexivity. Qed.

Section Claims.

Variable urlparse_path : string -> PyResult string.
Variable session_get : string -> PyResult HttpResponse.
Variable open_fault : string -> option PyExn.

Local Abbreviation download_file_ :=
  (download_file urlparse_path session_get open_fault).
Local Abbreviation chosen_name_ := (chosen_name urlparse_path).

(** C9 (amended).  A response whose status is not 200 - every status
    outside 2xx, and the 2xx statuses other than 200 as well - is
    answered by an error text that carries the status in decimal, and
    nothing is stored.  A response with status 200 whose body arrives
    whole and whose target can be opened for writing is stored under the
    target path, and that path is returned. *)
Theorem C9_only_status_200_is_stored :
  forall url filename fs chosen response,
    files fs !! "LLMFiles" = None ->
    chosen_name_ url filename = Return chosen ->
    session_get url = Return response ->
    let out := download_file_ url filename fs in
    (status response <> 200 ->
       out.1 = Return ("Error: Failed to download: HTTP " +:+
                       PyStr.str_of_nat (status response)) /\
       (exists text, out.1 = Return text /\
          PyStr.str_in (PyStr.str_of_nat (status response)) text = true) /\
       files out.2 = files fs) /\
    (status response = 200 ->
       (forall e, content_length response <> Some (Raise e)) ->
       names_directory (filepath_of chosen) (with_LLMFiles fs) = false ->
       open_fault (filepath_of chosen) = None ->
       stream_error response = None ->
       out.1 = Return (filepath_of chosen) /\
       files out.2 !! filepath_of chosen = Some (concat (chunks response))).
Proof.
  intros url filename fs chosen response Hfs Hname Hget out. subst out.
  unfold download_file. rewrite (makedirs_LLMFiles _ Hfs), Hname, Hget.
  split.
  - intros Hst. apply Nat.eqb_neq in Hst. rewrite Hst. cbn [negb fst snd].
    split; [reflexivity|]. split; [|reflexivity].
    eexists. split; [reflexivity|].
    do 2 apply PyStr.str_in_skip. apply PyStr.str_in_refl.
  - intros Hst Hcl Hdir Hfault Hstream. rewrite Hst. cbn [Nat.eqb negb].
    assert (Hopen : open_wb open_fault (filepath_of chosen) (with_LLMFiles fs)
                    = Return {| dirs := dirs (with_LLMFiles fs);
                                files := <[filepath_of chosen := []]>
                                           (files (with_LLMFiles fs)) |}).
    { unfold open_wb. rewrite Hdir, Hfault. reflexivity. }
    destruct (content_length response) as [[z|e]|];
      [| exfalso; eapply Hcl; reflexivity |];
      rewrite Hopen, Hstream; cbn [fst snd];
      (split; [reflexivity|]);
      rewrite write_chunks_at; cbn [files]; rewrite lookup_insert_eq;
      destruct (chunks response); reflexivity.
Qed.

(** Goals about a result that left the files as they were. *)
Ltac unchanged :=
  split;
  [ intros; cbn [snd];
    repeat match goal with H : files _ = files _ |- _ => rewrite H end;
    reflexivity
  | intros Hchanged; exfalso; apply Hchanged; cbn [snd];
    repeat match goal with H : files _ = files _ |- _ => rewrite H end;
    reflexivity ].

(** What a download does to the files, for the file name it chose. *)
Lemma download_file_writes url filename fs chosen :
  chosen_name_ url filename = Return chosen ->
  (forall path, path <> filepath_of chosen ->
                files (download_file_ url filename fs).2 !! path
                  = files fs !! path) /\
  (files (download_file_ url filename fs).2 <> files fs ->
   directory_name (PyStr.basename chosen) = false).
Proof.
  intros Hname.
  assert (Hbase : PyStr.basename (filepath_of chosen) = PyStr.basename chosen).
  { rewrite filepath_of_shape.
    apply (PyStr.basename_below "LLMFiles"), PyStr.basename_no_sep. }
  unfold download_file.
  destruct (makedirs "LLMFiles" fs) as [fs1|e] eqn:Emk; [|unchanged].
  assert (Hfiles : files fs1 = files fs).
  { unfold makedirs in Emk. destruct (files fs !! "LLMFiles"); [discriminate|].
    injection Emk as <-. reflexivity. }
  rewrite Hname.
  destruct (session_get url) as [response|e]; [|unchanged].
  destruct (negb (status response =? 200)); [unchanged|].
  assert (Hopened :
    forall o : PyResult string * FileSystem,
      o = match open_wb open_fault (filepath_of chosen) fs1 with
          | Raise e => (on_exception e, fs1)
          | Return fs2 =>
              match stream_error response with
              | Some e =>
                  (on_exception e,
                   write_chunks (filepath_of chosen) (chunks response) fs2)
              | None =>
                  (Return (filepath_of chosen),
                   write_chunks (filepath_of chosen) (chunks response) fs2)
              end
          end ->
      (forall path, path <> filepath_of chosen ->
                    files o.2 !! path = files fs !! path) /\
      (files o.2 <> files fs -> directory_name (PyStr.basename chosen) = false)).
  { intros o ->. unfold open_wb, names_directory. rewrite Hbase.
    destruct (directory_name (PyStr.basename chosen));
      [cbn [orb]; unchanged|].
    cbn [orb]. destruct (bool_decide _);
      [split; [intros; cbn [snd]; rewrite ?Hfiles; reflexivity|reflexivity]|].
    destruct (open_fault _);
      [split; [intros; cbn [snd]; rewrite ?Hfiles; reflexivity|reflexivity]|].
    split; [|reflexivity].
    intros path Hne.
    destruct (stream_error response); cbn [snd];
      rewrite write_chunks_other by exact Hne; cbn [files];
      rewrite lookup_insert_ne by congruence; rewrite Hfiles; reflexivity. }
  destruct (content_length response) as [[z|e]|].
  - apply Hopened.
    destruct (open_wb _ _ _); [destruct (stream_error response)|]; reflexivity.
  - unchanged.
  - apply Hopened.
    destruct (open_wb _ _ _); [destruct (stream_error response)|]; reflexivity.
Qed.

(** C10.  Whatever the [filename] argument and whatever the URL, the
    path the tool writes to is ["LLMFiles"] joined with the basename of
    the chosen file name - the argument when it is given, the name taken
    from the URL path otherwise: a single component below [LLMFiles],
    without a separator.  No other path of the file system changes, and
    when anything is written that component is a proper file name, not
    empty and neither [.] nor [..]. *)
Theorem C10_writes_stay_inside_LLMFiles :
  forall url filename fs,
    let out := download_file_ url filename fs in
    (forall given, filename = Some given ->
                   chosen_name_ url filename = Return given) /\
    (forall path, filename = None -> urlparse_path url = Return path ->
        chosen_name_ url filename =
          Return (if String.eqb (PyStr.basename path) EmptyString
                  then "downloaded_file" else PyStr.basename path)) /\
    (forall e, chosen_name_ url filename = Raise e -> files out.2 = files fs) /\
    (forall chosen, chosen_name_ url filename = Return chosen ->
        let name := PyStr.basename chosen in
        filepath_of chosen = PyStr.path_join "LLMFiles" name /\
        filepath_of chosen = "LLMFiles/" +:+ name /\
        PyStr.has_sep name = false /\
        (forall path, path <> filepath_of chosen ->
                      files out.2 !! path = files fs !! path) /\
        (files out.2 <> files fs -> directory_name name = false)).
Proof.
  intros url filename fs out.
  split; [intros given ->; reflexivity|].
  split; [intros path -> Hp; unfold chosen_name; rewrite Hp; reflexivity|].
  split.
  { intros e He. subst out. unfold download_file.
    destruct (makedirs "LLMFiles" fs) as [fs1|e1] eqn:Emk; [|reflexivity].
    rewrite He. cbn [snd].
    unfold makedirs in Emk. destruct (files fs !! "LLMFiles"); [discriminate|].
    injection Emk as <-. reflexivity. }
  intros chosen Hname name.
  split; [reflexivity|].
  split; [apply filepath_of_shape|].
  split; [apply PyStr.basename_no_sep|].
  apply download_file_writes, Hname.
Qed.

End Claims.

End DownloadClaims.

(** ** Concrete downloads *)
Module DownloadRuns.
Import DownloadFile DownloadClaims.

(** [urlparse(url).path] for a URL of the form [scheme://host/path]
    without query and fragment: what follows the host.  A URL with an
    opening bracket in it is taken to be malformed. *)
Fixpoint from_first_sep (s : string) : string :=
  match s with
  | EmptyString => EmptyString
  | String c s' => if Ascii.eqb c "/" then s else from_first_sep s'
  end.

Fixpoint after_scheme (s : string) : string :=
  match s with
  | String ":" (String "/" (String "/" rest)) => rest
  | String _ s' => after_scheme s'
  | EmptyString => EmptyString
  end.

Definition simple_path (url : string) : PyResult string :=
  if PyStr.str_in "[" url
  then Raise (mkExn "ValueError" "Invalid IPv6 URL")
  else Return (from_first_sep (after_scheme url)).

Example simple_path_ex :
  simple_path "https://quiz.example/files/data.csv" = Return "/files/data.csv".
Proof. reflexivity. Qed.

Definition csv_chunks : list (list Byte.byte) :=
  [[Byte.x61; Byte.x2c; Byte.x62; Byte.x0a]; [Byte.x31; Byte.x2c; Byte.x32; Byte.x0a]].

Definition answers_with (code : nat) (url : string) : PyResult HttpResponse :=
  Return {| status := code;
            content_length := Some (Return 8%Z);
            chunks := csv_chunks;
            stream_error := None |}.

Definition no_fault (path : string) : option PyExn := None.

Definition empty_fs : FileSystem := {| dirs := ∅; files := ∅ |}.

Definition DATA_URL : string := "https://quiz.example/files/data.csv".

Definition download_200 : PyResult string * FileSystem :=
  download_file simple_path (answers_with 200) no_fault DATA_URL None empty_fs.

Definition download_203 : PyResult string * FileSystem :=
  download_file simple_path (answers_with 203) no_fault DATA_URL None empty_fs.

Definition download_404 : PyResult string * FileSystem :=
  download_file simple_path (answers_with 404) no_fault DATA_URL None empty_fs.

Example name_of_data_url :
  chosen_name simple_path DATA_URL None = Return "data.csv" /\
  filepath_of "data.csv" = "LLMFiles/data.csv".
Proof. split; reflexivity. Qed.

Example path_of_traversal :
  filepath_of "../../etc/cron.d/job" = "LLMFiles/job".
Proof. reflexivity. Qed.

Example name_of_bare_host :
  chosen_name simple_path "https://quiz.example/" None = Return "downloaded_file".
Proof. reflexivity. Qed.

Definition download_dotdot : PyResult string * FileSystem :=
  download_file simple_path (answers_with 200) no_fault DATA_URL
                (Some "reports/..") empty_fs.

(** The claim read on two responses: one with status 203
    (Non-Authoritative Information), a 2xx response whose body should be
    stored and whose path should be returned; and one with status 200 for a
    file name that ends in [..], which [open] refuses. *)
Lemma C9_status_203_is_not_stored :
  (answers_with 203 DATA_URL =
     Return {| status := 203; content_length := Some (Return 8%Z);
               chunks := csv_chunks; stream_error := None |} /\
   download_203.1 = Return "Error: Failed to download: HTTP 203" /\
   download_203.1 <> Return (filepath_of "data.csv") /\
   files download_203.2 !! filepath_of "data.csv" = None) /\
  (download_dotdot.1
     = Return "Error: ❌ Error downloading file: [Errno 21] Is a directory: 'LLMFiles/..'" /\
   files download_dotdot.2 = ∅).
Proof.
  split.
  - split; [reflexivity|].
    assert (H : download_203.1 = Return "Error: Failed to download: HTTP 203")
      by (vm_compute; reflexivity).
    split; [exact H|]. split.
    + rewrite H. discriminate.
    + vm_compute. reflexivity.
  - split; vm_compute; reflexivity.
Qed.

Definition response_200 : HttpResponse :=
  {| status := 200; content_length := Some (Return 8%Z);
     chunks := csv_chunks; stream_error := None |}.

Definition response_404 : HttpResponse :=
  {| status := 404; content_length := Some (Return 8%Z);
     chunks := csv_chunks; stream_error := None |}.

Lemma C9_storage_witness :
  (files empty_fs !! "LLMFiles" = None /\
   chosen_name simple_path DATA_URL None = Return "data.csv" /\
   answers_with 200 DATA_URL = Return response_200 /\
   status response_200 = 200 /\
   (forall e, content_length response_200 <> Some (Raise e)) /\
   names_directory (filepath_of "data.csv") (with_LLMFiles empty_fs) = false /\
   no_fault (filepath_of "data.csv") = None /\
   stream_error response_200 = None) /\
  (download_200.1 = Return (filepath_of "data.csv") /\
   files download_200.2 !! filepath_of "data.csv"
     = Some (concat (chunks response_200))) /\
  (answers_with 404 DATA_URL = Return response_404 /\
   status response_404 <> 200) /\
  (download_404.1 = Return ("Error: Failed to download: HTTP " +:+
                            PyStr.str_of_nat (status response_404)) /\
   (exists text, download_404.1 = Return text /\
      PyStr.str_in (PyStr.str_of_nat (status response_404)) text = true) /\
   files download_404.2 = files empty_fs).
Proof.
  assert (Hfs : files empty_fs !! "LLMFiles" = None) by reflexivity.
  assert (Hname : chosen_name simple_path DATA_URL None = Return "data.csv")
    by reflexivity.
  assert (Hget : answers_with 200 DATA_URL = Return response_200) by reflexivity.
  assert (Hst : status response_200 = 200) by reflexivity.
  assert (Hcl : forall e, content_length response_200 <> Some (Raise e))
    by (intros e; discriminate).
  assert (Hdir : names_directory (filepath_of "data.csv")
                                 (with_LLMFiles empty_fs) = false)
    by (vm_compute; reflexivity).
  assert (Hfault : no_fault (filepath_of "data.csv") = None) by reflexivity.
  assert (Hstream : stream_error response_200 = None) by reflexivity.
  assert (Hget' : answers_with 404 DATA_URL = Return response_404) by reflexivity.
  assert (Hst' : status response_404 <> 200) by (cbn; lia).
  split; [repeat split; assumption|].
  split.
  - exact (proj2 (C9_only_status_200_is_stored simple_path (answers_with 200)
                    no_fault DATA_URL None empty_fs "data.csv" response_200
                    Hfs Hname Hget)
                 Hst Hcl Hdir Hfault Hstream).
  - split; [split; assumption|].
    exact (proj1 (C9_only_status_200_is_stored simple_path (answers_with 404)
                    no_fault DATA_URL None empty_fs "data.csv" response_404
                    Hfs Hname Hget')
                 Hst').
Defined.

Lemma C10_traversal_witness :
  (chosen_name simple_path DATA_URL (Some "../../etc/job")
     = Return "../../etc/job" /\
   "LLMFiles/passwd" <> filepath_of "../../etc/job") /\
  (filepath_of "../../etc/job" = "LLMFiles/job" /\
   PyStr.has_sep (PyStr.basename "../../etc/job") = false /\
   files (download_file simple_path (answers_with 200) no_fault DATA_URL
                        (Some "../../etc/job") empty_fs).2 !! "LLMFiles/passwd"
     = files empty_fs !! "LLMFiles/passwd").
Proof.
  assert (Hname : chosen_name simple_path DATA_URL (Some "../../etc/job")
                  = Return "../../etc/job") by reflexivity.
  assert (Hne : "LLMFiles/passwd" <> filepath_of "../../etc/job")
    by (vm_compute; discriminate).
  split; [split; assumption|].
  pose proof (C10_writes_stay_inside_LLMFiles simple_path (answers_with 200)
                no_fault DATA_URL (Some "../../etc/job") empty_fs) as H.
  cbv zeta in H. destruct H as (_ & _ & _ & H).
  destruct (H _ Hname) as (_ & Hshape & Hsep & Hother & _).
  split; [exact Hshape|]. split; [exact Hsep|].
  exact (Hother "LLMFiles/passwd" Hne).
Defined.

Example download_404_text :
  download_404.1 = Return "Error: Failed to download: HTTP 404" /\
  PyStr.str_in "404" "Error: Failed to download: HTTP 404" = true.
Proof. split; vm_compute; reflexivity. Qed.

Example download_200_stored :
  download_200.1 = Return "LLMFiles/data.csv" /\
  files download_200.2 !! "LLMFiles/data.csv"
    = Some [Byte.x61; Byte.x2c; Byte.x62; Byte.x0a;
            Byte.x31; Byte.x2c; Byte.x32; Byte.x0a].
Proof. split; vm_compute; reflexivity. Qed.

(** A malformed URL makes [urlparse] raise; the tool answers with the
    error text and the file system keeps its files. *)
Example malformed_url_writes_nothing :
  (download_file simple_path (answers_with 200) no_fault
                 "https://[quiz.example/data.csv" None empty_fs).1
    = Return "Error: ❌ Error downloading file: Invalid IPv6 URL".
Proof. vm_compute. reflexivity. Qed.

End DownloadRuns.

(** * Further properties of the orchestrator *)

(** Reasoning calls recorded in a log. *)
Definition is_llm_call (e : Event) : bool :=
  match e with EvLLMCall _ _ => true | _ => false end.

Definition llm_calls (l : list Event) : nat :=
  length (List.filter is_llm_call l).

Definition qnat (n : nat) : Q := inject_Z (Z.of_nat n).

Lemma qnat_S n : (qnat (S n) == qnat n + 1)%Q.
Proof.
  unfold qnat. rewrite Nat2Z.inj_succ. unfold Z.succ.
  rewrite inject_Z_plus. reflexivity.
Qed.

Lemma qnat_0 : (qnat 0 == 0)%Q.
Proof. reflexivity. Qed.

(** The process a super-step leaves behind. *)
Definition step_process (s : Step) : Process :=
  match s with
  | Goto _ _ p | Halt _ p | Abort _ p => p
  end.

(** The elapsed time a report carries. *)
Definition elapsed_of (r : Report) : Q :=
  match r with
  | Succeeded elapsed_time _ => elapsed_time
  | Failed _ elapsed_time => elapsed_time
  end.

(** The conversation a run appends: Reasoning-Acting rounds, each a
    reasoner message with invocations followed at once by one tool result
    per invocation, in order and each with the answer to its own
    invocation, and then a reasoner message with a text and without
    invocations. *)
Inductive rounds (answers : ToolCall -> string -> Prop)
  : list Message -> Prop :=
| rounds_final text :
    rounds answers [AIMessage (Text text) []]
| rounds_round content call calls outs rest :
    Forall2 answers (call :: calls) outs ->
    rounds answers rest ->
    rounds answers
           (AIMessage content (call :: calls)
              :: zip_with tool_message (call :: calls) outs ++ rest).

Section OrchestratorMore.

Variable delay_us : nat -> N.
Variable reasoner : nat -> list Message -> PyResult (Content * list ToolCall).
Variable SYSTEM_PROMPT : string.
Variable tool_output : nat -> ToolCall -> PyResult string.
Variable completion_order : nat -> list ToolCall -> list nat.
Variable tool_error_text : PyExn -> option string.
Variable troubleshooting : string.

Local Abbreviation call_model_ := (call_model delay_us reasoner SYSTEM_PROMPT).
Local Abbreviation tool_node_ :=
  (tool_node delay_us tool_output completion_order tool_error_text).
Local Abbreviation graph_step_ :=
  (graph_step delay_us reasoner SYSTEM_PROMPT tool_output completion_order
              tool_error_text).
Local Abbreviation graph_loop_ :=
  (graph_loop delay_us reasoner SYSTEM_PROMPT tool_output completion_order
              tool_error_text troubleshooting).
Local Abbreviation run_graph_ :=
  (run_graph delay_us reasoner SYSTEM_PROMPT tool_output completion_order
             tool_error_text troubleshooting).
Local Abbreviation run_agent_ :=
  (run_agent delay_us reasoner SYSTEM_PROMPT tool_output completion_order
             tool_error_text troubleshooting).
Local Abbreviation run_tool_ := (run_tool delay_us tool_output tool_error_text).
Local Abbreviation complete_ := (complete delay_us tool_output tool_error_text).
Local Abbreviation answers_ := (answers tool_output tool_error_text).

(** *** The clock and the log along the operations *)

Lemma world_at_issue_facts self w :
  (now w <= now (world_at_issue delay_us self w))%Q /\
  llm_calls (log (world_at_issue delay_us self w)) = llm_calls (log w).
Proof.
  unfold world_at_issue, elapsed_at_entry, entry_time, time_time.
  cbn [fst snd].
  pose proof (elapse_mono delay_us w) as H1.
  destruct (Qlt_le_dec _ _) as [Hlt|Hge].
  - pose proof (elapse_mono delay_us (time_sleep delay_us
      (min_interval self - (now (elapse delay_us w) - last_call_time self))
      (elapse delay_us w))) as H2.
    pose proof (time_sleep_now delay_us
      (min_interval self - (now (elapse delay_us w) - last_call_time self))
      (elapse delay_us w)) as H3.
    pose proof (elapse_mono delay_us (elapse delay_us w)) as H4.
    split; [lra|reflexivity].
  - pose proof (elapse_mono delay_us (elapse delay_us w)) as H2.
    split; [lra|reflexivity].
Qed.

(** What a Reasoning step does to the gateway, the clock and the log,
    whether the reasoning service answers or raises. *)
Lemma call_model_process state p :
  let p' := (call_model_ state p).2 in
  min_interval (llm p') = min_interval (llm p) /\
  (last_call_time (llm p) + min_interval (llm p) <= last_call_time (llm p'))%Q /\
  (now (world p) <= last_call_time (llm p'))%Q /\
  (last_call_time (llm p') <= now (world p'))%Q /\
  llm_calls (log (world p')) = S (llm_calls (log (world p))).
Proof.
  unfold call_model. destruct (time_time delay_us (world p)) as [t w] eqn:Et.
  assert (Hw : w = elapse delay_us (world p)).
  { unfold time_time in Et. injection Et as _ <-. reflexivity. }
  set (ms := prompt_of SYSTEM_PROMPT state (t - start_time state)
                       (max_time state - (t - start_time state))).
  pose proof (invoke_spacing delay_us reasoner (llm p) ms w) as Hsp.
  rewrite invoke_unfold in *. cbn [fst snd last_call_time] in Hsp.
  destruct (world_at_issue_facts (llm p) w) as [Hmono Hcount].
  pose proof (elapse_mono delay_us (world p)) as H0.
  pose proof (elapse_mono delay_us (world_at_issue delay_us (llm p) w)) as H1.
  rewrite <- Hw in H0.
  unfold llm_invoke in *. cbn [fst snd].
  destruct (reasoner _ _) as [[content calls]|e];
    cbn [snd llm world last_call_time min_interval now log];
    (split; [reflexivity|]); (split; [exact Hsp|]);
    (split; [lra|]); (split; [exact H1|]);
    change (S (llm_calls (log (world_at_issue delay_us (llm p) w)))
            = S (llm_calls (log (world p))));
    rewrite Hcount; subst w; reflexivity.
Qed.

Lemma run_tool_facts call w :
  (now w <= now (run_tool_ call w).2)%Q /\
  llm_calls (log (run_tool_ call w).2) = llm_calls (log w).
Proof.
  unfold run_tool. cbn [snd now log]. split; [apply elapse_mono|reflexivity].
Qed.

Lemma complete_facts order calls slots w :
  (now w <= now (complete_ order calls slots w).2)%Q /\
  llm_calls (log (complete_ order calls slots w).2) = llm_calls (log w).
Proof.
  revert slots w. induction order as [|i order IH]; intros slots w;
    cbn [complete].
  - split; [apply Qle_refl|reflexivity].
  - destruct (calls !! i) as [call|]; [|apply IH].
    destruct (slots !! i) as [[out|]|]; try apply IH.
    destruct (run_tool_facts call w) as [H1 H2].
    destruct (run_tool_ call w) as [[out|e] w'];
      cbn [snd] in H1, H2; [|split; assumption].
    destruct (IH (<[i := Some out]> slots) w') as [H3 H4].
    split; [lra|congruence].
Qed.

(** An Acting step leaves the gateway alone and makes no reasoning call,
    whether it returns or a tool raises. *)
Lemma tool_node_process state p :
  let p' := (tool_node_ state p).2 in
  llm p' = llm p /\
  (now (world p) <= now (world p'))%Q /\
  llm_calls (log (world p')) = llm_calls (log (world p)).
Proof.
  unfold tool_node.
  destruct (last (messages state)) as [[c|c|c calls|c n i]|];
    try (cbn [snd]; split; [reflexivity|split; [apply Qle_refl|reflexivity]]).
  unfold gather.
  pose proof (complete_facts (completion_order (served (world p)) calls) calls
                (replicate (length calls) None) (world p)) as [H1 H2].
  destruct (complete_ (completion_order (served (world p)) calls) calls
              (replicate (length calls) None) (world p)) as [[slots1|e1] w1];
    cbn [snd] in H1, H2;
    [|cbn [snd llm world]; split; [reflexivity|split; assumption]].
  pose proof (complete_facts (seq 0 (length calls)) calls slots1 w1) as [H3 H4].
  destruct (complete_ (seq 0 (length calls)) calls slots1 w1)
    as [[slots2|e2] w2];
    cbn [snd] in *; cbn [llm world];
    (split; [reflexivity|]); (split; [lra|congruence]).
Qed.

Lemma graph_step_process node state p :
  step_process (graph_step_ node state p) =
    match node with
    | agent => (call_model_ state p).2
    | tools => (tool_node_ state p).2
    end.
Proof.
  destruct node; unfold graph_step.
  - destruct (call_model_ state p) as [[u|e] p']; [|reflexivity].
    destruct (should_continue _) as [route|e]; [|reflexivity].
    destruct (conditional_edges route) as [[n|]|]; reflexivity.
  - destruct (tool_node_ state p) as [[u|e] p']; reflexivity.
Qed.

(** How an execution decomposes at its first super-step. *)
Lemma graph_loop_first limit node state p :
  let r := graph_loop_ (S limit) node state p in
  (exists next state' p',
      graph_step_ node state p = Goto next state' p' /\
      visited r = node :: visited (graph_loop_ limit next state' p') /\
      process_after r = process_after (graph_loop_ limit next state' p') /\
      outcome r = outcome (graph_loop_ limit next state' p')) \/
  (visited r = [node] /\
   process_after r = step_process (graph_step_ node state p) /\
   (forall next state' p', graph_step_ node state p <> Goto next state' p')).
Proof.
  cbn [graph_loop].
  destruct (graph_step_ node state p) as [next state' p'|state' p'|e p'].
  - left. exists next, state', p'. repeat split.
  - right. repeat split. intros ? ? ?. discriminate.
  - right. repeat split. intros ? ? ?. discriminate.
Qed.

Lemma reasoning_steps_cons node r r' :
  visited r = node :: visited r' ->
  reasoning_steps r = (if is_agent node then 1 else 0) + reasoning_steps r'.
Proof.
  unfold reasoning_steps. intros ->. cbn [List.filter].
  destruct (is_agent node); reflexivity.
Qed.

Lemma reasoning_steps_single node r :
  visited r = [node] ->
  reasoning_steps r = if is_agent node then 1 else 0.
Proof.
  unfold reasoning_steps. intros ->. cbn [List.filter].
  destruct (is_agent node); reflexivity.
Qed.

Lemma graph_loop_llm_calls :
  forall limit node state p,
    let r := graph_loop_ limit node state p in
    llm_calls (log (world (process_after r))) =
      llm_calls (log (world p)) + reasoning_steps r.
Proof.
  induction limit as [|limit IH]; intros node state p r; subst r.
  - cbn. lia.
  - assert (Hstep : llm_calls (log (world (step_process (graph_step_ node state p))))
                    = llm_calls (log (world p)) + (if is_agent node then 1 else 0)).
    { rewrite graph_step_process. destruct node.
      - destruct (call_model_process state p) as (_ & _ & _ & _ & ->).
        cbn [is_agent]. lia.
      - destruct (tool_node_process state p) as (_ & _ & ->).
        cbn [is_agent]. lia. }
    destruct (graph_loop_first limit node state p)
      as [(next & state' & p' & Hg & Hv & Hp & _)|(Hv & Hp & _)].
    + rewrite Hp, (reasoning_steps_cons _ _ _ Hv), IH.
      rewrite Hg in Hstep. cbn [step_process] in Hstep. lia.
    + rewrite Hp, (reasoning_steps_single _ _ Hv). exact Hstep.
Qed.

(** Every Reasoning step of a run makes exactly one call of the
    reasoning service, also when the call raises, and no Acting step makes
    any: the calls a run adds to the log are as many as its Reasoning
    steps. *)
Theorem reasoning_calls_equal_reasoning_steps :
  forall email secret initial_url p,
    let r := run_graph_ email secret initial_url p in
    llm_calls (log (world (process_after r))) =
      llm_calls (log (world p)) + reasoning_steps r.
Proof.
  intros email secret initial_url p r. subst r.
  rewrite run_graph_unfold.
  pose proof (graph_loop_llm_calls recursion_limit agent
                (first_state delay_us email secret initial_url p)
                (first_process delay_us p)) as H.
  cbv zeta in H. rewrite H. reflexivity.
Qed.

(** *** Stamps along an execution *)

(** After [k] Reasoning steps the stamp of the gateway lies at least
    [k] intervals after the stamp the execution found and at least
    [k - 1] intervals after the start of the execution. *)
Lemma graph_loop_stamps limit node state p :
  let r := graph_loop_ limit node state p in
  let p' := process_after r in
  min_interval (llm p') = min_interval (llm p) /\
  (now (world p) <= now (world p'))%Q /\
  match reasoning_steps r with
  | O => last_call_time (llm p') = last_call_time (llm p)
  | S j =>
      (now (world p) + qnat j * min_interval (llm p)
         <= last_call_time (llm p'))%Q /\
      (last_call_time (llm p) + qnat (S j) * min_interval (llm p)
         <= last_call_time (llm p'))%Q /\
      (last_call_time (llm p') <= now (world p'))%Q
  end.
Proof.
  revert node state p. induction limit as [|limit IH]; intros node state p.
  - cbn [graph_loop process_after reasoning_steps visited List.filter length].
    split; [reflexivity|]. split; [apply Qle_refl|reflexivity].
  - cbv zeta.
    set (p1 := step_process (graph_step_ node state p)).
    assert (Hstep :
      min_interval (llm p1) = min_interval (llm p) /\
      (now (world p) <= now (world p1))%Q /\
      if is_agent node
      then (last_call_time (llm p) + min_interval (llm p)
              <= last_call_time (llm p1))%Q /\
           (now (world p) <= last_call_time (llm p1))%Q /\
           (last_call_time (llm p1) <= now (world p1))%Q
      else last_call_time (llm p1) = last_call_time (llm p)).
    { subst p1. rewrite graph_step_process. destruct node; cbn [is_agent].
      - destruct (call_model_process state p) as (H1 & H2 & H3 & H4 & _).
        split; [exact H1|]. split; [lra|]. repeat split; assumption.
      - destruct (tool_node_process state p) as (H1 & H2 & _).
        rewrite H1. split; [reflexivity|]. split; [exact H2|reflexivity]. }
    destruct Hstep as (Hmi & Hnow & Hst).
    pose proof qnat_0 as Hq0.
    destruct (graph_loop_first limit node state p)
      as [(next & state' & p' & Hg & Hv & Hp & _)|(Hv & Hp & _)].
    + assert (Hp1 : p1 = p') by (subst p1; rewrite Hg; reflexivity).
      rewrite Hp, (reasoning_steps_cons _ _ _ Hv).
      specialize (IH next state' p'). cbv zeta in IH.
      rewrite <- Hp1 in IH. destruct IH as (IHmi & IHnow & IHst).
      rewrite Hp1 in *.
      split; [congruence|]. split; [lra|].
      rewrite Hmi in IHst.
      destruct (is_agent node); cbn [Nat.add].
      * destruct Hst as (Hs1 & Hs2 & Hs3).
        destruct (reasoning_steps (graph_loop_ limit next state' p')) as [|j].
        -- rewrite IHst. pose proof (qnat_S 0) as Hq1.
           repeat split; nra.
        -- destruct IHst as (I1 & I2 & I3).
           pose proof (qnat_S (S j)) as Hq1. pose proof (qnat_S j) as Hq2.
           repeat split; nra.
      * destruct (reasoning_steps (graph_loop_ limit next state' p')) as [|j].
        -- congruence.
        -- destruct IHst as (I1 & I2 & I3). rewrite Hst in I2.
           repeat split; nra.
    + rewrite Hp, (reasoning_steps_single _ _ Hv). fold p1.
      split; [exact Hmi|]. split; [exact Hnow|].
      destruct (is_agent node).
      * destruct Hst as (Hs1 & Hs2 & Hs3). pose proof (qnat_S 0) as Hq1.
        repeat split; nra.
      * exact Hst.
Qed.

Lemma run_graph_reasons email secret initial_url p :
  exists j, reasoning_steps (run_graph_ email secret initial_url p) = S j.
Proof.
  unfold run_graph. destruct (time_time delay_us (world p)) as [t0 w].
  unfold graph_ainvoke. rewrite recursion_limit_S.
  destruct (graph_loop_first 199 agent (initial_state email secret initial_url t0)
              {| llm := llm p; world := w |})
    as [(next & state' & p' & _ & Hv & _)|(Hv & _)].
  - rewrite (reasoning_steps_cons _ _ _ Hv). eexists. reflexivity.
  - rewrite (reasoning_steps_single _ _ Hv). eexists. reflexivity.
Qed.

(** Calls made in one run are spaced, so the run lasts: the elapsed time
    [run_agent] reports is at least one minimum interval for every
    Reasoning step after the first, whether the run succeeds or fails. *)
Theorem run_agent_elapsed_lower_bound :
  forall email secret initial_url p,
    ((qnat (reasoning_steps (run_graph_ email secret initial_url p)) - 1)
       * min_interval (llm p)
     <= elapsed_of (run_agent_ email secret initial_url p).1)%Q.
Proof.
  intros email secret initial_url p.
  destruct (run_graph_reasons email secret initial_url p) as [j Hj].
  unfold run_agent. rewrite Hj.
  set (r := run_graph_ email secret initial_url p) in *.
  assert (Hr : r = graph_loop_ recursion_limit agent
                     (initial_state email secret initial_url
                                    (now (elapse delay_us (world p))))
                     {| llm := llm p; world := elapse delay_us (world p) |})
    by reflexivity.
  pose proof (graph_loop_stamps recursion_limit agent
                (initial_state email secret initial_url
                               (now (elapse delay_us (world p))))
                {| llm := llm p; world := elapse delay_us (world p) |}) as Hst.
  cbv zeta in Hst. rewrite <- Hr, Hj in Hst. cbn [llm world] in Hst.
  destruct Hst as (_ & _ & H1 & _ & H3).
  pose proof (elapse_mono delay_us (world (process_after r))) as H4.
  pose proof (qnat_S j) as Hq.
  unfold time_time. cbn [fst].
  assert (Hgoal : ((qnat (S j) - 1) * min_interval (llm p)
                   <= now (elapse delay_us (world (process_after r)))
                      - now (elapse delay_us (world p)))%Q) by nra.
  destruct (outcome r); cbn [fst elapsed_of]; exact Hgoal.
Qed.

(** *** The shape of the conversation *)

Lemma graph_loop_rounds limit node state p final :
  outcome (graph_loop_ limit node state p) = Return final ->
  match node with
  | agent =>
      exists appended,
        messages final = messages state ++ appended /\ rounds answers_ appended
  | tools =>
      (exists content call calls outs rest,
          last (messages state) = Some (AIMessage content (call :: calls)) /\
          Forall2 answers_ (call :: calls) outs /\
          messages final =
            messages state ++ zip_with tool_message (call :: calls) outs ++ rest /\
          rounds answers_ rest) \/
      (exists content appended,
          last (messages state) = Some (AIMessage content []) /\
          messages final = messages state ++ appended /\
          rounds answers_ appended)
  end.
Proof.
  revert node state p. induction limit as [|limit IH]; intros node state p;
    cbn [graph_loop]; [discriminate|].
  destruct node.
  - destruct (graph_step_ agent state p) as [n state1 p1|state1 p1|e p1] eqn:E;
      cbn [outcome]; intros H; [| |discriminate].
    + apply agent_step_goto in E as (-> & content & call & calls & ->).
      specialize (IH _ _ _ H). cbn beta iota in IH.
      rewrite messages_append, last_snoc in IH.
      destruct IH as [(c' & call' & calls' & outs & rest & Hl & Ha & Hm & Hr)
                     |(c' & app & Hl & _)]; [|discriminate].
      injection Hl as <- <- <-.
      exists (AIMessage content (call :: calls)
                :: zip_with tool_message (call :: calls) outs ++ rest).
      split; [rewrite Hm, <- app_assoc; reflexivity|].
      constructor; assumption.
    + injection H as <-. apply agent_step_halt in E as (text & ->).
      exists [AIMessage (Text text) []]. split; [reflexivity|constructor].
  - destruct (last (messages state)) as [m|] eqn:Hlast.
    + destruct m as [c|c|content calls|c nm id];
        try (unfold graph_step, tool_node; rewrite Hlast; discriminate).
      destruct (tools_step_spec delay_us reasoner SYSTEM_PROMPT tool_output
                  completion_order tool_error_text state p content calls Hlast)
        as [(outs & p1 & Ha & ->)|(e & p1 & _ & ->)]; [|discriminate].
      cbn [outcome]. intros H. specialize (IH _ _ _ H). cbn beta iota in IH.
      destruct IH as (rest & Hm & Hr).
      cbn [apply_update messages only_messages set_messages default] in Hm.
      destruct calls as [|call calls].
      * right. exists content, rest. split; [reflexivity|].
        inversion Ha; subst. cbn [zip_with] in Hm.
        rewrite app_nil_r in Hm. split; assumption.
      * left. exists content, call, calls, outs, rest.
        split; [reflexivity|]. split; [exact Ha|].
        split; [rewrite Hm, <- app_assoc; reflexivity|exact Hr].
    + unfold graph_step, tool_node. rewrite Hlast. discriminate.
Qed.

(** The conversation of a run that succeeds is the opening human message
    followed by Reasoning-Acting rounds: every reasoner message with
    invocations is followed at once by exactly its tool results, in the
    order of the invocations, the i-th with the name, the call id and the
    answer of the i-th invocation; and the last message is a reasoner
    message with a text and without invocations. *)
Theorem successful_run_conversation :
  forall email secret initial_url p final,
    outcome (run_graph_ email secret initial_url p) = Return final ->
    exists appended,
      messages final =
        HumanMessage ("Solve the quiz at this URL: " +:+ initial_url)
          :: appended /\
      rounds answers_ appended.
Proof.
  intros email secret initial_url p final H.
  rewrite run_graph_unfold in H.
  pose proof (graph_loop_rounds recursion_limit agent _ _ _ H) as Hrounds.
  cbn beta iota in Hrounds. destruct Hrounds as (appended & Hm & Hr).
  exists appended. split; [exact Hm|exact Hr].
Qed.

(** *** A failing reasoning service *)

(** When the call of the reasoning service raises in the first Reasoning
    step, the run ends there: the graph raises the same exception after
    that one step and that one call, nothing is retried, and [run_agent]
    reports the failure with the text of the exception. *)
Theorem gateway_failure_ends_the_run :
  forall email secret initial_url p e,
    (call_model_ (first_state delay_us email secret initial_url p)
                 (first_process delay_us p)).1 = Raise e ->
    let r := run_graph_ email secret initial_url p in
    outcome r = Raise e /\
    visited r = [agent] /\
    llm_calls (log (world (process_after r))) = S (llm_calls (log (world p))) /\
    exists elapsed,
      (run_agent_ email secret initial_url p).1 = Failed (exn_msg e) elapsed.
Proof.
  intros email secret initial_url p e H r.
  assert (Hstep : graph_step_ agent
                    (first_state delay_us email secret initial_url p)
                    (first_process delay_us p)
                  = Abort e (call_model_
                               (first_state delay_us email secret initial_url p)
                               (first_process delay_us p)).2).
  { revert H. generalize (first_state delay_us email secret initial_url p).
    generalize (first_process delay_us p). intros p0 s0 H.
    unfold graph_step.
    destruct (call_model_ s0 p0) as [[u|e'] p']; cbn [fst snd] in *;
      [discriminate|]. injection H as ->. reflexivity. }
  assert (Ho : outcome r = Raise e).
  { subst r. rewrite run_graph_unfold, recursion_limit_S, graph_loop_S, Hstep.
    reflexivity. }
  assert (Hv : visited r = [agent]).
  { subst r. rewrite run_graph_unfold, recursion_limit_S, graph_loop_S, Hstep.
    reflexivity. }
  split; [exact Ho|]. split; [exact Hv|]. split.
  - pose proof (graph_loop_llm_calls recursion_limit agent
                  (first_state delay_us email secret initial_url p)
                  (first_process delay_us p)) as Hcalls.
    cbv zeta in Hcalls. rewrite <- run_graph_unfold in Hcalls. fold r in Hcalls.
    rewrite Hcalls. unfold reasoning_steps. rewrite Hv.
    cbn [List.filter is_agent length]. 
    change (llm_calls (log (world (first_process delay_us p))))
      with (llm_calls (log (world p))). lia.
  - unfold run_agent. fold r. rewrite Ho.
    destruct (time_time delay_us (world (process_after r))) as [t1 w1].
    eexists. reflexivity.
Qed.

End OrchestratorMore.

(** *** What a prompt is made of *)

Definition is_reply (m : Message) : bool :=
  match m with
  | AIMessage _ _ | ToolMessage _ _ _ => true
  | _ => false
  end.

Lemma tool_messages_are_replies calls outs :
  forallb is_reply (zip_with tool_message calls outs) = true.
Proof.
  revert outs. induction calls as [|call calls IH]; intros [|out outs];
    try reflexivity.
  cbn [zip_with forallb tool_message is_reply andb]. apply IH.
Qed.

Lemma replies_have_no_system ms :
  forallb is_reply ms = true -> existsb is_system ms = false.
Proof.
  induction ms as [|m ms IH]; [reflexivity|].
  cbn [forallb existsb]. intros H. apply andb_true_iff in H as [Hm Hms].
  destruct m; try discriminate; cbn [is_system orb]; apply IH, Hms.
Qed.

Section PromptShape.

Variable delay_us : nat -> N.
Variable reasoner : nat -> list Message -> PyResult (Content * list ToolCall).
Variable SYSTEM_PROMPT : string.
Variable tool_output : nat -> ToolCall -> PyResult string.
Variable completion_order : nat -> list ToolCall -> list nat.
Variable tool_error_text : PyExn -> option string.

Local Abbreviation call_model_ := (call_model delay_us reasoner SYSTEM_PROMPT).
Local Abbreviation round_trips_ :=
  (round_trips delay_us reasoner SYSTEM_PROMPT tool_output completion_order
               tool_error_text).

Lemma round_trips_replies n state p state' p' :
  round_trips_ n state p = Some (state', p') ->
  exists appended,
    messages state' = messages state ++ appended /\
    forallb is_reply appended = true.
Proof.
  revert state p. induction n as [|n IH]; intros state p; cbn [round_trips].
  - intros H. injection H as <- _. exists []. split; [|reflexivity].
    symmetry. apply app_nil_r.
  - destruct (round_trip _ _ _ _ _ _ state p) as [[state1 p1]|] eqn:E;
      [|discriminate].
    intros H. destruct (IH _ _ H) as (rest & Hm & Hr).
    destruct (round_trip_messages _ _ _ _ _ _ _ _ _ _ E)
      as (content & calls & outs & _ & Hl & Hm1).
    exists ((AIMessage content calls :: zip_with tool_message calls outs) ++ rest).
    split; [rewrite Hm, Hm1, <- app_assoc; reflexivity|].
    rewrite forallb_app, Hr. cbn [forallb is_reply andb].
    rewrite tool_messages_are_replies. reflexivity.
Qed.

(** The state of a run stores neither the system prompt nor any context
    message: after any number of round trips it holds the opening human
    message followed by reasoner messages and tool results only.  So the
    Reasoning step that comes next builds its prompt anew, and this is
    what it sends to the reasoning service and gets the answer to: the
    system prompt first, the stored conversation, and one context message
    last, made with the clock reading of that step. *)
Theorem prompt_is_rebuilt_every_step :
  forall n email secret initial_url p state p',
    round_trips_ n (first_state delay_us email secret initial_url p)
                 (first_process delay_us p) = Some (state, p') ->
    exists appended,
      messages state =
        HumanMessage ("Solve the quiz at this URL: " +:+ initial_url)
          :: appended /\
      forallb is_reply appended = true /\
      let elapsed_time := (reading delay_us p' - start_time state)%Q in
      let time_remaining := (max_time state - elapsed_time)%Q in
      let prompt :=
        SystemMessage SYSTEM_PROMPT
          :: HumanMessage ("Solve the quiz at this URL: " +:+ initial_url)
          :: appended
          ++ [HumanMessage (context_msg state elapsed_time time_remaining)] in
      (call_model_ state p').1 =
        response_update (reasoner (served (issue_world delay_us p')) prompt).
Proof.
  intros n email secret initial_url p state p' H.
  destruct (round_trips_replies _ _ _ _ _ H) as (appended & Hm & Hr).
  cbn [first_state initial_state messages app] in Hm.
  exists appended. split; [exact Hm|]. split; [exact Hr|].
  cbv zeta. rewrite call_model_sends. f_equal. f_equal.
  unfold prompt_sent, prompt_of. rewrite Hm.
  cbn [existsb is_system orb].
  rewrite (replies_have_no_system _ Hr). reflexivity.
Qed.

End PromptShape.

(** *** How a run can fail *)

Section RunFailures.

Variable delay_us : nat -> N.
Variable reasoner : nat -> list Message -> PyResult (Content * list ToolCall).
Variable SYSTEM_PROMPT : string.
Variable tool_output : nat -> ToolCall -> PyResult string.
Variable completion_order : nat -> list ToolCall -> list nat.
Variable tool_error_text : PyExn -> option string.
Variable troubleshooting : string.

Local Abbreviation graph_step_ :=
  (graph_step delay_us reasoner SYSTEM_PROMPT tool_output completion_order
              tool_error_text).
Local Abbreviation graph_loop_ :=
  (graph_loop delay_us reasoner SYSTEM_PROMPT tool_output completion_order
              tool_error_text troubleshooting).
Local Abbreviation run_graph_ :=
  (run_graph delay_us reasoner SYSTEM_PROMPT tool_output completion_order
             tool_error_text troubleshooting).
Local Abbreviation run_agent_ :=
  (run_agent delay_us reasoner SYSTEM_PROMPT tool_output completion_order
             tool_error_text troubleshooting).

(** The ways an execution raises. *)
Definition failure_cause (e : PyExn) : Prop :=
  e = GraphRecursionError troubleshooting
  \/ (exists k ms, reasoner k ms = Raise e)
  \/ (e = AttributeError_lower /\
      exists k ms blocks, reasoner k ms = Return (Blocks blocks, []))
  \/ (exists k call, tool_output k call = Raise e /\ tool_error_text e = None).

Lemma graph_loop_failure limit node state p e :
  outcome (graph_loop_ limit node state p) = Raise e ->
  match node with
  | agent => True
  | tools => exists content calls,
               last (messages state) = Some (AIMessage content calls)
  end ->
  failure_cause e.
Proof.
  revert node state p. induction limit as [|limit IH]; intros node state p;
    cbn [graph_loop].
  - cbn [outcome]. intros H _. injection H as <-. left. reflexivity.
  - destruct node.
    + destruct (graph_step_ agent state p) as [n state1 p1|state1 p1|e1 p1] eqn:E;
        cbn [outcome]; intros H _.
      * apply agent_step_goto in E as (-> & content & call & calls & ->).
        apply (IH _ _ _ H). exists content, (call :: calls).
        rewrite messages_append. apply last_snoc.
      * discriminate.
      * injection H as ->. right.
        apply agent_step_abort in E as [E|E]; [left|right; left]; exact E.
    + intros H (content & calls & Hlast).
      destruct (tools_step_spec delay_us reasoner SYSTEM_PROMPT tool_output
                  completion_order tool_error_text state p content calls Hlast)
        as [(outs & p1 & _ & Hstep)|(e1 & p1 & Hun & Hstep)];
        rewrite Hstep in H; cbn [outcome] in H.
      * apply (IH _ _ _ H). exact I.
      * injection H as ->. right. right. right.
        destruct Hun as (k & call & _ & Ho & He). eauto.
Qed.

(** A run that [run_agent] reports as failed has failed in one of four
    ways, and the report carries the text of that exception: the ceiling
    on super-steps was reached; the reasoning service raised; a reply of
    the service was a list of content blocks without invocations; or a
    tool raised an exception that the runtime does not answer with a
    text. *)
Theorem a_failed_run_has_one_of_four_causes :
  forall email secret initial_url p error elapsed,
    (run_agent_ email secret initial_url p).1 = Failed error elapsed ->
    exists e, error = exn_msg e /\ failure_cause e.
Proof.
  intros email secret initial_url p error elapsed. unfold run_agent.
  destruct (outcome (run_graph_ email secret initial_url p)) as [final|e] eqn:Ho;
    destruct (time_time delay_us _) as [t1 w1]; cbn [fst]; intros H;
    [discriminate|].
  injection H as <- _.
  rewrite run_graph_unfold in Ho.
  exists e. split; [reflexivity|].
  exact (graph_loop_failure _ _ _ _ _ Ho I).
Qed.

End RunFailures.

(** * The other tool capabilities *)

(** ** Statements with effects

    A computation reads and changes a state and returns or raises; [try]
    with handlers and [try] with [finally] are the statements of Python. *)
Module PyM.
Import PyTry.

Section WithState.

Context {S : Type}.

Definition M (A : Type) : Type := S -> PyResult A * S.

Definition ret {A} (a : A) : M A := fun s => (Return a, s).

Definition raise {A} (e : PyExn) : M A := fun s => (Raise e, s).

Definition bind {A B} (m : M A) (k : A -> M B) : M B :=
  fun s =>
    match m s with
    | (Return a, s') => k a s'
    | (Raise e, s') => (Raise e, s')
    end.

(** The handler clauses are tried in order; evaluating a clause's class
    expression may itself raise. *)
Fixpoint handle {A} (globals : list string)
    (handlers : list (ClassExpr * (PyExn -> M A))) (e : PyExn) : M A :=
  match handlers with
  | [] => raise e
  | (c, h) :: rest =>
      match eval_class globals c with
      | Raise e' => raise e'
      | Return cls => if matches cls e then h e else handle globals rest e
      end
  end.

Definition try_except {A} (globals : list string) (body : M A)
    (handlers : list (ClassExpr * (PyExn -> M A))) : M A :=
  fun s =>
    match body s with
    | (Return a, s') => (Return a, s')
    | (Raise e, s') => handle globals handlers e s'
    end.

(** [try: body finally: cleanup]: the cleanup runs however the body
    ends; if the cleanup raises, its exception replaces the outcome of the
    body. *)
Definition try_finally {A} (body : M A) (cleanup : M unit) : M A :=
  fun s =>
    match body s with
    | (r, s') =>
        match cleanup s' with
        | (Return _, s'') => (r, s'')
        | (Raise e, s'') => (Raise e, s'')
        end
    end.

End WithState.

End PyM.

(** ** Child processes and temporary files *)
Module Subprocess.

Inductive ChildState :=
| Running
| Exited (returncode : Z)
| Killed.

Record Child := mkChild {
  argv : list string;
  child_state : ChildState
}.

(** What the tools see of the operating system: the temporary files
    that exist and the child processes started so far, oldest first. *)
Record Sys := mkSys {
  temp_files : list string;
  children : list Child
}.

(** How [NamedTemporaryFile(mode='w', suffix='.py', delete=False)]
    followed by [f.write(code)] ends: the file is written; or it cannot be
    created; or it is created but writing or closing it raises. *)
Inductive TempOutcome :=
| Written (name : string)
| NotCreated (e : PyExn)
| NotWritten (name : string) (e : PyExn).

(** How [asyncio.wait_for(process.communicate(), timeout)] ends. *)
Inductive CommOutcome :=
| Completed (stdout stderr : list Byte.byte) (returncode : Z)
| TimedOut
| Broken (e : PyExn).

Definition TimeoutError : PyExn := mkExn "TimeoutError" EmptyString.

Definition set_child (pid : nat) (st : ChildState) (sys : Sys) : Sys :=
  {| temp_files := temp_files sys;
     children :=
       match children sys !! pid with
       | Some c => <[pid := {| argv := argv c; child_state := st |}]> (children sys)
       | None => children sys
       end |}.

Fixpoint remove_file (name : string) (l : list string) : list string :=
  match l with
  | [] => []
  | x :: l' => if String.eqb x name then remove_file name l'
               else x :: remove_file name l'
  end.

Lemma remove_file_fresh name l :
  ~ In name l -> remove_file name l = l.
Proof.
  induction l as [|x l IH]; intros H; [reflexivity|].
  cbn [remove_file]. destruct (String.eqb_spec x name) as [->|Hne].
  - exfalso. apply H. left. reflexivity.
  - f_equal. apply IH. intros Hin. apply H. right. exact Hin.
Qed.

Lemma remove_file_cons_fresh name l :
  ~ In name l -> remove_file name (name :: l) = l.
Proof.
  intros H. cbn [remove_file]. rewrite String.eqb_refl.
  apply remove_file_fresh, H.
Qed.

End Subprocess.

(** ** [tools/code_generate_and_run.py] *)
Module RunCode.
Import PyTry Subprocess.
Import SendRequest (PyVal(..), JsonText(..), json_dumps).

(** The frame of one call: the system, and whether the local name
    [json] is bound.  The function body contains [import json], so [json]
    is a local of [run_code], bound only once one of the two import
    statements has run. *)
Record Frame := mkFrame {
  sys : Sys;
  json_bound : bool
}.

(** Reading a local name that is not bound yet; the text is the one of
    Python 3.11 and later. *)
Definition UnboundLocalError (name : string) : PyExn :=
  mkExn "UnboundLocalError"
        ("cannot access local variable '" +:+ name +:+
         "' where it is not associated with a value").

(** The names bound at module level in [code_generate_and_run.py]. *)
Definition module_globals : list string :=
  ["os"; "asyncio"; "tempfile"; "tool"; "run_code"].

Definition result_dict (stdout stderr : string) (exit_code : Z) : PyVal :=
  VDict [("stdout", VStr stdout); ("stderr", VStr stderr);
         ("exit_code", VInt exit_code)].

Local Notation "x <- m ;; k" := (PyM.bind m (fun x => k))
  (at level 100, m at next level, right associativity).
Local Notation "m ;;; k" := (PyM.bind m (fun _ => k))
  (at level 100, right associativity).

Section Run.

(** What one call meets outside the process. *)
Variable temp_outcome : TempOutcome.
Variable spawn_outcome : option PyExn.
Variable comm_outcome : CommOutcome.
Variable kill_outcome : option PyExn.
Variable unlink_outcome : option PyExn.
(** [bytes.decode('utf-8', errors='replace')]. *)
Variable decode : list Byte.byte -> string.

Definition with_sys (f : Frame) (s : Sys) : Frame :=
  {| sys := s; json_bound := json_bound f |}.

(** [with tempfile.NamedTemporaryFile(...) as f: f.write(code)] and
    [temp_file = f.name]. *)
Definition named_temporary_file (code : string) : PyM.M (S := Frame) string :=
  fun f =>
    let add name :=
      with_sys f {| temp_files := name :: temp_files (sys f);
                    children := children (sys f) |} in
    match temp_outcome with
    | Written name => (Return name, add name)
    | NotCreated e => (Raise e, f)
    | NotWritten name e => (Raise e, add name)
    end.

(** [asyncio.create_subprocess_exec] with the given arguments: the
    child's index. *)
Definition create_subprocess_exec (args : list string)
  : PyM.M (S := Frame) nat :=
  fun f =>
    match spawn_outcome with
    | Some e => (Raise e, f)
    | None =>
        (Return (length (children (sys f))),
         with_sys f {| temp_files := temp_files (sys f);
                       children := children (sys f)
                                   ++ [{| argv := args; child_state := Running |}] |})
    end.

(** [asyncio.wait_for(process.communicate(), timeout=60.0)]. *)
Definition communicate (pid : nat)
  : PyM.M (S := Frame) (list Byte.byte * list Byte.byte * Z) :=
  fun f =>
    match comm_outcome with
    | Completed out err rc =>
        (Return (out, err, rc), with_sys f (set_child pid (Exited rc) (sys f)))
    | TimedOut => (Raise TimeoutError, f)
    | Broken e => (Raise e, f)
    end.

(** [process.kill()] and [await process.wait()]. *)
Definition kill_and_wait (pid : nat) : PyM.M (S := Frame) unit :=
  fun f =>
    match kill_outcome with
    | Some e => (Raise e, f)
    | None => (Return tt, with_sys f (set_child pid Killed (sys f)))
    end.

(** [os.unlink(temp_file)]. *)
Definition unlink (name : string) : PyM.M (S := Frame) unit :=
  fun f =>
    match unlink_outcome with
    | Some e => (Raise e, f)
    | None =>
        (Return tt,
         with_sys f {| temp_files := remove_file name (temp_files (sys f));
                       children := children (sys f) |})
    end.

(** [import json] inside the function. *)
Definition import_json : PyM.M (S := Frame) unit :=
  fun f => (Return tt, {| sys := sys f; json_bound := true |}).

(** [json.dumps(v, indent=indent)] through the local name [json]. *)
Definition local_json_dumps (indent : option nat) (v : PyVal)
  : PyM.M (S := Frame) JsonText :=
  fun f =>
    if json_bound f then (json_dumps indent v, f)
    else (Raise (UnboundLocalError "json"), f).

(** The body of [run_code]. *)
Definition run_code_body (code : string) : PyM.M (S := Frame) JsonText :=
  PyM.try_except module_globals
    (temp_file <- named_temporary_file code ;;
     PyM.try_finally
       (process <- create_subprocess_exec ["python"; temp_file] ;;
        PyM.try_except module_globals
          (out <- communicate process ;;
           let '(stdout, stderr, returncode) := out in
           let stdout_str := decode stdout in
           let stderr_str := decode stderr in
           let exit_code := returncode in
           let result := result_dict stdout_str stderr_str exit_code in
           import_json ;;;
           local_json_dumps (Some 2) result)
          [(Attr "asyncio" "TimeoutError",
            fun _ =>
              kill_and_wait process ;;;
              let error_msg := "Code execution timed out after 60 seconds" in
              local_json_dumps None (result_dict EmptyString error_msg (-1)))])
       (PyM.try_except module_globals (unlink temp_file)
          [(Bare, fun _ => PyM.ret tt)]))
    [(Name "Exception",
      fun e =>
        let error_msg := "❌ Error executing code: " +:+ exn_msg e in
        import_json ;;;
        local_json_dumps None (result_dict EmptyString error_msg (-1)))].

(** [run_code(code)]. *)
Definition run_code (code : string) (s : Sys) : PyResult JsonText * Sys :=
  let '(r, f) := run_code_body code {| sys := s; json_bound := false |} in
  (r, sys f).

End Run.

(** A script that prints 7. *)
Example run_code_prints :
  run_code (Written "/tmp/tmpab12.py") None
           (Completed [Byte.x37; Byte.x0a] [] 0) None None
           (fun b => String.string_of_list_byte b)
           "print(7)" {| temp_files := []; children := [] |}
  = (Return (Dumps (Some 2)
       (result_dict (String "7" (String (ascii_of_nat 10) EmptyString))
                    EmptyString 0)),
     {| temp_files := [];
        children := [{| argv := ["python"; "/tmp/tmpab12.py"];
                        child_state := Exited 0 |}] |}).
Proof. vm_compute. reflexivity. Qed.

End RunCode.

(** ** Properties of [run_code] *)
Module RunCodeFacts.
Import PyTry Subprocess RunCode.
Import SendRequest (PyVal(..), JsonText(..), json_dumps).

Ltac unfold_run_code :=
  unfold run_code, run_code_body, PyM.try_except, PyM.try_finally, PyM.bind,
    PyM.ret, named_temporary_file, create_subprocess_exec, communicate,
    kill_and_wait, unlink, import_json, local_json_dumps, with_sys.

(** Whether an exception is caught by [except asyncio.TimeoutError]. *)
Definition is_timeout (e : PyExn) : bool :=
  matches (Some "TimeoutError") e.

Lemma matches_Exception e : matches (Some "Exception") e = true.
Proof. reflexivity. Qed.

Lemma matches_TimeoutError : matches (Some "TimeoutError") TimeoutError = true.
Proof. reflexivity. Qed.

Definition failure_text (msg : string) : JsonText :=
  Dumps None (result_dict EmptyString ("❌ Error executing code: " +:+ msg) (-1)).

Lemma set_child_last l c st tf :
  set_child (length l) st {| temp_files := tf; children := l ++ [c] |}
  = {| temp_files := tf;
       children := l ++ [{| argv := argv c; child_state := st |}] |}.
Proof.
  unfold set_child. cbn [children temp_files].
  rewrite list_lookup_middle by reflexivity.
  rewrite insert_app_r_alt by lia.
  rewrite Nat.sub_diag. reflexivity.
Qed.

Ltac run_simpl :=
  repeat (cbn -[matches set_child remove_file];
          rewrite ?matches_Exception, ?matches_TimeoutError, ?set_child_last).

Ltac run_cases temp spawn comm kill unl :=
  unfold_run_code;
  destruct temp as [?name|?e|?name ?e]; run_simpl;
  [ destruct spawn as [?e|]; run_simpl;
    [ destruct unl; run_simpl
    | destruct comm as [?out ?err ?rc| |?e]; run_simpl;
      [ destruct unl; run_simpl
      | destruct kill; destruct unl; run_simpl
      | destruct (matches (Some "TimeoutError") e); run_simpl;
        destruct kill; destruct unl; run_simpl ] ]
  | | ].

(** [run_code] never raises an exception deriving from [Exception].  If
    the script was written, the interpreter started and its output arrived
    in time, the tool returns the decoded output and the exit status,
    whatever that status is and whether or not the script could be removed
    afterwards.  In every other case it returns a text that begins
    [Error executing code] with exit code -1. *)
Theorem run_code_outcome :
  forall temp spawn comm kill unl decode code s,
    match temp, spawn, comm with
    | Written _, None, Completed out err rc =>
        (run_code temp spawn comm kill unl decode code s).1
          = Return (Dumps (Some 2) (result_dict (decode out) (decode err) rc))
    | _, _, _ =>
        exists msg,
          (run_code temp spawn comm kill unl decode code s).1
            = Return (failure_text msg)
    end.
Proof.
  intros temp spawn comm kill unl decode code s.
  run_cases temp spawn comm kill unl;
    try reflexivity; try (eexists; reflexivity).
  all: destruct spawn; destruct comm; eexists; reflexivity.
Qed.

(** When the script does not finish within the time limit, the child is
    killed, but the message about the time limit is never returned: the
    handler reads the local name [json] before any [import json] has run,
    and the tool reports that failure instead. *)
Theorem run_code_timeout_is_misreported :
  forall name unl decode code s,
    (run_code (Written name) None TimedOut None unl decode code s).1
      = Return (failure_text (exn_msg (UnboundLocalError "json")))
    /\ children (run_code (Written name) None TimedOut None unl decode code s).2
       = children s ++ [{| argv := ["python"; name]; child_state := Killed |}].
Proof.
  intros name unl decode code s. unfold_run_code. run_simpl.
  destruct unl; run_simpl; split; reflexivity.
Qed.

(** The script file is removed again however the run ends, provided it
    was written and [os.unlink] succeeds. *)
Theorem run_code_removes_its_script :
  forall name spawn comm kill decode code s,
    ~ In name (temp_files s) ->
    temp_files (run_code (Written name) spawn comm kill None decode code s).2
      = temp_files s.
Proof.
  intros name spawn comm kill decode code s Hfresh.
  pose proof (remove_file_cons_fresh name (temp_files s) Hfresh) as Hrm.
  unfold_run_code. run_simpl.
  destruct spawn as [e|]; run_simpl; [exact Hrm|].
  destruct comm as [out err rc| |e]; run_simpl; [exact Hrm| |].
  - destruct kill; run_simpl; exact Hrm.
  - destruct (matches (Some "TimeoutError") e); run_simpl;
      destruct kill; run_simpl; exact Hrm.
Qed.

(** If the file was created but the code could not be written to it, the
    file is left behind and no interpreter is started: the clean-up is
    inside the inner [try], which is never entered. *)
Theorem run_code_leaves_an_unwritten_script :
  forall name e spawn comm kill unl decode code s,
    temp_files (run_code (NotWritten name e) spawn comm kill unl decode code s).2
      = name :: temp_files s
    /\ children (run_code (NotWritten name e) spawn comm kill unl decode code s).2
       = children s.
Proof.
  intros. unfold_run_code. run_simpl. split; reflexivity.
Qed.

(** The tool starts at most one child, the interpreter on the script
    file, and leaves the children started before untouched.  The child is
    left running exactly when it was neither reaped nor killed. *)
Theorem run_code_starts_one_interpreter :
  forall temp spawn comm kill unl decode code s,
    children (run_code temp spawn comm kill unl decode code s).2 = children s
    \/ exists name st,
         temp = Written name
         /\ children (run_code temp spawn comm kill unl decode code s).2
            = children s ++ [{| argv := ["python"; name]; child_state := st |}]
         /\ st = match comm, kill with
                 | Completed _ _ rc, _ => Exited rc
                 | TimedOut, None => Killed
                 | Broken e, None => if is_timeout e then Killed else Running
                 | _, Some _ => Running
                 end.
Proof.
  intros temp spawn comm kill unl decode code s. unfold is_timeout.
  unfold_run_code.
  destruct temp as [name|e|name e]; run_simpl; [|left; reflexivity..].
  destruct spawn as [e|]; run_simpl.
  { destruct unl; run_simpl; left; reflexivity. }
  right. exists name.
  destruct comm as [out err rc| |e]; run_simpl.
  - destruct unl; run_simpl; eexists; repeat split.
  - destruct kill; destruct unl; run_simpl; eexists; repeat split.
  - destruct (matches (Some "TimeoutError") e); run_simpl;
      destruct kill; destruct unl; run_simpl; eexists; repeat split.
Qed.

End RunCodeFacts.

(** ** [tools/add_dependencies.py] *)
Module AddDependencies.
Import PyTry Subprocess.
Import SendRequest (PyVal(..)).

(** The names bound at module level in [add_dependencies.py]. *)
Definition module_globals : list string :=
  ["asyncio"; "subprocess"; "tool"; "add_dependencies"].

(** [type(v).__name__]. *)
Definition type_name (v : PyVal) : string :=
  match v with
  | VNone => "NoneType"
  | VBool _ => "bool"
  | VInt _ => "int"
  | VStr _ => "str"
  | VList _ => "list"
  | VDict _ => "dict"
  | VObject t => t
  end.

Definition is_str (v : PyVal) : bool :=
  match v with VStr _ => true | _ => false end.

Definition TypeError_join (i : nat) (v : PyVal) : PyExn :=
  mkExn "TypeError"
        ("sequence item " +:+ PyStr.str_of_nat i +:+
         ": expected str instance, " +:+ type_name v +:+ " found").

Definition TypeError_arg (v : PyVal) : PyExn :=
  mkExn "TypeError"
        ("expected str, bytes or os.PathLike object, not " +:+ type_name v).

(** The items [str.join] concatenates, from index [i] on; it raises at
    the first item that is not a string. *)
Fixpoint strings_from (i : nat) (items : list PyVal)
  : PyResult (list string) :=
  match items with
  | [] => Return []
  | VStr s :: rest => bind (strings_from (S i) rest) (fun l => Return (s :: l))
  | v :: _ => Raise (TypeError_join i v)
  end.

Fixpoint join (sep : string) (l : list string) : string :=
  match l with
  | [] => EmptyString
  | [x] => x
  | x :: rest => x +:+ sep +:+ join sep rest
  end.

(** [sep.join(items)]. *)
Definition str_join (sep : string) (items : list PyVal) : PyResult string :=
  bind (strings_from 0 items) (fun l => Return (join sep l)).

(** The argument vector of a child: every argument must be a string. *)
Fixpoint program_args (items : list PyVal) : PyResult (list string) :=
  match items with
  | [] => Return []
  | VStr s :: rest => bind (program_args rest) (fun l => Return (s :: l))
  | v :: _ => Raise (TypeError_arg v)
  end.

Local Notation "x <- m ;; k" := (PyM.bind m (fun x => k))
  (at level 100, m at next level, right associativity).

Section Install.

(** What one call meets outside the process. *)
Variable spawn_outcome : option PyExn.
Variable comm_outcome : CommOutcome.
(** [bytes.decode('utf-8', errors='replace')]. *)
Variable decode : list Byte.byte -> string.

Definition lift {A} (r : PyResult A) : PyM.M (S := Sys) A :=
  fun s => (r, s).

(** [asyncio.create_subprocess_exec( *cmd, ...)]: the child's index. *)
Definition create_subprocess_exec (cmd : list PyVal)
  : PyM.M (S := Sys) nat :=
  fun s =>
    match program_args cmd with
    | Raise e => (Raise e, s)
    | Return args =>
        match spawn_outcome with
        | Some e => (Raise e, s)
        | None =>
            (Return (length (children s)),
             {| temp_files := temp_files s;
                children := children s
                            ++ [{| argv := args; child_state := Running |}] |})
        end
    end.

(** [asyncio.wait_for(process.communicate(), timeout=120.0)]. *)
Definition communicate (pid : nat)
  : PyM.M (S := Sys) (list Byte.byte * list Byte.byte * Z) :=
  fun s =>
    match comm_outcome with
    | Completed out err rc => (Return (out, err, rc), set_child pid (Exited rc) s)
    | TimedOut => (Raise TimeoutError, s)
    | Broken e => (Raise e, s)
    end.

(** [add_dependencies(packages)]. *)
Definition add_dependencies (packages : list PyVal) : PyM.M (S := Sys) string :=
  match packages with
  | [] => PyM.ret "Error: No packages specified"
  | _ :: _ =>
      _ <- lift (str_join ", " packages) ;;
      PyM.try_except module_globals
        (let cmd := [VStr "pip"; VStr "install"; VStr "--quiet"] ++ packages in
         process <- create_subprocess_exec cmd ;;
         out <- communicate process ;;
         let '(stdout, stderr, returncode) := out in
         if (returncode =? 0)%Z then
           names <- lift (str_join ", " packages) ;;
           PyM.ret ("Successfully installed: " +:+ names)
         else
           let stderr_str := decode stderr in
           let error_msg := "Failed to install packages. Error: " +:+ stderr_str in
           PyM.ret error_msg)
        [(Attr "asyncio" "TimeoutError",
          fun _ =>
            let error_msg := "Package installation timed out after 2 minutes" in
            PyM.ret error_msg);
         (Name "Exception",
          fun e =>
            let error_msg := "❌ Error installing packages: " +:+ exn_msg e in
            PyM.ret error_msg)]
  end.

End Install.

(** *** Facts *)

Lemma strings_from_map i names :
  strings_from i (map VStr names) = Return names.
Proof.
  revert i. induction names as [|n names IH]; intros i; [reflexivity|].
  cbn [map strings_from]. rewrite IH. reflexivity.
Qed.

Lemma program_args_map names :
  program_args (map VStr names) = Return names.
Proof.
  induction names as [|n names IH]; [reflexivity|].
  cbn [map program_args]. rewrite IH. reflexivity.
Qed.

Lemma strings_from_return i items names :
  strings_from i items = Return names -> items = map VStr names.
Proof.
  revert i names. induction items as [|v items IH]; intros i names H.
  - cbn in H. injection H as <-. reflexivity.
  - destruct v; cbn [strings_from] in H; try discriminate.
    destruct (strings_from (S i) items) as [l|e] eqn:E; cbn in H;
      [|discriminate].
    injection H as <-. cbn [map]. f_equal. eapply IH, E.
Qed.

Lemma strings_from_raise i items v :
  In v items -> is_str v = false ->
  exists e, strings_from i items = Raise e /\ exn_class e = "TypeError".
Proof.
  revert i. induction items as [|w items IH]; intros i Hin Hv; [destruct Hin|].
  destruct (is_str w) eqn:Hw.
  - destruct w; try discriminate. cbn [strings_from].
    destruct Hin as [Heq|Hin]; [subst v; discriminate|].
    destruct (IH (S i) Hin Hv) as (e & -> & Hc). exists e. split; auto.
  - exists (TypeError_join i w). split; [|reflexivity].
    destruct w; try discriminate; reflexivity.
Qed.

End AddDependencies.

(** ** Properties of [add_dependencies] *)
Module AddDependenciesFacts.
Import PyTry Subprocess AddDependencies.
Import SendRequest (PyVal(..)).

Definition pip_child (names : list string) (st : ChildState) : Child :=
  {| argv := ["pip"; "install"; "--quiet"] ++ names; child_state := st |}.

Ltac unfold_add :=
  unfold add_dependencies, PyM.try_except, PyM.bind, PyM.ret, lift,
    create_subprocess_exec, communicate, str_join.

Ltac not_success :=
  let H := fresh in intros H; vm_compute in H; discriminate H.

Ltac add_simpl :=
  repeat (cbn -[matches set_child strings_from program_args map
                PyStr.startswith join];
          rewrite ?RunCodeFacts.matches_Exception,
            ?RunCodeFacts.matches_TimeoutError,
            ?RunCodeFacts.set_child_last).

Lemma program_args_pip names :
  program_args ([VStr "pip"; VStr "install"; VStr "--quiet"] ++ map VStr names)
  = Return (["pip"; "install"; "--quiet"] ++ names).
Proof.
  cbn [app program_args]. rewrite program_args_map. reflexivity.
Qed.

(** An entry that is not a string makes the tool raise [TypeError]: the
    list is joined for the progress message before the [try] is entered.
    Nothing has been started by then. *)
Theorem add_dependencies_raises_on_a_non_string :
  forall spawn comm decode packages v s,
    In v packages -> is_str v = false ->
    exists e,
      add_dependencies spawn comm decode packages s = (Raise e, s)
      /\ exn_class e = "TypeError".
Proof.
  intros spawn comm decode packages v s Hin Hv.
  destruct (strings_from_raise 0 packages v Hin Hv) as (e & He & Hc).
  exists e. split; [|exact Hc].
  destruct packages as [|w packages]; [destruct Hin|].
  unfold_add. rewrite He. reflexivity.
Qed.

(** For a non-empty list of names the tool returns a text, and the text
    announces success exactly when [pip] was started and exited with
    status 0. *)
Theorem add_dependencies_succeeds_iff_pip_exits_0 :
  forall spawn comm decode name names s,
    exists text,
      (add_dependencies spawn comm decode (map VStr (name :: names)) s).1
        = Return text
      /\ (PyStr.startswith "Successfully installed: " text = true
          <-> spawn = None /\ exists out err, comm = Completed out err 0).
Proof.
  intros spawn comm decode name names s.
  unfold_add. change (map VStr (name :: names)) with (VStr name :: map VStr names).
  cbv iota. rewrite <- (map_cons VStr name names).
  rewrite strings_from_map. add_simpl.
  pose proof (program_args_pip (name :: names)) as Hargs.
  cbn [app map] in Hargs. rewrite <- (map_cons VStr name names) in Hargs.
  cbn [app]. rewrite Hargs. clear Hargs.
  destruct spawn as [e|]; add_simpl.
  { destruct (matches (Some "TimeoutError") e); add_simpl;
      (eexists; split; [reflexivity|]; split; [not_success|]);
      intros [H _]; discriminate. }
  destruct comm as [out err rc| |e]; add_simpl.
  - destruct (rc =? 0)%Z eqn:Hrc; add_simpl.
    + apply Z.eqb_eq in Hrc. subst rc.
      eexists. split; [reflexivity|].
      split; [|intros _; apply PyStr.startswith_app].
      intros _. split; [reflexivity|]. eauto.
    + eexists. split; [reflexivity|]. split; [not_success|].
      intros [_ (o & e' & H)]. injection H as _ _ ->. discriminate.
  - eexists. split; [reflexivity|]. split; [not_success|].
    intros [_ (o & e' & H)]. discriminate.
  - destruct (matches (Some "TimeoutError") e); add_simpl;
      (eexists; split; [reflexivity|]; split; [not_success|]);
      intros [_ (o & e' & H)]; discriminate.
Qed.

(** The tool starts at most one child, [pip install --quiet] followed by
    the names, and leaves the children started before untouched.  It never
    kills the child: when the installation does not finish in time, [pip]
    is still running when the tool returns. *)
Theorem add_dependencies_starts_one_pip :
  forall spawn comm decode packages s,
    children (add_dependencies spawn comm decode packages s).2 = children s
    \/ exists names,
         packages = map VStr names
         /\ children (add_dependencies spawn comm decode packages s).2
            = children s
              ++ [pip_child names
                    match comm with
                    | Completed _ _ rc => Exited rc
                    | _ => Running
                    end].
Proof.
  intros spawn comm decode packages s.
  destruct packages as [|v packages]; [left; reflexivity|].
  unfold_add.
  destruct (strings_from 0 (v :: packages)) as [names|e] eqn:E;
    [|left; reflexivity].
  apply strings_from_return in E. rewrite E.
  cbv iota beta. cbn [PyTry.bind].
  rewrite program_args_pip.
  destruct spawn as [e|]; add_simpl.
  { left. destruct (matches (Some "TimeoutError") e); reflexivity. }
  right. exists names. split; [reflexivity|].
  unfold pip_child.
  destruct comm as [out err rc| |e]; add_simpl.
  - destruct (rc =? 0)%Z; add_simpl; reflexivity.
  - reflexivity.
  - destruct (matches (Some "TimeoutError") e); reflexivity.
Qed.

End AddDependenciesFacts.

(** ** [tools/web_scraper.py] *)
Module WebScraper.
Import PyTry.

(** The calls the tool makes on the browser driver, in the order made. *)
Inductive Call :=
| Start                         (* [async_playwright().__aenter__()] *)
| Launch                        (* [p.chromium.launch(...)] *)
| NewPage                       (* [browser.new_page()] *)
| SetDefaultTimeout (ms : N)    (* [page.set_default_timeout(ms)] *)
| Goto (url : string)           (* [page.goto(url, ...)] *)
| Sleep (seconds : N)           (* [asyncio.sleep(seconds)] *)
| Content                       (* [page.content()] *)
| Close                         (* [browser.close()] *)
| Stop.                         (* [async_playwright().__aexit__()] *)

Definition Call_eqb (a b : Call) : bool :=
  match a, b with
  | Start, Start | Launch, Launch | NewPage, NewPage | Content, Content
  | Close, Close | Stop, Stop => true
  | SetDefaultTimeout x, SetDefaultTimeout y => N.eqb x y
  | Goto x, Goto y => String.eqb x y
  | Sleep x, Sleep y => N.eqb x y
  | _, _ => false
  end.

Definition called (c : Call) (log : list Call) : bool :=
  existsb (Call_eqb c) log.

(** How the driver answers during one call of the tool. *)
Record Driver := mkDriver {
  start : option PyExn;
  launch : option PyExn;
  new_page : option PyExn;
  goto : string -> option PyExn;
  content : PyResult string;
  close : option PyExn;
  stop : option PyExn
}.

(** The names bound at module level in [web_scraper.py]. *)
Definition module_globals : list string :=
  ["tool"; "async_playwright"; "asyncio"; "get_rendered_html"].

Local Notation "x <- m ;; k" := (PyM.bind m (fun x => k))
  (at level 100, m at next level, right associativity).
Local Notation "m ;;; k" := (PyM.bind m (fun _ => k))
  (at level 100, right associativity).

(** One call on the driver: it is recorded, and fails if the driver says
    so. *)
Definition call (c : Call) (outcome : option PyExn)
  : PyM.M (S := list Call) unit :=
  fun log =>
    match outcome with
    | Some e => (Raise e, log ++ [c])
    | None => (Return tt, log ++ [c])
    end.

Definition page_content (r : PyResult string) : PyM.M (S := list Call) string :=
  fun log => (r, log ++ [Content]).

(** [async with cm as x: body]: the exit runs however the body ends. *)
Definition async_with {A} (enter exit : PyM.M (S := list Call) unit)
    (body : PyM.M (S := list Call) A) : PyM.M (S := list Call) A :=
  enter ;;; PyM.try_finally body exit.

(** [get_rendered_html(url)]. *)
Definition get_rendered_html (d : Driver) (url : string)
  : PyM.M (S := list Call) string :=
  PyM.try_except module_globals
    (async_with (call Start (start d)) (call Stop (stop d))
       (call Launch (launch d) ;;;
        call NewPage (new_page d) ;;;
        call (SetDefaultTimeout 30000%N) None ;;;
        PyM.try_finally
          (call (Goto url) (goto d url) ;;;
           call (Sleep 2%N) None ;;;
           html_content <- page_content (content d) ;;
           PyM.ret html_content)
          (call Close (close d))))
    [(Name "Exception",
      fun e =>
        let error_msg :=
          "❌ Error scraping " +:+ url +:+ ": " +:+ exn_msg e in
        PyM.ret ("Error: " +:+ error_msg))].

(** The driver answered every call. *)
Definition all_well (d : Driver) (url : string) : bool :=
  match start d, launch d, new_page d, goto d url, content d, close d, stop d with
  | None, None, None, None, Return _, None, None => true
  | _, _, _, _, _, _, _ => false
  end.

Definition error_text (url msg : string) : string :=
  "Error: " +:+ "❌ Error scraping " +:+ url +:+ ": " +:+ msg.

Ltac unfold_scrape :=
  unfold get_rendered_html, async_with, PyM.try_except, PyM.try_finally,
    PyM.bind, PyM.ret, call, page_content.

Ltac scrape_simpl :=
  repeat (cbn -[matches called]; rewrite ?RunCodeFacts.matches_Exception).

Ltac scrape_cases d url :=
  destruct d as [st la np go co cl sp]; cbn [start launch new_page goto content close stop];
  unfold_scrape;
  destruct st; scrape_simpl;
  [| destruct la; scrape_simpl;
     [ destruct sp; scrape_simpl
     | destruct np; scrape_simpl;
       [ destruct sp; scrape_simpl
       | destruct (go url); scrape_simpl;
         [ destruct cl; scrape_simpl; destruct sp; scrape_simpl
         | destruct co; scrape_simpl; destruct cl; scrape_simpl;
           destruct sp; scrape_simpl ] ] ] ].

(** The tool never raises.  It returns the page exactly when the driver
    answered every call, including the closing of the browser and the
    stopping of the driver after the page was read; otherwise it returns
    a text that begins with [Error:] and names the address. *)
Theorem get_rendered_html_outcome :
  forall d url log,
    if all_well d url then
      (get_rendered_html d url log).1 = content d
    else
      exists msg,
        (get_rendered_html d url log).1 = Return (error_text url msg).
Proof.
  intros d url log. unfold all_well, error_text.
  scrape_cases d url; try reflexivity; eexists; reflexivity.
Qed.

(** The browser is asked to close exactly when a page was obtained, and
    the driver is asked to stop exactly when it had started; in
    particular a browser that was launched is never left without one of
    the two. *)
Theorem get_rendered_html_releases_the_browser :
  forall d url,
    let log := (get_rendered_html d url []).2 in
    called Close log
      = match start d, launch d, new_page d with
        | None, None, None => true
        | _, _, _ => false
        end
    /\ called Stop log = match start d with None => true | _ => false end
    /\ called (Goto url) log = called Close log.
Proof.
  intros d url.
  scrape_cases d url; repeat split; try reflexivity;
    cbn [called existsb Call_eqb orb]; rewrite ?String.eqb_refl; reflexivity.
Qed.

End WebScraper.

(** ** [main.py]: the [/solve] endpoint *)
Module Server.
Import SendRequest (PyVal(..), PyDict).

(** [QuizRequest]. *)
Record QuizRequest := mkQuizRequest {
  email : string;
  secret : string;
  url : string
}.

(** What the endpoint function raises: [HTTPException], or anything
    else. *)
Inductive Raised :=
| HTTPException (status_code : Z) (detail : string)
| Other (e : PyExn).

Inductive Outcome (A : Type) :=
| Done (a : A)
| Fail (r : Raised).
Arguments Done {A} a.
Arguments Fail {A} r.

(** [JSONResponse(status_code=..., content=...)]. *)
Record JSONResponse := mkJSONResponse {
  status_code : Z;
  content : PyDict
}.

(** The background tasks created so far, and the warnings printed. *)
Record ServerState := mkServerState {
  tasks : list QuizRequest;
  warnings : list string
}.

Definition dict_get (key : string) (items : PyDict) : option PyVal :=
  snd <$> find (fun kv => String.eqb (fst kv) key) items.

Definition is_dict (v : PyVal) : bool :=
  match v with VDict _ => true | _ => false end.

Definition ValidationError : PyExn :=
  mkExn "ValidationError" "validation error for QuizRequest".

Definition TypeError_mapping (v : PyVal) : PyExn :=
  mkExn "TypeError"
        ("QuizRequest() argument after ** must be a mapping, not "
         +:+ AddDependencies.type_name v).

Definition is_validation_error (e : PyExn) : bool :=
  String.eqb (exn_class e) "ValidationError".

Section Endpoint.

(** [await request.json()]. *)
Variable request_json : PyResult PyVal.
(** What the model accepts for a field declared [str]. *)
Variable str_field : PyVal -> option string.
(** [os.getenv]. *)
Variable getenv : string -> option string.

Definition field (items : PyDict) (key : string) : option string :=
  match dict_get key items with
  | Some v => str_field v
  | None => None
  end.

(** [QuizRequest( **body)]. *)
Definition QuizRequest_init (body : PyVal) : PyResult QuizRequest :=
  match body with
  | VDict items =>
      match field items "email", field items "secret", field items "url" with
      | Some e, Some s, Some u =>
          Return {| email := e; secret := s; url := u |}
      | _, _, _ => Raise ValidationError
      end
  | _ => Raise (TypeError_mapping body)
  end.

(** [not s] for the result of [os.getenv]. *)
Definition falsy (s : option string) : bool :=
  match s with
  | None => true
  | Some v => String.eqb v EmptyString
  end.

(** The body of the outer [try] of [solve_quiz]. *)
Definition solve_quiz_body (st : ServerState)
  : Outcome string * ServerState :=
  match request_json with
  | Raise _ => (Fail (HTTPException 400 "Invalid JSON payload"), st)
  | Return body =>
      match QuizRequest_init body with
      | Raise e =>
          if is_validation_error e
          then (Fail (HTTPException 400 "Invalid request format"), st)
          else (Fail (Other e), st)
      | Return quiz_request =>
          let expected_secret := getenv "SECRET" in
          if falsy expected_secret
          then (Fail (HTTPException 500 "Server configuration error"), st)
          else if negb (bool_decide (Some (secret quiz_request) = expected_secret))
          then (Fail (HTTPException 403 "Invalid secret"), st)
          else
            let expected_email := getenv "EMAIL" in
            let st :=
              if negb (falsy expected_email)
                 && negb (bool_decide (Some (email quiz_request) = expected_email))
              then {| tasks := tasks st;
                      warnings := warnings st ++ ["Email mismatch"] |}
              else st in
            let st :=
              {| tasks := tasks st ++ [quiz_request];
                 warnings := warnings st |} in
            (Done "ok", st)
      end
  end.

(** [solve_quiz(request)]: [HTTPException] is raised again, anything
    else becomes status 500. *)
Definition solve_quiz (st : ServerState) : Outcome string * ServerState :=
  match solve_quiz_body st with
  | (Done r, st') => (Done r, st')
  | (Fail (HTTPException c d), st') => (Fail (HTTPException c d), st')
  | (Fail (Other _), st') =>
      (Fail (HTTPException 500 "Internal server error"), st')
  end.

(** The response the application sends: [http_exception_handler] for
    [HTTPException], [general_exception_handler] for anything else. *)
Definition respond (o : Outcome string) : JSONResponse :=
  match o with
  | Done status => {| status_code := 200; content := [("status", VStr status)] |}
  | Fail (HTTPException c d) =>
      {| status_code := c; content := [("detail", VStr d)] |}
  | Fail (Other _) =>
      {| status_code := 500;
         content := [("detail", VStr "Internal server error")] |}
  end.

(** [POST /solve]. *)
Definition post_solve (st : ServerState) : JSONResponse * ServerState :=
  let '(o, st') := solve_quiz st in (respond o, st').

End Endpoint.

End Server.

(** ** Properties of the [/solve] endpoint *)
Module ServerFacts.
Import Server.
Import SendRequest (PyVal(..), PyDict).

(** A request the server is configured to accept: the body is an object
    with the three fields, [SECRET] is set and not empty, and the secret
    sent equals it. *)
Definition authorised (request_json : PyResult PyVal)
    (str_field : PyVal -> option string) (getenv : string -> option string)
    (q : QuizRequest) : Prop :=
  exists body,
    request_json = Return body
    /\ QuizRequest_init str_field body = Return q
    /\ getenv "SECRET" = Some (secret q)
    /\ secret q <> EmptyString.

Lemma falsy_false s : falsy s = false <-> exists v, s = Some v /\ v <> EmptyString.
Proof.
  destruct s as [v|]; cbn [falsy].
  - destruct (String.eqb_spec v EmptyString) as [->|Hne].
    + split; [discriminate|]. intros (w & H & Hw). injection H as <-.
      contradiction.
    + split; [eauto|reflexivity].
  - split; [discriminate|]. intros (w & H & _). discriminate.
Qed.

Ltac unfold_solve :=
  unfold post_solve, solve_quiz, solve_quiz_body.

(** The agent is started exactly for an authorised request, once and
    with the fields of the request, and only then is the answer status
    200.  The e-mail address configured on the server plays no part. *)
Theorem solve_starts_the_agent_iff_authorised :
  forall request_json str_field getenv st,
    exists started,
      tasks (post_solve request_json str_field getenv st).2
        = tasks st ++ started
      /\ (forall q, In q started
                    <-> authorised request_json str_field getenv q)
      /\ length started <= 1
      /\ (status_code (post_solve request_json str_field getenv st).1 = 200%Z
          <-> started <> []).
Proof.
  intros request_json str_field getenv st. unfold authorised. unfold_solve.
  destruct request_json as [body|e].
  2:{ exists []. cbn. rewrite app_nil_r. repeat split; try lia; try easy.
      intros (b & H & _). discriminate. }
  destruct (QuizRequest_init str_field body) as [q|e] eqn:Hq.
  2:{ exists []. destruct (is_validation_error e); cbn; rewrite app_nil_r;
        repeat split; try lia; try easy;
        intros (b & H & H' & _); injection H as <-; congruence. }
  destruct (falsy (getenv "SECRET")) eqn:Hs.
  { exists []. cbn. rewrite app_nil_r. repeat split; try lia; try easy.
    intros (b & H & H' & H1 & H2). injection H as <-.
    assert (falsy (getenv "SECRET") = false) as Hf
      by (apply falsy_false; eauto).
    congruence. }
  apply falsy_false in Hs. destruct Hs as (v & Hv & Hne). rewrite Hv.
  destruct (bool_decide (Some (secret q) = Some v)) eqn:Hd; cbn [negb].
  - apply bool_decide_eq_true in Hd. injection Hd as Hd.
    exists [q].
    destruct (negb (falsy (getenv "EMAIL"))
              && negb (bool_decide (Some (email q) = getenv "EMAIL")));
      cbn; (split; [reflexivity|]); (split; [|split; [lia|easy]]);
      intros q'; (split;
        [intros [<-|[]]; exists body; rewrite Hd; repeat split; congruence
        |intros (b & H & H' & _); injection H as <-; left; congruence]).
  - apply bool_decide_eq_false in Hd.
    exists []. cbn. rewrite app_nil_r. repeat split; try lia; try easy.
    intros (b & H & H' & H1 & H2). injection H as <-.
    apply Hd. congruence.
Qed.

(** A body that is valid JSON but does not make a request is refused
    without starting anything, whether or not a secret is configured: an
    object with a missing or unacceptable field with status 400, and a
    body that is not an object (a list, a number, a string) with status
    500. *)
Theorem solve_refuses_a_malformed_body :
  forall str_field getenv st body e,
    QuizRequest_init str_field body = Raise e ->
    post_solve (Return body) str_field getenv st
    = ({| status_code := if is_dict body then 400 else 500;
          content := [("detail",
                       VStr (if is_dict body then "Invalid request format"
                             else "Internal server error"))] |},
       st).
Proof.
  intros str_field getenv st body e H. unfold_solve.
  destruct body; cbn [QuizRequest_init is_dict] in *; try reflexivity.
  destruct (field str_field items "email"), (field str_field items "secret"),
    (field str_field items "url"); try discriminate; reflexivity.
Qed.

(** A secret that differs from the configured one is answered with
    status 403 and starts nothing. *)
Theorem solve_refuses_a_wrong_secret :
  forall str_field getenv st body q expected,
    QuizRequest_init str_field body = Return q ->
    getenv "SECRET" = Some expected ->
    expected <> EmptyString ->
    secret q <> expected ->
    post_solve (Return body) str_field getenv st
    = ({| status_code := 403;
          content := [("detail", VStr "Invalid secret")] |}, st).
Proof.
  intros str_field getenv st body q expected Hq Hs Hne Hdiff. unfold_solve.
  rewrite Hq, Hs. cbn [falsy].
  destruct (String.eqb_spec expected EmptyString) as [->|_]; [contradiction|].
  rewrite bool_decide_eq_false_2 by congruence. reflexivity.
Qed.

End ServerFacts.

(** ** More on [download_file] and [post_request] *)
Module DownloadMore.
Import PyTry DownloadFile.

Lemma open_wb_files open_fault path fs fs' :
  open_wb open_fault path fs = Return fs' ->
  files fs' !! path = Some [].
Proof.
  unfold open_wb.
  destruct (names_directory path fs); [discriminate|].
  destruct (open_fault path); [discriminate|].
  intros H. injection H as <-. cbn [files]. apply lookup_insert_eq.
Qed.

Lemma written_body path cs fs :
  files fs !! path = Some [] ->
  files (write_chunks path cs fs) !! path = Some (concat cs).
Proof.
  intros H. rewrite write_chunks_at, H. destruct cs; reflexivity.
Qed.

Ltac download_error :=
  let H := fresh in
  let Hp := fresh in
  cbn [fst snd]; intros H Hp; injection H as <-;
  vm_compute in Hp; discriminate Hp.

(** When the tool returns a path, the file at that path holds exactly
    the body of the response: what a file of that name held before is
    gone. *)
Theorem download_file_stores_the_body :
  forall urlparse_path session_get open_fault url filename fs response path,
    session_get url = Return response ->
    (download_file urlparse_path session_get open_fault url filename fs).1
      = Return path ->
    PyStr.startswith "LLMFiles/" path = true ->
    files (download_file urlparse_path session_get open_fault url filename fs).2
      !! path = Some (concat (chunks response)).
Proof.
  intros urlparse_path session_get open_fault url filename fs response path
    Hget. unfold download_file. rewrite Hget.
  destruct (makedirs "LLMFiles" fs) as [fs1|e];
    [|rewrite on_exception_returns; download_error].
  destruct (chosen_name urlparse_path url filename) as [chosen|e];
    [|rewrite on_exception_returns; download_error].
  destruct (negb (status response =? 200)); [download_error|].
  destruct (content_length response) as [[z|e]|];
    [|rewrite on_exception_returns; download_error|].
  all: destruct (open_wb open_fault (filepath_of chosen) fs1) as [fs2|e] eqn:Ho;
    [|rewrite on_exception_returns; download_error].
  all: destruct (stream_error response);
    [rewrite on_exception_returns; download_error|].
  all: cbn [fst snd]; intros H _; injection H as <-.
  all: apply written_body; eapply open_wb_files; exact Ho.
Qed.

(** A download that breaks off is reported as an error, but the part
    received so far stays in the file: the tool does not remove it. *)
Theorem download_file_keeps_a_broken_download :
  forall urlparse_path session_get open_fault url filename fs
         fs1 name response fs2 e,
    makedirs "LLMFiles" fs = Return fs1 ->
    chosen_name urlparse_path url filename = Return name ->
    session_get url = Return response ->
    status response = 200 ->
    (forall e', content_length response <> Some (Raise e')) ->
    open_wb open_fault (filepath_of name) fs1 = Return fs2 ->
    stream_error response = Some e ->
    (download_file urlparse_path session_get open_fault url filename fs).1
      = Return ("Error: " +:+ "❌ Error downloading file: " +:+ exn_msg e)
    /\ files (download_file urlparse_path session_get open_fault url filename fs).2
         !! filepath_of name = Some (concat (chunks response)).
Proof.
  intros urlparse_path session_get open_fault url filename fs fs1 name
    response fs2 e Hmk Hname Hget Hst Hlen Hopen Herr.
  unfold download_file. rewrite Hmk, Hname, Hget, Hst. cbn [Nat.eqb negb].
  change (200 =? 200) with true. cbn [negb].
  destruct (content_length response) as [[z|e']|] eqn:Hc;
    [|exfalso; eapply Hlen; reflexivity|];
    rewrite Hopen, Herr; (split; [reflexivity|]);
    cbn [snd]; apply written_body; eapply open_wb_files; exact Hopen.
Qed.

End DownloadMore.

Module SendRequestMore.
Import PyTry SendRequest.

(** The tool does not look at the status of the response: once the
    payload is serialisable and the server answers, whatever the status, the
    result carries that status and the body, parsed if it is JSON and as
    text otherwise. *)
Theorem post_request_reports_any_status :
  forall session_post url payload response,
    unencodable (VDict payload) = None ->
    session_post url payload = Return response ->
    match json response with
    | Return data =>
        unencodable data = None ->
        post_request session_post url payload
        = Return (Dumps (Some 2)
                    (VDict [("status_code", VInt (status response));
                            ("response", data)]))
    | Raise _ =>
        forall t,
          text response = Return t ->
          post_request session_post url payload
          = Return (Dumps (Some 2)
                      (VDict [("status_code", VInt (status response));
                              ("response", VDict [("text", VStr t)])]))
    end.
Proof.
  intros session_post url payload response Hpay Hpost.
  unfold post_request, request_body, json_dumps. rewrite Hpay.
  cbn [bind try_except]. rewrite Hpost. cbn [bind].
  destruct (json response) as [data|e].
  - intros Hdata. cbn [try_except bind].
    cbn [unencodable]. rewrite Hdata. reflexivity.
  - intros t Ht. cbn [try_except handle eval_class matches bind].
    rewrite Ht. reflexivity.
Qed.

End SendRequestMore.

(** ** The further properties on concrete runs *)
Module MoreRuns.
Import Scenarios.

Definition start_state : AgentState :=
  first_state steady EMAIL SECRET URL fresh_process.

Definition start_process : Process := first_process steady fresh_process.

Lemma successful_run_conversation_witness :
  outcome (run_graph steady parallel PROMPT echo_tool last_first
                     no_error_text TROUBLESHOOTING
                     EMAIL SECRET URL fresh_process)
    = Return (returned parallel_run) /\
  exists appended,
    messages (returned parallel_run) =
      HumanMessage ("Solve the quiz at this URL: " +:+ URL) :: appended /\
    rounds (answers echo_tool no_error_text) appended.
Proof.
  assert (H : outcome (run_graph steady parallel PROMPT echo_tool last_first
                                 no_error_text TROUBLESHOOTING
                                 EMAIL SECRET URL fresh_process)
              = Return (returned parallel_run)) by (vm_compute; reflexivity).
  split; [exact H|].
  exact (successful_run_conversation steady parallel PROMPT echo_tool
           last_first no_error_text TROUBLESHOOTING
           EMAIL SECRET URL fresh_process _ H).
Defined.

(** A reasoning service that is out of quota. *)
Definition ResourceExhausted : PyExn :=
  mkExn "ResourceExhausted" "429 You exceeded your current quota".

Definition exhausted (k : nat) (ms : list Message)
  : PyResult (Content * list ToolCall) :=
  Raise ResourceExhausted.

Lemma gateway_failure_witness :
  (call_model steady exhausted PROMPT start_state start_process).1
    = Raise ResourceExhausted /\
  (outcome (run_graph steady exhausted PROMPT echo_tool in_request_order
                      no_error_text TROUBLESHOOTING
                      EMAIL SECRET URL fresh_process)
     = Raise ResourceExhausted /\
   visited (run_graph steady exhausted PROMPT echo_tool in_request_order
                      no_error_text TROUBLESHOOTING
                      EMAIL SECRET URL fresh_process) = [agent] /\
   llm_calls (log (world (process_after
      (run_graph steady exhausted PROMPT echo_tool in_request_order
                 no_error_text TROUBLESHOOTING
                 EMAIL SECRET URL fresh_process))))
     = S (llm_calls (log (world fresh_process))) /\
   exists elapsed,
     (run_agent steady exhausted PROMPT echo_tool in_request_order
                no_error_text TROUBLESHOOTING
                EMAIL SECRET URL fresh_process).1
       = Failed (exn_msg ResourceExhausted) elapsed).
Proof.
  assert (H : (call_model steady exhausted PROMPT start_state start_process).1
              = Raise ResourceExhausted) by (vm_compute; reflexivity).
  split; [exact H|].
  exact (gateway_failure_ends_the_run steady exhausted PROMPT echo_tool
           in_request_order no_error_text TROUBLESHOOTING
           EMAIL SECRET URL fresh_process _ H).
Defined.

(** A submit-answer tool that raises, as [post_request] does when the
    request fails. *)
Definition failing_submit (k : nat) (call : ToolCall) : PyResult string :=
  if String.eqb (tc_name call) "post_request"
  then Raise (PyTry.NameError "asyncio")
  else Return "<html>quiz</html>".

Definition failed_report : Report :=
  (run_agent steady chaining PROMPT failing_submit in_request_order
             no_error_text TROUBLESHOOTING EMAIL SECRET URL fresh_process).1.

(** With a runtime that lets the exception through, the run ends at the
    second Acting step. *)
Example failing_submit_ends_the_run :
  visited (run_graph steady chaining PROMPT failing_submit in_request_order
                     no_error_text TROUBLESHOOTING
                     EMAIL SECRET URL fresh_process)
    = [agent; tools; agent; tools] /\
  failed_report
    = Failed "name 'asyncio' is not defined" (elapsed_of failed_report).
Proof. split; vm_compute; reflexivity. Qed.

Lemma failed_run_witness :
  (run_agent steady chaining PROMPT failing_submit in_request_order
             no_error_text TROUBLESHOOTING EMAIL SECRET URL fresh_process).1
    = Failed "name 'asyncio' is not defined" (elapsed_of failed_report) /\
  exists e,
    "name 'asyncio' is not defined" = exn_msg e /\
    failure_cause chaining failing_submit no_error_text TROUBLESHOOTING e.
Proof.
  assert (H : (run_agent steady chaining PROMPT failing_submit in_request_order
                         no_error_text TROUBLESHOOTING
                         EMAIL SECRET URL fresh_process).1
              = Failed "name 'asyncio' is not defined" (elapsed_of failed_report))
    by (vm_compute; reflexivity).
  split; [exact H|].
  exact (a_failed_run_has_one_of_four_causes steady chaining PROMPT
           failing_submit in_request_order no_error_text TROUBLESHOOTING
           EMAIL SECRET URL fresh_process _ _ H).
Defined.

Definition chained_after_2 : AgentState * Process :=
  default (start_state, start_process)
          (round_trips steady chaining PROMPT chain_tool in_request_order
                       no_error_text 2 start_state start_process).

Lemma prompt_is_rebuilt_witness :
  round_trips steady chaining PROMPT chain_tool in_request_order no_error_text
              2 start_state start_process
    = Some (chained_after_2.1, chained_after_2.2) /\
  exists appended,
    messages chained_after_2.1 =
      HumanMessage ("Solve the quiz at this URL: " +:+ URL) :: appended /\
    forallb is_reply appended = true /\
    (call_model steady chaining PROMPT chained_after_2.1 chained_after_2.2).1 =
      response_update
        (chaining (served (issue_world steady chained_after_2.2))
           (SystemMessage PROMPT
              :: HumanMessage ("Solve the quiz at this URL: " +:+ URL)
              :: appended
              ++ [HumanMessage
                    (context_msg chained_after_2.1
                       (reading steady chained_after_2.2
                          - start_time chained_after_2.1)
                       (max_time chained_after_2.1
                          - (reading steady chained_after_2.2
                               - start_time chained_after_2.1)))])).
Proof.
  assert (H : round_trips steady chaining PROMPT chain_tool in_request_order
                          no_error_text 2 start_state start_process
              = Some (chained_after_2.1, chained_after_2.2))
    by (vm_compute; reflexivity).
  split; [exact H|].
  exact (prompt_is_rebuilt_every_step steady chaining PROMPT chain_tool
           in_request_order no_error_text 2 EMAIL SECRET URL fresh_process
           _ _ H).
Defined.

Lemma serial_invocations_witness :
  Threads.serial Threads.serial_schedule (Threads.boot 1000) = true /\
  Threads.spaced (min_interval RateLimitedLLM_init)
    (Threads.issued (Threads.shared
       (Threads.exec Threads.serial_schedule (Threads.boot 1000)))) = true.
Proof.
  assert (H : Threads.serial Threads.serial_schedule (Threads.boot 1000) = true)
    by (vm_compute; reflexivity).
  split; [exact H|].
  exact (Threads.serial_invocations_are_spaced Threads.serial_schedule 1000 H).
Defined.

End MoreRuns.

Module ToolRuns.
Import PyTry Subprocess.
Import SendRequest (PyVal(..), PyDict, JsonText(..)).

Definition quiet_system : Sys := {| temp_files := []; children := [] |}.

Definition utf8 (b : list Byte.byte) : string := String.string_of_list_byte b.

Lemma run_code_removes_its_script_witness :
  ~ In "/tmp/tmpab12.py" (temp_files quiet_system) /\
  temp_files (RunCode.run_code (Written "/tmp/tmpab12.py") None TimedOut None
                               None utf8 "while True: pass" quiet_system).2
    = temp_files quiet_system.
Proof.
  assert (H : ~ In "/tmp/tmpab12.py" (temp_files quiet_system))
    by (intros []).
  split; [exact H|].
  exact (RunCodeFacts.run_code_removes_its_script "/tmp/tmpab12.py" None
           TimedOut None utf8 "while True: pass" quiet_system H).
Defined.

Lemma add_dependencies_non_string_witness :
  (In (VInt 3) [VStr "pandas"; VInt 3] /\ AddDependencies.is_str (VInt 3) = false) /\
  exists e,
    AddDependencies.add_dependencies None (Completed [] [] 0) utf8
      [VStr "pandas"; VInt 3] quiet_system = (Raise e, quiet_system)
    /\ exn_class e = "TypeError".
Proof.
  assert (Hin : In (VInt 3) [VStr "pandas"; VInt 3])
    by (right; left; reflexivity).
  assert (Hv : AddDependencies.is_str (VInt 3) = false) by reflexivity.
  split; [split; assumption|].
  exact (AddDependenciesFacts.add_dependencies_raises_on_a_non_string None
           (Completed [] [] 0) utf8 [VStr "pandas"; VInt 3] (VInt 3)
           quiet_system Hin Hv).
Defined.

(** A field declared [str] accepts strings only. *)
Definition strict_str (v : PyVal) : option string :=
  match v with VStr s => Some s | _ => None end.

Definition configured (name : string) : option string :=
  if String.eqb name "SECRET" then Some "s3cret"
  else if String.eqb name "EMAIL" then Some "student@example.com"
  else None.

Definition idle_server : Server.ServerState :=
  {| Server.tasks := []; Server.warnings := [] |}.

Definition guessing_body : PyVal :=
  VDict [("email", VStr "student@example.com"); ("secret", VStr "guess");
         ("url", VStr "https://quiz.example/q1")].

Lemma solve_refuses_a_list_witness :
  Server.QuizRequest_init strict_str (VList [VStr "s3cret"])
    = Raise (Server.TypeError_mapping (VList [VStr "s3cret"])) /\
  Server.post_solve (Return (VList [VStr "s3cret"])) strict_str configured
                    idle_server
  = ({| Server.status_code := 500;
        Server.content := [("detail", VStr "Internal server error")] |},
     idle_server).
Proof.
  assert (H : Server.QuizRequest_init strict_str (VList [VStr "s3cret"])
              = Raise (Server.TypeError_mapping (VList [VStr "s3cret"])))
    by reflexivity.
  split; [exact H|].
  exact (ServerFacts.solve_refuses_a_malformed_body strict_str configured
           idle_server _ _ H).
Defined.

Lemma solve_refuses_a_guess_witness :
  (Server.QuizRequest_init strict_str guessing_body
     = Return {| Server.email := "student@example.com";
                 Server.secret := "guess";
                 Server.url := "https://quiz.example/q1" |} /\
   configured "SECRET" = Some "s3cret" /\
   "s3cret" <> EmptyString /\
   "guess" <> "s3cret") /\
  Server.post_solve (Return guessing_body) strict_str configured idle_server
  = ({| Server.status_code := 403;
        Server.content := [("detail", VStr "Invalid secret")] |}, idle_server).
Proof.
  assert (Hq : Server.QuizRequest_init strict_str guessing_body
               = Return {| Server.email := "student@example.com";
                           Server.secret := "guess";
                           Server.url := "https://quiz.example/q1" |})
    by reflexivity.
  assert (Hs : configured "SECRET" = Some "s3cret") by reflexivity.
  assert (Hne : "s3cret" <> EmptyString) by discriminate.
  assert (Hd : "guess" <> "s3cret") by discriminate.
  split; [repeat split; assumption|].
  exact (ServerFacts.solve_refuses_a_wrong_secret strict_str configured
           idle_server guessing_body _ "s3cret" Hq Hs Hne Hd).
Defined.

End ToolRuns.

Module TransferRuns.
Import DownloadFile DownloadRuns SendRequest.

Lemma download_file_stores_the_body_witness :
  (answers_with 200 DATA_URL
     = Return {| DownloadFile.status := 200;
                 content_length := Some (Return 8%Z);
                 chunks := csv_chunks;
                 stream_error := None |} /\
   (download_file simple_path (answers_with 200) no_fault DATA_URL None
                  empty_fs).1 = Return "LLMFiles/data.csv" /\
   PyStr.startswith "LLMFiles/" "LLMFiles/data.csv" = true) /\
  files (download_file simple_path (answers_with 200) no_fault DATA_URL None
                       empty_fs).2 !! "LLMFiles/data.csv"
    = Some (concat csv_chunks).
Proof.
  assert (Hget : answers_with 200 DATA_URL
                 = Return {| DownloadFile.status := 200;
                             content_length := Some (Return 8%Z);
                             chunks := csv_chunks;
                             stream_error := None |}) by reflexivity.
  assert (Hr : (download_file simple_path (answers_with 200) no_fault DATA_URL
                              None empty_fs).1 = Return "LLMFiles/data.csv")
    by (vm_compute; reflexivity).
  assert (Hp : PyStr.startswith "LLMFiles/" "LLMFiles/data.csv" = true)
    by reflexivity.
  split; [repeat split; assumption|].
  exact (DownloadMore.download_file_stores_the_body simple_path
           (answers_with 200) no_fault DATA_URL None empty_fs _ _ Hget Hr Hp).
Defined.

Definition ConnectionReset : PyExn :=
  mkExn "ClientPayloadError" "Response payload is not completed".

(** A server whose answer breaks off after the first chunk. *)
Definition broken_response : HttpResponse :=
  {| DownloadFile.status := 200;
     content_length := Some (Return 8%Z);
     chunks := [[Byte.x61; Byte.x2c; Byte.x62; Byte.x0a]];
     stream_error := Some ConnectionReset |}.

Definition breaks_off (url : string) : PyResult HttpResponse :=
  Return broken_response.

Definition with_directory : FileSystem := {| dirs := {["LLMFiles"]}; files := ∅ |}.

Lemma download_file_keeps_a_broken_download_witness :
  (makedirs "LLMFiles" with_directory
     = Return {| dirs := {["LLMFiles"]} ∪ {["LLMFiles"]}; files := ∅ |} /\
   chosen_name simple_path DATA_URL None = Return "data.csv" /\
   breaks_off DATA_URL = Return broken_response /\
   DownloadFile.status broken_response = 200 /\
   (forall e', content_length broken_response <> Some (Raise e')) /\
   open_wb no_fault (filepath_of "data.csv")
           {| dirs := {["LLMFiles"]} ∪ {["LLMFiles"]}; files := ∅ |}
     = Return {| dirs := {["LLMFiles"]} ∪ {["LLMFiles"]};
                 files := <[filepath_of "data.csv" := []]> ∅ |} /\
   stream_error broken_response = Some ConnectionReset) /\
  ((download_file simple_path breaks_off no_fault DATA_URL None with_directory).1
     = Return ("Error: " +:+ "❌ Error downloading file: "
               +:+ exn_msg ConnectionReset)
   /\ files (download_file simple_path breaks_off no_fault DATA_URL None
                           with_directory).2 !! filepath_of "data.csv"
      = Some (concat (chunks broken_response))).
Proof.
  assert (Hmk : makedirs "LLMFiles" with_directory
                = Return {| dirs := {["LLMFiles"]} ∪ {["LLMFiles"]}; files := ∅ |})
    by reflexivity.
  assert (Hname : chosen_name simple_path DATA_URL None = Return "data.csv")
    by reflexivity.
  assert (Hget : breaks_off DATA_URL = Return broken_response) by reflexivity.
  assert (Hst : DownloadFile.status broken_response = 200) by reflexivity.
  assert (Hlen : forall e', content_length broken_response <> Some (Raise e'))
    by (intros e'; discriminate).
  assert (Hopen : open_wb no_fault (filepath_of "data.csv")
                    {| dirs := {["LLMFiles"]} ∪ {["LLMFiles"]}; files := ∅ |}
                  = Return {| dirs := {["LLMFiles"]} ∪ {["LLMFiles"]};
                              files := <[filepath_of "data.csv" := []]> ∅ |}).
  { unfold open_wb, names_directory. cbn [dirs].
    rewrite bool_decide_eq_false_2; [reflexivity|].
    intros Hin. apply elem_of_union in Hin as [Hin|Hin];
      apply elem_of_singleton in Hin; vm_compute in Hin; discriminate Hin. }
  assert (Herr : stream_error broken_response = Some ConnectionReset)
    by reflexivity.
  split; [repeat split; assumption|].
  exact (DownloadMore.download_file_keeps_a_broken_download simple_path
           breaks_off no_fault DATA_URL None with_directory _ _ _ _ _
           Hmk Hname Hget Hst Hlen Hopen Herr).
Defined.

(** An endpoint that rejects the answer with a page that is not JSON. *)
Definition failing_endpoint (url : string) (payload : PyDict)
  : PyResult Response :=
  Return {| SendRequest.status := 500;
            json := Raise (mkExn "ContentTypeError" "unexpected mimetype: text/html");
            text := Return "<h1>Server Error</h1>" |}.

Lemma post_request_reports_500_witness :
  (unencodable (VDict sample_payload) = None /\
   failing_endpoint "https://example.com/submit" sample_payload
     = Return {| SendRequest.status := 500;
                 json := Raise (mkExn "ContentTypeError"
                                      "unexpected mimetype: text/html");
                 text := Return "<h1>Server Error</h1>" |}) /\
  post_request failing_endpoint "https://example.com/submit" sample_payload
  = Return (Dumps (Some 2)
      (VDict [("status_code", VInt 500);
              ("response", VDict [("text", VStr "<h1>Server Error</h1>")])])).
Proof.
  assert (Hp : unencodable (VDict sample_payload) = None) by reflexivity.
  assert (Hr : failing_endpoint "https://example.com/submit" sample_payload
               = Return {| SendRequest.status := 500;
                           json := Raise (mkExn "ContentTypeError"
                                                "unexpected mimetype: text/html");
                           text := Return "<h1>Server Error</h1>" |})
    by reflexivity.
  split; [split; assumption|].
  exact (SendRequestMore.post_request_reports_any_status failing_endpoint
           "https://example.com/submit" sample_payload _ Hp Hr
           "<h1>Server Error</h1>" eq_refl).
Defined.

End TransferRuns.
